(** * telegram_clima_agenda: a shallow embedding and its checked properties

    The program builds one daily notification: a two-day weather summary
    followed by today's calendar agenda, and posts it to a Telegram chat.
    This development embeds [src/telegram_clima_agenda.py] function by
    function.  Python exceptions become an error monad, the Telegram chat
    becomes an explicit log of sent texts, and the external collaborators
    (HTTP, the iCalendar parser, the tz database, the environment, the clock)
    are gathered in records that the functions take as arguments. *)

From Stdlib Require Import ZArith List String Ascii Bool Lia Permutation Sorted.
From Stdlib Require Import DecimalString.
Import ListNotations.

Local Open Scope string_scope.
Local Open Scope Z_scope.

(** ** Exceptions and results *)

(** The exceptions that reach the program.  Every one of them is a subclass of
    [Exception], so [except Exception] catches them all. *)
Inductive exn : Type :=
| IndexError
| KeyError
| TypeError
| ValueError
| OverflowError
| RuntimeError (msg : string)
| RequestException
| ParseError
| TelegramError.

Inductive result (A : Type) : Type :=
| Ok (a : A)
| Raise (e : exn).

Arguments Ok {A} a.
Arguments Raise {A} e.

Definition bind {A B : Type} (r : result A) (k : A -> result B) : result B :=
  match r with
  | Ok a => k a
  | Raise e => Raise e
  end.

Notation "x <- c ;; k" := (bind c (fun x => k))
  (at level 61, c at next level, right associativity).

Definition is_ok {A : Type} (r : result A) : bool :=
  match r with Ok _ => true | Raise _ => false end.

(** ** Python strings *)

(** A [str] is held as the bytes of its UTF-8 encoding (for a value of
    [os.environ], the bytes it was decoded from).  Python works on
    characters; where a character can take more than one byte the functions
    below read the bytes of whole characters. *)

Module PyStr.

(** [str(n)] for an [int]. *)
Definition of_int (z : Z) : string := NilZero.string_of_int (Z.to_int z).

(** [%H] and [%M] of [strftime]: two digits, zero padded. *)
Definition pad2 (z : Z) : string :=
  if z <? 10 then "0" ++ of_int z else of_int z.

(** Truthiness of a [str]: non-empty. *)
Definition truthy (s : string) : bool :=
  match s with EmptyString => false | String _ _ => true end.

(** Truthiness of an optional [str] ([None] is falsy). *)
Definition truthy_opt (s : option string) : bool :=
  match s with None => false | Some s => truthy s end.

(** [x or ""]. *)
Definition or_empty (s : option string) : string :=
  match s with
  | None => ""
  | Some s => s
  end.

(** [str(x)] inside an f-string, for a value that is a [str] or [None]. *)
Definition format_opt (s : option string) : string :=
  match s with
  | None => "None"
  | Some s => s
  end.

(** The string of the given bytes. *)
Definition utf8 (bytes : list nat) : string :=
  string_of_list_ascii (map ascii_of_nat bytes).

(** The characters that [str.strip()] removes, those for which [str.isspace]
    holds, each as its UTF-8 bytes: U+0009 to U+000D, U+001C to U+0020,
    U+0085, U+00A0, U+1680, U+2000 to U+200A, U+2028, U+2029, U+202F, U+205F
    and U+3000. *)
Definition whitespace : list string := Eval cbv in
  map utf8
    [ [9]; [10]; [11]; [12]; [13]; [28]; [29]; [30]; [31]; [32];
      [194; 133]; [194; 160]; [225; 154; 128];
      [226; 128; 128]; [226; 128; 129]; [226; 128; 130]; [226; 128; 131];
      [226; 128; 132]; [226; 128; 133]; [226; 128; 134]; [226; 128; 135];
      [226; 128; 136]; [226; 128; 137]; [226; 128; 138];
      [226; 128; 168]; [226; 128; 169]; [226; 128; 175]; [226; 129; 159];
      [227; 128; 128] ]%nat.

(** [s] without [w] in front, when [s] begins with [w]. *)
Fixpoint drop_prefix (w s : string) : option string :=
  match w with
  | EmptyString => Some s
  | String a w' =>
      match s with
      | String b s' => if Ascii.eqb a b then drop_prefix w' s' else None
      | EmptyString => None
      end
  end.

(** [s] without the first of [ws] that it begins with. *)
Fixpoint drop_first (ws : list string) (s : string) : option string :=
  match ws with
  | [] => None
  | w :: rest =>
      match drop_prefix w s with
      | Some r => Some r
      | None => drop_first rest s
      end
  end.

(** [s] without the whitespace character it begins with, if it begins with
    one. *)
Definition drop_space (s : string) : option string := drop_first whitespace s.

(** At most [n] whitespace characters are removed in front. *)
Fixpoint lstrip_upto (n : nat) (s : string) : string :=
  match n with
  | O => s
  | S n' =>
      match drop_space s with
      | Some r => lstrip_upto n' r
      | None => s
      end
  end.

(** [s.lstrip()]: a string has no more characters than bytes. *)
Definition lstrip (s : string) : string := lstrip_upto (String.length s) s.

(** [s] is one whitespace character. *)
Definition is_space (s : string) : bool := existsb (String.eqb s) whitespace.

(** [s.rstrip()], from the right: once its tail is stripped, a string that
    is left as exactly one whitespace character is dropped as well.  (A
    whitespace character of several bytes is found when its first byte is
    reached: its other bytes begin no character.) *)
Fixpoint rstrip (s : string) : string :=
  match s with
  | EmptyString => EmptyString
  | String c r =>
      let kept := String c (rstrip r) in
      if is_space kept then EmptyString else kept
  end.

(** [s.strip()]. *)
Definition strip (s : string) : string := rstrip (lstrip s).

Fixpoint lstrip_with (p : ascii -> bool) (s : string) : string :=
  match s with
  | EmptyString => EmptyString
  | String c r => if p c then lstrip_with p r else s
  end.

Fixpoint rstrip_with (p : ascii -> bool) (s : string) : string :=
  match s with
  | EmptyString => EmptyString
  | String c r =>
      match rstrip_with p r with
      | EmptyString => if p c then EmptyString else String c EmptyString
      | r' => String c r'
      end
  end.

Definition strip_with (p : ascii -> bool) (s : string) : string :=
  rstrip_with p (lstrip_with p s).

(** [s.strip(c)] for a one-character argument, [c] in ASCII. *)
Definition strip_char (c : ascii) (s : string) : string :=
  strip_with (Ascii.eqb c) s.

(** [s.split(sep)] for a one-character separator. *)
Fixpoint split (sep : ascii) (s : string) : list string :=
  match s with
  | EmptyString => [EmptyString]
  | String c r =>
      if Ascii.eqb c sep then EmptyString :: split sep r
      else match split sep r with
           | [] => [String c EmptyString]
           | w :: ws => String c w :: ws
           end
  end.

(** A byte that continues a UTF-8 sequence (10xxxxxx). *)
Definition is_continuation (c : ascii) : bool :=
  let n := Z.of_nat (nat_of_ascii c) in (128 <=? n) && (n <? 192).

(** The characters (code points) of a UTF-8 string, each as the string of
    its bytes: Python indexes and slices a [str] by character. *)
Fixpoint chars (s : string) : list string :=
  match s with
  | EmptyString => []
  | String c r =>
      match chars r with
      | [] => [String c EmptyString]
      | w :: ws =>
          match r with
          | String c' _ =>
              if is_continuation c' then String c w :: ws
              else String c EmptyString :: w :: ws
          | EmptyString => String c EmptyString :: w :: ws
          end
      end
  end.

Definition join (sep : string) (l : list string) : string :=
  String.concat sep l.

End PyStr.

(** The double and the single quote, stripped from calendar URLs. *)
Definition dquote : ascii := ascii_of_nat 34.
Definition squote : ascii := ascii_of_nat 39.
Definition comma : ascii := ascii_of_nat 44.
Definition nl : string := String (ascii_of_nat 10) EmptyString.

(** The cleaning applied to a calendar URL: [strip()], then [strip] of the
    double quote, then [strip] of the single quote. *)
Definition clean_url (s : string) : string :=
  PyStr.strip_char squote (PyStr.strip_char dquote (PyStr.strip s)).

(** ** Python datetimes *)

Module PyDatetime.

(** The tzinfo objects the program meets.  After dateutil: the UTC
    singleton, a fixed offset, a zone of the tz database; dateutil caches its
    instances by their arguments, so the identity test [a is b] of two of
    them is equality of these values.  After the standard library: the fixed
    offset ([datetime.timezone]) that [astimezone] makes for the system's
    zone when it is given no zone.  Such an object is made anew at each
    call; two of them are one value here when their offsets are equal, which
    comparisons and differences of datetimes do not tell from identity (where
    the tzinfo objects differ Python looks at the offsets). *)
Inductive tzinfo : Type :=
| tzutc
| tzoffset (offset : Z)
| tzfile (name : string)
| timezone (offset : Z).

Definition tzinfo_is (a b : tzinfo) : bool :=
  match a, b with
  | tzutc, tzutc => true
  | tzoffset x, tzoffset y => x =? y
  | tzfile n, tzfile m => String.eqb n m
  | timezone x, timezone y => x =? y
  | _, _ => false
  end.

(** [a is b] where either side may be [None]. *)
Definition same_tz (a b : option tzinfo) : bool :=
  match a, b with
  | None, None => true
  | Some x, Some y => tzinfo_is x y
  | _, _ => false
  end.

(** The rules of the tz database and of the system's local zone.  Times are
    counted in microseconds of wall clock, see [wall] below. *)
Class TzData : Type := {
  (** [tz.gettz(name)]: the object a zone name resolves to, [None] for a name
      that the database does not know.  Which object it is depends on the
      installed database (the name UTC gives a zone file where there is one,
      the UTC singleton elsewhere). *)
  gettz : string -> option tzinfo;
  (** [utcoffset] of a local wall clock, with its fold, in a named zone *)
  zone_utcoffset : string -> Z -> bool -> Z;
  (** the offset in force in a named zone at a UTC wall clock, and the fold
      of the local time it gives *)
  zone_fromutc : string -> Z -> Z * bool;
  (** [utcoffset] of the system's local zone for a naive wall clock *)
  system_utcoffset : Z -> Z;
  (** the offset in force in the system's local zone at a UTC wall clock, and
      the fold of the local time it gives *)
  system_fromutc : Z -> Z * bool
}.

(** A [datetime]: the proleptic Gregorian ordinal of its date
    ([toordinal()], day 1 is 0001-01-01), the time fields, the tzinfo
    ([None] for a naive value) and the fold. *)
Record datetime : Type := mkdatetime {
  ordinal : Z;
  hour : Z;
  minute : Z;
  second : Z;
  microsecond : Z;
  tzinfo_of : option tzinfo;
  fold : bool
}.

(** A [timedelta], as its whole number of microseconds. *)
Definition timedelta : Type := Z.

Definition US_PER_SECOND : Z := 1000000.
Definition US_PER_MINUTE : Z := 60 * US_PER_SECOND.
Definition US_PER_HOUR : Z := 60 * US_PER_MINUTE.
Definition US_PER_DAY : Z := 24 * US_PER_HOUR.

(** [date.max.toordinal()], the ordinal of 9999-12-31. *)
Definition MAXORDINAL : Z := 3652059.

(** [timedelta(days=n)]. *)
Definition timedelta_days (n : Z) : timedelta := n * US_PER_DAY.

(** The wall clock of a datetime, in microseconds since the midnight that
    starts ordinal 0. *)
Definition wall (d : datetime) : Z :=
  (((ordinal d * 24 + hour d) * 60 + minute d) * 60 + second d)
  * US_PER_SECOND + microsecond d.

(** Building a datetime back from a wall clock: the date must lie between
    ordinal 1 and [MAXORDINAL], otherwise Python raises [OverflowError]
    (date value out of range). *)
Definition of_wall (w : Z) (tz : option tzinfo) (fo : bool) : result datetime :=
  let days := w / US_PER_DAY in
  if (1 <=? days) && (days <=? MAXORDINAL) then
    Ok {| ordinal := days;
          hour := (w / US_PER_HOUR) mod 24;
          minute := (w / US_PER_MINUTE) mod 60;
          second := (w / US_PER_SECOND) mod 60;
          microsecond := w mod US_PER_SECOND;
          tzinfo_of := tz;
          fold := fo |}
  else Raise OverflowError.

(** [d.replace(hour=h, minute=m, second=s, microsecond=us)]. *)
Definition replace_time (d : datetime) (h m s us : Z) : datetime :=
  {| ordinal := ordinal d;
     hour := h; minute := m; second := s; microsecond := us;
     tzinfo_of := tzinfo_of d;
     fold := fold d |}.

(** [d.replace(tzinfo=tz)]. *)
Definition replace_tzinfo (d : datetime) (tz : option tzinfo) : datetime :=
  {| ordinal := ordinal d;
     hour := hour d; minute := minute d; second := second d;
     microsecond := microsecond d;
     tzinfo_of := tz;
     fold := fold d |}.

(** [d + delta]: arithmetic on the wall clock, the tzinfo kept, fold 0. *)
Definition add (d : datetime) (delta : timedelta) : result datetime :=
  of_wall (wall d + delta) (tzinfo_of d) false.

(** [d.strftime("%H:%M")]. *)
Definition strftime_HM (d : datetime) : string :=
  PyStr.pad2 (hour d) ++ ":" ++ PyStr.pad2 (minute d).

(** The comparison of the field tuples
    (year, month, day, hour, minute, second, microsecond): the date part is
    compared through the ordinal. *)
Definition lex (c1 c2 : comparison) : comparison :=
  match c1 with
  | Eq => c2
  | _ => c1
  end.

Definition base_compare (a b : datetime) : comparison :=
  lex (ordinal a ?= ordinal b)
    (lex (hour a ?= hour b)
       (lex (minute a ?= minute b)
          (lex (second a ?= second b)
             (microsecond a ?= microsecond b)))).

Section WithTzData.
Context {tzdata : TzData}.

Definition tz_utcoffset (tz : tzinfo) (w : Z) (fo : bool) : Z :=
  match tz with
  | tzutc => 0
  | tzoffset o => o
  | tzfile n => zone_utcoffset n w fo
  | timezone o => o
  end.

(** [d.utcoffset()], [None] for a naive datetime. *)
Definition utcoffset (d : datetime) : option Z :=
  match tzinfo_of d with
  | None => None
  | Some tz => Some (tz_utcoffset tz (wall d) (fold d))
  end.

(** [datetime._cmp]: datetimes that share their tzinfo object, or have
    equal offsets, are compared on their fields; others on their UTC
    instants; a naive one against an aware one is a [TypeError]. *)
Definition cmp (a b : datetime) : result comparison :=
  if same_tz (tzinfo_of a) (tzinfo_of b) then Ok (base_compare a b)
  else
    match utcoffset a, utcoffset b with
    | Some oa, Some ob =>
        if oa =? ob then Ok (base_compare a b)
        else Ok ((wall a - oa) ?= (wall b - ob))
    | _, _ => Raise TypeError
    end.

(** [a < b] and [a > b]. *)
Definition lt (a b : datetime) : result bool :=
  c <- cmp a b ;;
  Ok match c with Lt => true | _ => false end.

Definition gt (a b : datetime) : result bool :=
  c <- cmp a b ;;
  Ok match c with Gt => true | _ => false end.

(** [a - b] for two datetimes. *)
Definition sub (a b : datetime) : result timedelta :=
  let base := wall a - wall b in
  if same_tz (tzinfo_of a) (tzinfo_of b) then Ok base
  else
    match utcoffset a, utcoffset b with
    | Some oa, Some ob => if oa =? ob then Ok base else Ok (base + ob - oa)
    | _, _ => Raise TypeError
    end.

(** [tz.fromutc(utc)], where [utc] already carries [tz] as its tzinfo.
    The UTC singleton returns its argument; the others add the offset in
    force, which can leave the range of dates. *)
Definition fromutc (tz : tzinfo) (utc : datetime) : result datetime :=
  match tz with
  | tzutc => Ok utc
  | tzoffset o => add utc o
  | tzfile n =>
      let '(o, fo) := zone_fromutc n (wall utc) in
      of_wall (wall utc + o) (Some tz) fo
  | timezone o => add utc o
  end.

(** [d.astimezone(tz)], where [tz] may be [None].  A naive [d] is read in
    the system's local zone, whose tzinfo is a fresh fixed-offset object, so
    that only an aware [d] can already be in the zone [tz].  Otherwise [d]
    is taken to UTC and from there to [tz]; without [tz], to the offset that
    the system's local zone has at that instant. *)
Definition astimezone (d : datetime) (tz : option tzinfo) : result datetime :=
  let myoffset :=
    match tzinfo_of d with
    | None => system_utcoffset (wall d)
    | Some mytz => tz_utcoffset mytz (wall d) (fold d)
    end in
  if match tz with
     | None => false
     | Some tz =>
         match tzinfo_of d with
         | None => false
         | Some mytz => tzinfo_is tz mytz
         end
     end
  then Ok d
  else
    shifted <- add d (- myoffset) ;;
    match tz with
    | Some tz => fromutc tz (replace_tzinfo shifted (Some tz))
    | None =>
        let local := timezone (fst (system_fromutc (wall shifted))) in
        fromutc local (replace_tzinfo shifted (Some local))
    end.

(** [datetime.now(tz)], the system clock being [clock] microseconds of
    UTC wall clock.  Without a zone it is the naive local time of the
    system. *)
Definition now (tz : option tzinfo) (clock : Z) : result datetime :=
  match tz with
  | None =>
      let '(o, fo) := system_fromutc clock in
      of_wall (clock + o) None fo
  | Some tz =>
      utc <- of_wall clock (Some tz) false ;;
      fromutc tz utc
  end.

End WithTzData.

End PyDatetime.

Import PyDatetime.

(** ** Python floats of known value *)

(** The binary64 numbers that [timedelta.total_seconds()] returns, with the
    two operations the program applies to them.  A timedelta is below 10^9
    days and a whole number of microseconds, so the quotients met here are
    zero or lie between 10^-6 and 2^47: the limits of the exponent of binary64
    play no part and are left out. *)
Module Binary64.

(** The finite number [mantissa * 2^exponent]. *)
Record float64 : Type := mkfloat64 { mantissa : Z; exponent : Z }.

(** [2^k] for a non-negative [k], and 1 otherwise. *)
Definition scale (k : Z) : Z := 2 ^ Z.max 0 k.

(** The power of two at or below the quotient [a / d] of two positive
    integers: [2^(binade a d) <= a / d < 2^(binade a d + 1)]. *)
Definition binade (a d : Z) : Z :=
  let p := Z.log2 a - Z.log2 d in
  if d * scale p <=? a * scale (- p) then p else p - 1.

(** The integer nearest to [n / d], the even one of two that are equally
    near. *)
Definition round_half_even (n d : Z) : Z :=
  let q := n / d in
  match 2 * (n mod d) ?= d with
  | Lt => q
  | Gt => q + 1
  | Eq => if Z.even q then q else q + 1
  end.

(** [n / d] for two [int]s, [d] positive: the binary64 nearest to the
    quotient, which has 53 significant bits. *)
Definition true_divide (n d : Z) : float64 :=
  if n =? 0 then mkfloat64 0 0
  else
    let a := Z.abs n in
    let e := binade a d - 52 in
    mkfloat64 (Z.sgn n * round_half_even (a * scale (- e)) (d * scale e)) e.

(** [int(x // k)] for a positive [int] [k]: for [x] below 2^53 in size the
    float [x // k] is the floor of the exact quotient of [x] by [k], a whole
    number that [int] returns as it is. *)
Definition floor_div (x : float64) (k : Z) : Z :=
  (mantissa x * scale (exponent x)) / (k * scale (- exponent x)).

End Binary64.

(** ** Calendar events and the agenda *)

(** A timestamp of the calendar library: an Arrow object, which wraps a
    datetime in its [datetime] attribute, or a plain datetime. *)
Inductive timestamp : Type :=
| Arrow (wrapped : datetime)
| Plain (d : datetime).

(** An event as the calendar library hands it over. *)
Record Event : Type := mkEvent {
  ev_begin : option timestamp;
  ev_end : option timestamp;
  ev_name : option string;
  ev_all_day : bool;
  ev_location : option string
}.

(** An agenda entry, the tuple [(s, t, name, all_day, location)]. *)
Definition entry : Type :=
  (datetime * datetime * option string * bool * option string)%type.

Definition entry_start (x : entry) : datetime :=
  let '(s, _, _, _, _) := x in s.

Definition entry_end (x : entry) : datetime :=
  let '(_, t, _, _, _) := x in t.

(** [e.end or e.begin]: Arrow objects and datetimes are always truthy, so the
    right operand is taken exactly when the end is [None]. *)
Definition end_or_begin (e : Event) (b : timestamp) : timestamp :=
  match ev_end e with
  | Some x => x
  | None => b
  end.

Section Agenda.
Context {tzdata : TzData}.

(** What [requests.get(url)], [raise_for_status()] and [Calendar(r.text)]
    give for a URL: the events of the calendar in the order [cal.events]
    yields them, or the exception one of the three steps raised. *)
Variable calendar_events : string -> result (list Event).

(** The system clock, in microseconds of UTC wall clock. *)
Variable clock : Z.

(** [to_local_dt], with the zone it closes over as a parameter: what
    [tz.gettz] returned, [None] included. *)
Definition to_local_dt (tzlocal : option tzinfo) (x : timestamp)
    : result datetime :=
  let d := match x with
           | Arrow wrapped => wrapped
           | Plain d => d
           end in
  let d := match tzinfo_of d with
           | None => replace_tzinfo d (Some tzutc)
           | Some _ => d
           end in
  astimezone d tzlocal.

(** Lines 101-102: the local midnight that starts today, and the instant one
    day later. *)
Definition today_window (tzlocal : option tzinfo)
    : result (datetime * datetime) :=
  n <- now tzlocal clock ;;
  let start := replace_time n 0 0 0 0 in
  end_ <- add start (timedelta_days 1) ;;
  Ok (start, end_).

(** [t > start and s < end]: the second test runs only if the first holds. *)
Definition intersects (start end_ s t : datetime) : result bool :=
  after <- gt t start ;;
  if after then lt s end_ else Ok false.

(** The loop over [cal.events] (lines 126-133). *)
Fixpoint scan_events (tzlocal : option tzinfo) (start end_ : datetime)
    (cal : list Event) (events : list entry) : result (list entry) :=
  match cal with
  | [] => Ok events
  | e :: rest =>
      match ev_begin e with
      | None => scan_events tzlocal start end_ rest events
      | Some b =>
          s <- to_local_dt tzlocal b ;;
          t <- to_local_dt tzlocal (end_or_begin e b) ;;
          keep <- intersects start end_ s t ;;
          scan_events tzlocal start end_ rest
            (if keep
             then (events ++ [(s, t, ev_name e, ev_all_day e, ev_location e)])%list
             else events)
      end
  end.

(** The loop over [urls] (lines 115-133): an empty URL and a URL whose fetch
    or parse raises are both skipped. *)
Fixpoint scan_urls (tzlocal : option tzinfo) (start end_ : datetime)
    (urls : list (option string)) (events : list entry) : result (list entry) :=
  match urls with
  | [] => Ok events
  | raw :: rest =>
      let url := clean_url (PyStr.or_empty raw) in
      if negb (PyStr.truthy url) then scan_urls tzlocal start end_ rest events
      else
        match calendar_events url with
        | Raise _ => scan_urls tzlocal start end_ rest events
        | Ok cal =>
            events' <- scan_events tzlocal start end_ cal events ;;
            scan_urls tzlocal start end_ rest events'
        end
  end.

(** [events.sort(key=lambda x: x[0])]: a stable sort that compares the keys
    with [<].  It is written as an insertion sort; whenever no comparison
    raises, every stable sort returns the same list. *)
Fixpoint insert_by_start (x : entry) (l : list entry) : result (list entry) :=
  match l with
  | [] => Ok [x]
  | y :: l' =>
      before <- lt (entry_start y) (entry_start x) ;;
      if before then (r <- insert_by_start x l' ;; Ok (y :: r))
      else Ok (x :: y :: l')
  end.

Fixpoint sort_by_start (l : list entry) : result (list entry) :=
  match l with
  | [] => Ok []
  | x :: l' => r <- sort_by_start l' ;; insert_by_start x r
  end.

Definition fetch_ics_events_today (urls : list (option string))
    (tzname : string) : result (list entry) :=
  let tzlocal := gettz tzname in
  w <- today_window tzlocal ;;
  let '(start, end_) := w in
  events <- scan_urls tzlocal start end_ urls [] ;;
  sort_by_start events.

(** [delta.total_seconds()]: the microseconds divided by [10**6], as a
    float. *)
Definition total_seconds (delta : timedelta) : Binary64.float64 :=
  Binary64.true_divide delta US_PER_SECOND.

(** [int((t - s).total_seconds() // 60)]. *)
Definition whole_minutes (delta : timedelta) : Z :=
  Binary64.floor_div (total_seconds delta) 60.

(** [f"{hh}h {mm}m" if hh else f"{mm}m"] after [hh, mm = divmod(mins, 60)]. *)
Definition duration_text (mins : Z) : string :=
  let hh := mins / 60 in
  let mm := mins mod 60 in
  if hh =? 0 then PyStr.of_int mm ++ "m"
  else PyStr.of_int hh ++ "h " ++ PyStr.of_int mm ++ "m".

(** The body of the loop of [format_agenda] (lines 143-151). *)
Definition format_entry (x : entry) : result string :=
  let '(s, t, name, all_day, loc) := x in
  if all_day then Ok ("• (Todo el día) — *" ++ PyStr.format_opt name ++ "*")
  else
    let h1 := strftime_HM s in
    delta <- sub t s ;;
    let dstr := duration_text (whole_minutes delta) in
    let where_ := if PyStr.truthy_opt loc
                  then " @ " ++ PyStr.format_opt loc else "" in
    Ok (h1 ++ " (" ++ dstr ++ ") — *" ++ PyStr.format_opt name ++ "*" ++ where_).

Fixpoint format_entries (events : list entry) : result (list string) :=
  match events with
  | [] => Ok []
  | x :: rest =>
      line <- format_entry x ;;
      lines <- format_entries rest ;;
      Ok (line :: lines)
  end.

Definition format_agenda (events : list entry) : result string :=
  match events with
  | [] => Ok ("🗓️ *Agenda de hoy*" ++ nl ++ "(No hay eventos)" ++ nl)
  | _ =>
      lines <- format_entries events ;;
      Ok (PyStr.join nl ("🗓️ *Agenda de hoy*" :: lines) ++ nl)
  end.

End Agenda.

(** ** Python floats and JSON values *)

(** Python's [float] is kept abstract: the program parses, prints and compares
    floats, and none of the properties below depends on how. *)
Class PyFloat : Type := {
  pyfloat : Type;
  (** [float(s)], which raises [ValueError] on a malformed string *)
  float_of_str : string -> result pyfloat;
  (** [str(x)] *)
  float_str : pyfloat -> string;
  (** [f"{x:.4f}"] *)
  float_fixed4 : pyfloat -> string;
  (** the exact comparison of a float with an [int]; [None] for a NaN *)
  float_compare_int : pyfloat -> Z -> option comparison
}.

(** What [json.loads] builds. *)
#[warnings="-register-all"] Inductive json {F : PyFloat} : Type :=
| JNull
| JBool (b : bool)
| JInt (n : Z)
| JFloat (x : pyfloat)
| JStr (s : string)
| JList (items : list json)
| JDict (fields : list (string * json)).

Module PyJson.
Section WithFloat.
Context {F : PyFloat}.

Fixpoint assoc (k : string) (fields : list (string * json)) : option json :=
  match fields with
  | [] => None
  | (k', v) :: rest => if String.eqb k k' then Some v else assoc k rest
  end.

(** [v[k]] for a [str] key: only a dict can be indexed by a string; a
    list or a str wants an integer, the other values are not
    subscriptable. *)
Definition getitem_key (v : json) (k : string) : result json :=
  match v with
  | JDict fields =>
      match assoc k fields with
      | Some x => Ok x
      | None => Raise KeyError
      end
  | _ => Raise TypeError
  end.

(** [v[i]] for a non-negative [int] index. *)
Definition getitem_index (v : json) (i : nat) : result json :=
  match v with
  | JList items =>
      match nth_error items i with
      | Some x => Ok x
      | None => Raise IndexError
      end
  | JStr s =>
      match nth_error (PyStr.chars s) i with
      | Some c => Ok (JStr c)
      | None => Raise IndexError
      end
  | JDict _ => Raise KeyError
  | _ => Raise TypeError
  end.

Definition last_n {A : Type} (n : nat) (l : list A) : list A :=
  List.skipn (List.length l - n) l.

(** [v[-5:]].  A dict rejects the slice with [TypeError] (a [KeyError]
    from Python 3.12 on; the program catches both alike). *)
Definition slice_last5 (v : json) : result json :=
  match v with
  | JStr s => Ok (JStr (String.concat "" (last_n 5 (PyStr.chars s))))
  | JList items => Ok (JList (last_n 5 items))
  | _ => Raise TypeError
  end.

(** [str] of the lists and dicts of a JSON value is not reproduced; it is
    a parameter of [format]. *)
Variable container_repr : json -> string.

(** [f"{v}"]. *)
Definition format (v : json) : string :=
  match v with
  | JNull => "None"
  | JBool true => "True"
  | JBool false => "False"
  | JInt n => PyStr.of_int n
  | JFloat x => float_str x
  | JStr s => s
  | JList _ | JDict _ => container_repr v
  end.

End WithFloat.
End PyJson.

(** ** The weather text *)

Definition WMO_DESC : list (Z * (string * string)) :=
  [ (0, ("Despejado", "☀️")); (1, ("Mayormente despejado", "🌤️"));
    (2, ("Parcialmente nublado", "⛅"));
    (3, ("Nublado", "☁️")); (45, ("Niebla", "🌫️"));
    (48, ("Niebla escarchada", "🌫️"));
    (51, ("Llovizna ligera", "🌦️")); (53, ("Llovizna", "🌦️"));
    (55, ("Llovizna fuerte", "🌧️"));
    (61, ("Lluvia ligera", "🌧️")); (63, ("Lluvia", "🌧️"));
    (65, ("Lluvia fuerte", "🌧️"));
    (71, ("Nieve ligera", "🌨️")); (73, ("Nieve", "🌨️"));
    (75, ("Nieve fuerte", "❄️"));
    (80, ("Chubascos", "🌧️")); (81, ("Chubascos", "🌧️"));
    (82, ("Chubascos fuertes", "⛈️"));
    (95, ("Tormentas", "⛈️")); (96, ("Tormentas con granizo", "⛈️"));
    (99, ("Tormentas con granizo", "⛈️")) ].

Section Weather.
Context {F : PyFloat}.
Variable container_repr : json -> string.

(** Whether a JSON value equals the [int] key [k] as a dict key: [True] is
    1, [False] is 0, and a float equals the integer of the same value. *)
Definition key_equals (v : json) (k : Z) : bool :=
  match v with
  | JInt n => n =? k
  | JBool b => (if b then 1 else 0) =? k
  | JFloat x =>
      match float_compare_int x k with
      | Some Eq => true
      | _ => false
      end
  | _ => false
  end.

Fixpoint wmo_find (v : json) (table : list (Z * (string * string)))
    : string * string :=
  match table with
  | [] => ("", "")
  | (k, d) :: rest => if key_equals v k then d else wmo_find v rest
  end.

(** [WMO_DESC.get(wcode, ("", ""))]: the key is hashed first, and a list or
    a dict is unhashable. *)
Definition wmo_get (wcode : json) : result (string * string) :=
  match wcode with
  | JList _ | JDict _ => Raise TypeError
  | _ => Ok (wmo_find wcode WMO_DESC)
  end.

(** The six reads of the [try] block (lines 82-87), in order. *)
Definition day_fields (data : json) (idx : nat)
    : result (json * json * json * json * json * json) :=
  a <- PyJson.getitem_key data "temperature_2m_min" ;;
  tmin <- PyJson.getitem_index a idx ;;
  a <- PyJson.getitem_key data "temperature_2m_max" ;;
  tmax <- PyJson.getitem_index a idx ;;
  a <- PyJson.getitem_key data "precipitation_probability_max" ;;
  pp <- PyJson.getitem_index a idx ;;
  a <- PyJson.getitem_key data "sunrise" ;;
  x <- PyJson.getitem_index a idx ;;
  sr <- PyJson.slice_last5 x ;;
  a <- PyJson.getitem_key data "sunset" ;;
  x <- PyJson.getitem_index a idx ;;
  ss <- PyJson.slice_last5 x ;;
  a <- PyJson.getitem_key data "weathercode" ;;
  wcode <- PyJson.getitem_index a idx ;;
  Ok (tmin, tmax, pp, sr, ss, wcode).

(** [except (IndexError, KeyError, TypeError)]. *)
Definition caught_by_day (e : exn) : bool :=
  match e with
  | IndexError | KeyError | TypeError => true
  | _ => false
  end.

(** One turn of the loop (lines 81-95): [None] when the turn ends in
    [continue], the appended paragraph otherwise. *)
Definition day_paragraph (data : json) (idx : nat) (label : string)
    : result (option string) :=
  match day_fields data idx with
  | Raise e => if caught_by_day e then Ok None else Raise e
  | Ok (tmin, tmax, pp, sr, ss, wcode) =>
      d <- wmo_get wcode ;;
      let '(desc, emo) := d in
      let fmt := PyJson.format container_repr in
      Ok (Some (nl ++ "*" ++ label ++ "* — " ++ emo ++ " " ++ desc ++ nl
                ++ "Temp: " ++ fmt tmin ++ "°C – " ++ fmt tmax
                ++ "°C • Precip.: " ++ fmt pp ++ "%" ++ nl
                ++ "Amanecer: " ++ fmt sr ++ "  Atardecer: " ++ fmt ss))
  end.

Fixpoint day_loop (data : json) (days : list (nat * string))
    (lines : list string) : result (list string) :=
  match days with
  | [] => Ok lines
  | (idx, label) :: rest =>
      p <- day_paragraph data idx label ;;
      day_loop data rest
        match p with
        | None => lines
        | Some text => (lines ++ [text])%list
        end
  end.

Definition weather_header (city_shown : string) : string :=
  "🌦️ *Clima — " ++ city_shown ++ "*".

Definition nice_weather_text_2days (city_shown : string) (data : json)
    : result string :=
  lines <- day_loop data [(0%nat, "Hoy"); (1%nat, "Mañana")]
             [weather_header city_shown] ;;
  Ok (PyStr.join nl lines).

(** ** The run *)

(** [pp is not None and pp >= 50]: [None] is skipped, a number is compared
    ([True] and [False] count as 1 and 0), anything else cannot be compared
    with an [int]. *)
Definition at_least_50 (pp : json) : result bool :=
  match pp with
  | JNull => Ok false
  | JBool _ => Ok false
  | JInt n => Ok (50 <=? n)
  | JFloat x =>
      Ok match float_compare_int x 50 with
         | Some Eq | Some Gt => true
         | _ => false
         end
  | JStr _ | JList _ | JDict _ => Raise TypeError
  end.

(** The body of the [try] of lines 174-178, up to the decision. *)
Definition rain_check (daily : json) : result bool :=
  a <- PyJson.getitem_key daily "precipitation_probability_max" ;;
  pp_hoy <- PyJson.getitem_index a 0 ;;
  a <- PyJson.getitem_key daily "precipitation_probability_max" ;;
  pp_man <- PyJson.getitem_index a 1 ;;
  today <- at_least_50 pp_hoy ;;
  if today then Ok true else at_least_50 pp_man.

Definition rain_banner : string :=
  "⚠️ *Probabilidad alta de lluvia (≥50%)*. Considerá llevar paraguas."
  ++ nl ++ nl.

(** Lines 174-180: the banner goes in front when the check says so; an
    exception of the check is passed over. *)
Definition with_rain_banner (daily : json) (msg : string) : string :=
  match rain_check daily with
  | Ok true => rain_banner ++ msg
  | Ok false => msg
  | Raise _ => msg
  end.

End Weather.

(** ** The world around a run *)

(** The collaborators of a run: the environment (after [load_env]), the two
    Open-Meteo services, the calendar fetch, the clock and the Telegram bot.
    [bot_send_message chat text] is the outcome of [bot.send_message] when
    the chat already holds the texts [chat]. *)
Record World {F : PyFloat} : Type := mkWorld {
  getenv : string -> option string;
  geocode : string -> result (pyfloat * pyfloat * string);
  fetch_weather : pyfloat -> pyfloat -> string -> result json;
  http_calendar : string -> result (list Event);
  system_clock : Z;
  bot_send_message : list string -> string -> result unit
}.

(** A computation that may raise and may post to the chat: the chat keeps what
    was posted before an exception. *)
Definition Chat (A : Type) : Type := list string -> result A * list string.

Definition chat_bind {A B : Type} (c : Chat A) (k : A -> Chat B) : Chat B :=
  fun chat =>
    match c chat with
    | (Ok a, chat') => k a chat'
    | (Raise e, chat') => (Raise e, chat')
    end.

Definition chat_lift {A : Type} (r : result A) : Chat A :=
  fun chat => (r, chat).

Notation "x <~ c ;; k" := (chat_bind c (fun x => k))
  (at level 61, c at next level, right associativity).

Section Run.
Context {tzdata : TzData} {F : PyFloat}.
Variable container_repr : json -> string.
Variable w : World.

(** [os.getenv(key, default)]. *)
Definition getenv_default (key default : string) : string :=
  match getenv w key with
  | Some v => v
  | None => default
  end.

Definition BOT_TOKEN : option string := getenv w "BOT_TOKEN".
Definition CHAT_ID : option string := getenv w "CHAT_ID".
Definition CITY : string := getenv_default "CITY" "Agua de Oro, Cordoba, Argentina".
Definition TZ_NAME : string := getenv_default "TZ_NAME" "America/Argentina/Cordoba".
Definition LAT : option string := getenv w "LAT".
Definition LON : option string := getenv w "LON".

Definition ICAL_URLS : list string :=
  filter PyStr.truthy
    (map clean_url (PyStr.split comma (getenv_default "ICAL_URLS" ""))).

Definition send_telegram (text : string) : Chat unit :=
  fun chat =>
    if negb (PyStr.truthy_opt BOT_TOKEN && PyStr.truthy_opt CHAT_ID)
    then (Raise (RuntimeError "Faltan BOT_TOKEN o CHAT_ID"), chat)
    else
      match bot_send_message w chat text with
      | Ok _ => (Ok tt, (chat ++ [text])%list)
      | Raise e => (Raise e, chat)
      end.

(** Lines 162-167. *)
Definition coordinates : result (pyfloat * pyfloat * string) :=
  if PyStr.truthy_opt LAT && PyStr.truthy_opt LON then
    lat <- float_of_str (PyStr.or_empty LAT) ;;
    lon <- float_of_str (PyStr.or_empty LON) ;;
    let city_shown := getenv_default "CITY" "" in
    let city_shown :=
      if negb (PyStr.truthy city_shown)
      then float_fixed4 lat ++ "," ++ float_fixed4 lon
      else city_shown in
    Ok (lat, lon, city_shown)
  else geocode w CITY.

(** Lines 162-171: the forecast and the message built from it. *)
Definition assemble : result (json * string) :=
  c <- coordinates ;;
  let '(lat, lon, city_shown) := c in
  daily <- fetch_weather w lat lon TZ_NAME ;;
  agenda <- fetch_ics_events_today (http_calendar w) (system_clock w)
              (map Some ICAL_URLS) TZ_NAME ;;
  weather <- nice_weather_text_2days container_repr city_shown daily ;;
  agenda_text <- format_agenda agenda ;;
  Ok (daily, weather ++ nl ++ nl ++ agenda_text).

Definition run : Chat unit :=
  a <~ chat_lift assemble ;;
  let '(daily, msg) := a in
  _ <~ send_telegram msg ;;
  let msg := with_rain_banner daily msg in
  send_telegram msg.

End Run.

(** ** The environment file *)

Module PyText.

Definition code (c : ascii) : Z := Z.of_nat (nat_of_ascii c).

(** Puts a character in front of the line being read. *)
Definition push (c : ascii) (lines : list string) : list string :=
  match lines with
  | [] => [String c EmptyString]
  | l :: rest => String c l :: rest
  end.

(** The one-byte line boundaries of [str.splitlines]: LF, VT, FF, FS, GS and
    RS.  CR is handled with the LF that may follow it. *)
Definition is_break (c : ascii) : bool :=
  let n := code c in
  ((10 <=? n) && (n <=? 12)) || ((28 <=? n) && (n <=? 30)).

(** The text cut at every line boundary, the piece after the last boundary
    included (it may be empty).  The boundaries of more than one byte are
    CR LF, NEL (C2 85), LS (E2 80 A8) and PS (E2 80 A9). *)
Fixpoint pieces (s : string) : list string :=
  match s with
  | EmptyString => [EmptyString]
  | String c r =>
      if is_break c then EmptyString :: pieces r
      else if code c =? 13 then
        match r with
        | String c2 r2 =>
            if code c2 =? 10 then EmptyString :: pieces r2
            else EmptyString :: pieces r
        | EmptyString => EmptyString :: pieces r
        end
      else if code c =? 194 then
        match r with
        | String c2 r2 =>
            if code c2 =? 133 then EmptyString :: pieces r2
            else push c (pieces r)
        | EmptyString => push c (pieces r)
        end
      else if code c =? 226 then
        match r with
        | String c2 (String c3 r3) =>
            if (code c2 =? 128) && ((code c3 =? 168) || (code c3 =? 169))
            then EmptyString :: pieces r3
            else push c (pieces r)
        | _ => push c (pieces r)
        end
      else push c (pieces r)
  end.

Fixpoint drop_last_empty (l : list string) : list string :=
  match l with
  | [] => []
  | x :: rest =>
      match rest with
      | [] => if PyStr.truthy x then [x] else []
      | _ => x :: drop_last_empty rest
      end
  end.

(** [s.splitlines()]: no line is reported after the last boundary when
    nothing follows it. *)
Definition splitlines (s : string) : list string :=
  drop_last_empty (pieces s).

(** [c in s] for a character. *)
Fixpoint contains (c : ascii) (s : string) : bool :=
  match s with
  | EmptyString => false
  | String c' r => Ascii.eqb c' c || contains c r
  end.

(** [s.startswith(c)] for a character. *)
Definition startswith (c : ascii) (s : string) : bool :=
  match s with
  | EmptyString => false
  | String c' _ => Ascii.eqb c' c
  end.

(** [s.split(sep, 1)] for a string that contains [sep]: what stands before
    the first [sep], and what stands after it. *)
Fixpoint split_once (sep : ascii) (s : string) : string * string :=
  match s with
  | EmptyString => (EmptyString, EmptyString)
  | String c r =>
      if Ascii.eqb c sep then (EmptyString, r)
      else let '(k, v) := split_once sep r in (String c k, v)
  end.

End PyText.

Definition hash_sign : ascii := ascii_of_nat 35.
Definition equals_sign : ascii := ascii_of_nat 61.
Definition nul : ascii := ascii_of_nat 0.

(** [os.environ], as the value each name has. *)
Definition environ : Type := string -> option string.

(** What [os.putenv] refuses: an empty name ([OSError] or [ValueError],
    depending on the Python version) and a name or value with a NUL
    character ([ValueError]). *)
Inductive putenv_error : Type :=
| IllegalName
| EmbeddedNull.

Inductive environ_result : Type :=
| Loaded (env : environ)
| Refused (err : putenv_error).

(** [os.environ.setdefault(k, v)]: a name that is set keeps its value and
    nothing is written; a name that is not set is written with [putenv]. *)
Definition setdefault (env : environ) (k v : string) : environ_result :=
  match env k with
  | Some _ => Loaded env
  | None =>
      if PyText.contains nul k || PyText.contains nul v then Refused EmbeddedNull
      else if negb (PyStr.truthy k) then Refused IllegalName
      else Loaded (fun name => if String.eqb name k then Some v else env name)
  end.

(** One turn of the loop of [load_env] (lines 13-17). *)
Definition load_line (env : environ) (line : string) : environ_result :=
  let line := PyStr.strip line in
  if negb (PyStr.truthy line) || PyText.startswith hash_sign line
     || negb (PyText.contains equals_sign line)
  then Loaded env
  else
    let '(k, v) := PyText.split_once equals_sign line in
    setdefault env (PyStr.strip k) (PyStr.strip v).

Fixpoint load_lines (lines : list string) (env : environ) : environ_result :=
  match lines with
  | [] => Loaded env
  | line :: rest =>
      match load_line env line with
      | Loaded env' => load_lines rest env'
      | Refused err => Refused err
      end
  end.

(** [load_env(path)]: [file] is the text that [read_text] returns, [None]
    when the path does not exist.  A file that cannot be read or decoded is
    outside this model. *)
Definition load_env (file : option string) (env : environ) : environ_result :=
  match file with
  | None => Loaded env
  | Some text => load_lines (PyText.splitlines text) env
  end.

(** ** Geocoding *)

Section Geocode.
Context {F : PyFloat}.

(** [float(n)] for an [int], which raises [OverflowError] when [n] is too
    large. *)
Variable float_of_int : Z -> result pyfloat.

(** What [requests.get], [raise_for_status()] and [r.json()] give for a city:
    the fields of the JSON object of the answer, or the exception raised. *)
Variable geocoding_search : string -> result (list (string * json)).

(** Truthiness of a JSON value. *)
Definition json_truthy (v : json) : bool :=
  match v with
  | JNull => false
  | JBool b => b
  | JInt n => negb (n =? 0)
  | JFloat x =>
      match float_compare_int x 0 with
      | Some Eq => false
      | _ => true
      end
  | JStr s => PyStr.truthy s
  | JList items => match items with [] => false | _ => true end
  | JDict fields => match fields with [] => false | _ => true end
  end.

(** [float(v)]. *)
Definition json_float (v : json) : result pyfloat :=
  match v with
  | JBool b => float_of_int (if b then 1 else 0)
  | JInt n => float_of_int n
  | JFloat x => Ok x
  | JStr s => float_of_str s
  | JNull | JList _ | JDict _ => Raise TypeError
  end.

(** [d.get(k, default)] on the fields of a dict. *)
Definition dict_get (fields : list (string * json)) (k : string)
    (default : json) : json :=
  match PyJson.assoc k fields with
  | Some v => v
  | None => default
  end.

(** Lines 53-56, on the fields of the answer.  [res.get] is reached only
    when [res["latitude"]] was read, that is when [res] is a dict. *)
Definition geocode_answer (city : string) (data : list (string * json))
    : result (pyfloat * pyfloat * json) :=
  if negb (json_truthy (dict_get data "results" JNull))
  then Raise (RuntimeError "No se encontraron coordenadas")
  else
    results <- PyJson.getitem_key (JDict data) "results" ;;
    res <- PyJson.getitem_index results 0 ;;
    latitude <- PyJson.getitem_key res "latitude" ;;
    lat <- json_float latitude ;;
    longitude <- PyJson.getitem_key res "longitude" ;;
    lon <- json_float longitude ;;
    Ok (lat, lon,
        match res with
        | JDict fields => dict_get fields "name" (JStr city)
        | _ => JStr city
        end).

(** [geocode(city)], returning the name as the JSON value it is. *)
Definition geocode_city (city : string) : result (pyfloat * pyfloat * json) :=
  data <- geocoding_search city ;;
  geocode_answer city data.

End Geocode.

(** ** The program *)

Section Main.
Context {tzdata : TzData} {F : PyFloat}.
Variable container_repr : json -> string.
Variable w : World.

(** [str(e)] for the exception a run raised. *)
Variable exn_str : exn -> string.

(** Lines 185-192: a run; if it raises, an attempt to report the exception
    to the chat, whose own failure is passed over; then the exception again. *)
Definition main : Chat unit :=
  fun chat =>
    match run container_repr w chat with
    | (Ok u, chat') => (Ok u, chat')
    | (Raise e, chat') =>
        let '(_, chat'') :=
          send_telegram w ("⚠️ Error en bot: `" ++ exn_str e ++ "`") chat' in
        (Raise e, chat'')
    end.

End Main.

(** ** Notions used to state the properties *)


(** The line of a timed entry around a given duration text. *)
Definition timed_line (s : datetime) (dstr : string) (name loc : option string)
    : string :=
  strftime_HM s ++ " (" ++ dstr ++ ") — *" ++ PyStr.format_opt name ++ "*"
  ++ (if PyStr.truthy_opt loc then " @ " ++ PyStr.format_opt loc else "").

(** The comparison of field tuples, [base_compare], as an order. *)
Definition fields_lt (a b : datetime) : Prop :=
  ordinal a < ordinal b \/
  (ordinal a = ordinal b /\
   (hour a < hour b \/
    (hour a = hour b /\
     (minute a < minute b \/
      (minute a = minute b /\
       (second a < second b \/
        (second a = second b /\ microsecond a < microsecond b))))))).

(** The datetime a timestamp stands for. *)
Definition datetime_of (x : timestamp) : datetime :=
  match x with
  | Arrow wrapped => wrapped
  | Plain d => d
  end.

Section Notions.
Context {tzdata : TzData}.
Variable calendar_events : string -> result (list Event).

(** [x] is the normalized form of the event [e]. *)
Definition normalizes (tzlocal : option tzinfo) (e : Event) (x : entry)
    : Prop :=
  exists b,
    ev_begin e = Some b /\
    to_local_dt tzlocal b = Ok (entry_start x) /\
    to_local_dt tzlocal (end_or_begin e b) = Ok (entry_end x) /\
    x = (entry_start x, entry_end x, ev_name e, ev_all_day e, ev_location e).

(** Both timestamps of [e] convert to the local zone. *)
Definition converts (tzlocal : option tzinfo) (e : Event) : Prop :=
  forall b, ev_begin e = Some b ->
    is_ok (to_local_dt tzlocal b) = true /\
    is_ok (to_local_dt tzlocal (end_or_begin e b)) = true.

(** What one calendar adds to the entries: the normalized forms of its events
    that pass the window test. *)
Definition kept_from (tz : option tzinfo) (start end_ : datetime)
    (cal : list Event) (x : entry) : Prop :=
  exists e, In e cal /\ normalizes tz e x /\
    intersects start end_ (entry_start x) (entry_end x) = Ok true.

(** A calendar the loop over the URLs really reads: the URL, once cleaned, is
    not empty and its fetch and parse succeed. *)
Definition fetched (urls : list (option string)) (cal : list Event) : Prop :=
  exists raw,
    In raw urls /\
    PyStr.truthy (clean_url (PyStr.or_empty raw)) = true /\
    calendar_events (clean_url (PyStr.or_empty raw)) = Ok cal.

(** [x] is the normalized form of an event of a fetched calendar. *)
Definition normalized_from (tzlocal : option tzinfo)
    (urls : list (option string)) (x : entry) : Prop :=
  exists cal e, fetched urls cal /\ In e cal /\ normalizes tzlocal e x.

(** Every timestamp of every fetched event converts to the local zone. *)
Definition all_convert (tzlocal : option tzinfo) (urls : list (option string))
    : Prop :=
  forall cal e, fetched urls cal -> In e cal -> converts tzlocal e.

(** No event of a fetched calendar has a begin. *)
Definition none_begins (urls : list (option string)) : Prop :=
  forall cal e, fetched urls cal -> In e cal -> ev_begin e = None.

(** The conversion of the begin or of the end of a fetched event raises
    [err]. *)
Definition conversion_raises (tzlocal : option tzinfo)
    (urls : list (option string)) (err : exn) : Prop :=
  exists cal e b,
    fetched urls cal /\ In e cal /\ ev_begin e = Some b /\
    (to_local_dt tzlocal b = Raise err \/
     to_local_dt tzlocal (end_or_begin e b) = Raise err).

(** A fetched event has a begin, and its begin and its end both convert. *)
Definition some_event_converts (tzlocal : option tzinfo)
    (urls : list (option string)) : Prop :=
  exists cal e b,
    fetched urls cal /\ In e cal /\ ev_begin e = Some b /\
    is_ok (to_local_dt tzlocal b) = true /\
    is_ok (to_local_dt tzlocal (end_or_begin e b)) = true.

End Notions.

Section WeatherNotions.
Context {F : PyFloat}.

(** A precipitation probability that is present and at least 50. *)
Definition is_high (pp : json) : Prop :=
  match pp with
  | JInt n => 50 <= n
  | JFloat x =>
      float_compare_int x 50 = Some Eq \/ float_compare_int x 50 = Some Gt
  | _ => False
  end.

(** A value on which [pp is not None and pp >= 50] is evaluated without an
    exception: [None], which is not compared, and the numbers. *)
Definition comparable (pp : json) : Prop :=
  match pp with
  | JNull | JBool _ | JInt _ | JFloat _ => True
  | JStr _ | JList _ | JDict _ => False
  end.

(** The forecast holds a list of probabilities with the two given ones in
    front. *)
Definition probabilities (daily pp_hoy pp_man : json) : Prop :=
  exists fields items,
    daily = JDict fields /\
    PyJson.assoc "precipitation_probability_max" fields = Some (JList items) /\
    nth_error items 0 = Some pp_hoy /\ nth_error items 1 = Some pp_man.

(** What makes the rain banner appear: both probabilities can be read, and
    the one of today is high, or it can be compared and the one of tomorrow
    is high. *)
Definition rain_expected (daily : json) : Prop :=
  exists pp_hoy pp_man,
    probabilities daily pp_hoy pp_man /\
    (is_high pp_hoy \/ (comparable pp_hoy /\ is_high pp_man)).

(** A value that can be hashed, hence looked up in [WMO_DESC]. *)
Definition hashable (v : json) : Prop :=
  match v with
  | JList _ | JDict _ => False
  | _ => True
  end.

Definition weather_code (f : json * json * json * json * json * json) : json :=
  let '(_, _, _, _, _, wcode) := f in wcode.

(** A computation whose exceptions are all among the three that the loop of
    the weather text catches. *)
Definition raises_caught {A : Type} (r : result A) : Prop :=
  forall e, r = Raise e -> caught_by_day e = true.

End WeatherNotions.

(** ** Further notions *)

(** [a] starts no later than [b], on the fields of the two starts. *)
Definition starts_no_later (a b : entry) : Prop :=
  ~ fields_lt (entry_start b) (entry_start a).

(** Whether the start of [x] equals [k] field by field. *)
Definition same_start (k : datetime) (x : entry) : bool :=
  match base_compare (entry_start x) k with
  | Eq => true
  | _ => false
  end.

Definition agenda_header : string := "🗓️ *Agenda de hoy*".

(** The time fields of a datetime are those of a time of day. *)
Definition valid_time (d : datetime) : Prop :=
  0 <= hour d < 24 /\ 0 <= minute d < 60 /\ 0 <= second d < 60 /\
  0 <= microsecond d < US_PER_SECOND.

(** The assignment a line of the environment file makes, if it makes one. *)
Definition assignment (line : string) : option (string * string) :=
  let line := PyStr.strip line in
  if negb (PyStr.truthy line) || PyText.startswith hash_sign line
     || negb (PyText.contains equals_sign line)
  then None
  else
    let '(k, v) := PyText.split_once equals_sign line in
    Some (PyStr.strip k, PyStr.strip v).

(** The value of the first line that assigns [name]. *)
Fixpoint first_assignment (name : string) (lines : list string) : option string :=
  match lines with
  | [] => None
  | line :: rest =>
      match assignment line with
      | Some (k, v) =>
          if String.eqb name k then Some v else first_assignment name rest
      | None => first_assignment name rest
      end
  end.

Definition first_char (s : string) : option ascii :=
  match s with
  | EmptyString => None
  | String c _ => Some c
  end.

Fixpoint last_char (s : string) : option ascii :=
  match s with
  | EmptyString => None
  | String c r =>
      match last_char r with
      | None => Some c
      | Some c' => Some c'
      end
  end.

Fixpoint all_chars (p : ascii -> bool) (s : string) : bool :=
  match s with
  | EmptyString => true
  | String c r => p c && all_chars p r
  end.

(** Neither the first nor the last byte of [s] satisfies [p]; [s] is not
    empty. *)
Definition bare_for (p : ascii -> bool) (s : string) : Prop :=
  (exists c, first_char s = Some c /\ p c = false) /\
  (exists c, last_char s = Some c /\ p c = false).

(** The bytes of [s] in reverse order. *)
Fixpoint reverse (s : string) : string :=
  match s with
  | EmptyString => EmptyString
  | String c r => reverse r ++ String c EmptyString
  end.

(** [w] and [s] differ at a byte that both have, read from the front.  For
    a character [w] and a text [s] in UTF-8 that is not empty this says that
    [s] does not begin with [w]. *)
Fixpoint apart (w s : string) : bool :=
  match w, s with
  | String a w', String b s' => if Ascii.eqb a b then apart w' s' else true
  | _, _ => false
  end.

(** The characters that the cleaning of a URL removes at its ends: the
    whitespace characters and the two quotes. *)
Definition padding : list string :=
  (PyStr.whitespace ++ [String dquote EmptyString; String squote EmptyString])%list.

(** [u] neither begins nor ends with a character that the cleaning removes
    (and is not empty): read from the front, and from the back, it differs
    from each of them. *)
Definition bare (u : string) : Prop :=
  forallb (fun w => apart w u && apart (reverse w) (reverse u)) padding = true.

(** [s] is made of whitespace characters only. *)
Definition blank (s : string) : Prop :=
  exists ws, forallb PyStr.is_space ws = true /\ s = String.concat "" ws.

(** A URL as it can be written in a list of URLs: between single quotes,
    these between double quotes, these between whitespace, each of the three
    possibly absent. *)
Definition written_as (u raw : string) : Prop :=
  exists ws1 dq1 sq1 sq2 dq2 ws2,
    blank ws1 /\ blank ws2 /\
    all_chars (Ascii.eqb dquote) dq1 = true /\
    all_chars (Ascii.eqb dquote) dq2 = true /\
    all_chars (Ascii.eqb squote) sq1 = true /\
    all_chars (Ascii.eqb squote) sq2 = true /\
    raw = ws1 ++ dq1 ++ sq1 ++ u ++ sq2 ++ dq2 ++ ws2.

Section RunNotions.
Context {F : PyFloat}.

(** The world with another geocoder. *)
Definition with_geocode (w : World)
    (g : string -> result (pyfloat * pyfloat * string)) : World :=
  {| getenv := getenv w;
     geocode := g;
     fetch_weather := fetch_weather w;
     http_calendar := http_calendar w;
     system_clock := system_clock w;
     bot_send_message := bot_send_message w |}.

(** The text that reports an exception to the chat (line 189). *)
Definition error_report (text : string) : string :=
  "⚠️ Error en bot: `" ++ text ++ "`".

(** BOT_TOKEN and CHAT_ID are both set and not empty. *)
Definition has_credentials (w : World) : bool :=
  PyStr.truthy_opt (BOT_TOKEN w) && PyStr.truthy_opt (CHAT_ID w).

End RunNotions.

(** ** Concrete inputs *)

Module Sample.

(** A tz database in which every zone is three hours behind UTC, the offset
    of America/Argentina/Cordoba since 2009, on a system set to such a zone.
    The database knows every name but [unknown]. *)
Definition minus3 : Z := - (3 * US_PER_HOUR).

Definition unknown : string := "Cordoba".

Definition tzdata : TzData :=
  {| gettz := fun name =>
       if String.eqb name unknown then None else Some (tzfile name);
     zone_utcoffset := fun _ _ _ => minus3;
     zone_fromutc := fun _ _ => (minus3, false);
     system_utcoffset := fun _ => minus3;
     system_fromutc := fun _ => (minus3, false) |}.

(** The floats of whole value, enough for the inputs below. *)
Definition whole_floats : PyFloat :=
  {| pyfloat := Z;
     float_of_str := fun s =>
       match s with
       | EmptyString => Raise ValueError
       | _ => match NilZero.int_of_string s with
              | Some i => Ok (Z.of_int i)
              | None => Raise ValueError
              end
       end;
     float_str := fun z => PyStr.of_int z ++ ".0";
     float_fixed4 := fun z => PyStr.of_int z ++ ".0000";
     float_compare_int := fun z k => Some (z ?= k) |}.

Definition no_containers : @json whole_floats -> string := fun _ => "".

Definition whole (z : Z) : @json whole_floats := @JFloat whole_floats z.

(** 2024-05-20 is day 739026. *)
Definition may20 : Z := 739026.

Definition utc (day h m : Z) : datetime :=
  {| ordinal := day; hour := h; minute := m; second := 0; microsecond := 0;
     tzinfo_of := Some tzutc; fold := false |}.

Definition local (day h m : Z) : datetime :=
  {| ordinal := day; hour := h; minute := m; second := 0; microsecond := 0;
     tzinfo_of := Some (tzfile "America/Argentina/Cordoba"); fold := false |}.

Definition naive (day h m : Z) : datetime :=
  {| ordinal := day; hour := h; minute := m; second := 0; microsecond := 0;
     tzinfo_of := None; fold := false |}.

(** 15:30 UTC on 2024-05-20, that is 12:30 in Cordoba. *)
Definition clock : Z := wall (utc may20 15 30).

Definition timed (b e : datetime) (name : string) (loc : option string) : Event :=
  {| ev_begin := Some (Arrow b); ev_end := Some (Arrow e);
     ev_name := Some name; ev_all_day := false; ev_location := loc |}.

(** 09:00 to 10:30 local. *)
Definition meeting : Event :=
  timed (utc may20 12 0) (utc may20 13 30) "Reunion" (Some "Oficina").

(** Ends at the local midnight that starts the day. *)
Definition ends_at_start : Event :=
  timed (utc may20 2 0) (utc may20 3 0) "Anoche" None.

(** Starts at the local midnight that ends the day. *)
Definition starts_at_end : Event :=
  timed (utc (may20 + 1) 3 0) (utc (may20 + 1) 4 0) "Manana" None.

(** 23:00 local to 01:00 local of the next day. *)
Definition over_midnight : Event :=
  timed (utc (may20 + 1) 2 0) (utc (may20 + 1) 4 0) "Cena" None.

Definition no_begin : Event :=
  {| ev_begin := None; ev_end := Some (Arrow (utc may20 13 0));
     ev_name := Some "Sin comienzo"; ev_all_day := false; ev_location := None |}.

(** No end, and a naive begin: 11:00 read as UTC, 08:00 local. *)
Definition instant : Event :=
  {| ev_begin := Some (Plain (naive may20 11 0)); ev_end := None;
     ev_name := Some "Aviso"; ev_all_day := false; ev_location := None |}.

(** Begins at 12:00 local and ends at 10:30 local, ninety minutes earlier. *)
Definition backwards : Event :=
  timed (utc may20 15 0) (utc may20 13 30) "Viaje" None.

(** Begins with the first instant a datetime can hold, 0001-01-01 00:00 UTC. *)
Definition ancient : Event :=
  timed (utc 1 0 0) (utc may20 13 0) "Origen" None.

(** The last microsecond a datetime can hold, on the local clock. *)
Definition last_instant : datetime :=
  {| ordinal := MAXORDINAL; hour := 23; minute := 59; second := 59;
     microsecond := 999999;
     tzinfo_of := Some (tzfile "America/Argentina/Cordoba"); fold := false |}.

(** From the local midnight that starts the day to the last microsecond. *)
Definition endless : Event :=
  timed (utc may20 3 0) last_instant "Era" None.

Definition calendar_events (url : string) : result (list Event) :=
  if String.eqb url "https://example.org/a.ics" then
    Ok [meeting; ends_at_start; starts_at_end; over_midnight; no_begin; instant]
  else if String.eqb url "https://example.org/b.ics" then Ok [backwards]
  else if String.eqb url "https://example.org/old.ics" then Ok [meeting; ancient]
  else if String.eqb url "https://example.org/era.ics" then Ok [endless]
  else Raise RequestException.

Definition cordoba : string := "America/Argentina/Cordoba".

(** The URLs as a caller may pass them: one padded and quoted, one that
    cannot be fetched, one missing. *)
Definition urls : list (option string) :=
  [Some " 'https://example.org/a.ics' "; Some "https://example.org/down.ics";
   None].

(** The window of 2024-05-20 in Cordoba. *)
Definition window_start : datetime := local may20 0 0.
Definition window_end : datetime := local (may20 + 1) 0 0.

Definition meeting_entry : entry :=
  (local may20 9 0, local may20 10 30, Some "Reunion", false, Some "Oficina").

Definition instant_entry : entry :=
  (local may20 8 0, local may20 8 0, Some "Aviso", false, None).

Definition over_midnight_entry : entry :=
  (local may20 23 0, local (may20 + 1) 1 0, Some "Cena", false, None).


Definition endless_entry : entry :=
  (local may20 0 0, last_instant, Some "Era", false, None).

(** The agenda of 2024-05-20 from [urls]. *)
Definition agenda : list entry :=
  [instant_entry; meeting_entry; over_midnight_entry].

Definition daily : @json whole_floats :=
  JDict [ ("temperature_2m_max", JList [whole 24; whole 19]);
          ("temperature_2m_min", JList [whole 11; whole 9]);
          ("precipitation_probability_max", JList [JInt 10; JInt 20]);
          ("sunrise", JList [JStr "2024-05-20T08:01"; JStr "2024-05-21T08:02"]);
          ("sunset", JList [JStr "2024-05-20T18:27"; JStr "2024-05-21T18:26"]);
          ("weathercode", JList [JInt 2; JInt 61]) ].

(** The same forecast with arrays in the place of the weather codes. *)
Definition daily_with_array_codes : @json whole_floats :=
  JDict [ ("temperature_2m_max", JList [whole 24; whole 19]);
          ("temperature_2m_min", JList [whole 11; whole 9]);
          ("precipitation_probability_max", JList [JInt 10; JInt 20]);
          ("sunrise", JList [JStr "2024-05-20T08:01"; JStr "2024-05-21T08:02"]);
          ("sunset", JList [JStr "2024-05-20T18:27"; JStr "2024-05-21T18:26"]);
          ("weathercode", JList [JList [JInt 2]; JList [JInt 61]]) ].

(** Rain likely today, and no value for tomorrow. *)
Definition daily_short : @json whole_floats :=
  JDict [ ("precipitation_probability_max", JList [JInt 80]) ].

Definition daily_rainy : @json whole_floats :=
  JDict [ ("precipitation_probability_max", JList [JNull; JInt 70]) ].

(** The probability of today as a string. *)
Definition daily_text : @json whole_floats :=
  JDict [ ("precipitation_probability_max", JList [JStr "80"; JInt 90]) ].

Definition env (key : string) : option string :=
  if String.eqb key "BOT_TOKEN" then Some "123:abc"
  else if String.eqb key "CHAT_ID" then Some "42"
  else if String.eqb key "CITY" then Some "Agua de Oro"
  else if String.eqb key "LAT" then Some "-31"
  else if String.eqb key "LON" then Some "-64"
  else if String.eqb key "ICAL_URLS" then
    Some "https://example.org/a.ics, https://example.org/down.ics"
  else None.

Definition world : @World whole_floats :=
  {| getenv := env;
     geocode := fun _ => Raise RequestException;
     fetch_weather := fun _ _ _ => Ok daily;
     http_calendar := calendar_events;
     system_clock := clock;
     bot_send_message := fun _ _ => Ok tt |}.

(** The message of a run in [world]. *)
Definition message : string :=
  PyStr.join nl
    [ "🌦️ *Clima — Agua de Oro*"; "";
      "*Hoy* — ⛅ Parcialmente nublado";
      "Temp: 11.0°C – 24.0°C • Precip.: 10%";
      "Amanecer: 08:01  Atardecer: 18:27"; "";
      "*Mañana* — 🌧️ Lluvia ligera";
      "Temp: 9.0°C – 19.0°C • Precip.: 20%";
      "Amanecer: 08:02  Atardecer: 18:26"; "";
      "🗓️ *Agenda de hoy*";
      "08:00 (0m) — *Aviso*";
      "09:00 (1h 30m) — *Reunion* @ Oficina";
      "23:00 (2h 0m) — *Cena*"; "" ].

End Sample.

(** ** More concrete inputs *)

Module Demo.

(** A calendar that yields two events beginning at 10:00 local, then one
    beginning at 07:00. *)
Definition primero : Event :=
  Sample.timed (Sample.utc Sample.may20 13 0) (Sample.utc Sample.may20 14 0)
    "Primero" None.

Definition segundo : Event :=
  Sample.timed (Sample.utc Sample.may20 13 0) (Sample.utc Sample.may20 13 30)
    "Segundo" None.

Definition temprano : Event :=
  Sample.timed (Sample.utc Sample.may20 10 0) (Sample.utc Sample.may20 11 0)
    "Temprano" None.

Definition calendar_events (url : string) : result (list Event) :=
  if String.eqb url "https://example.org/c.ics"
  then Ok [primero; segundo; temprano]
  else Sample.calendar_events url.

Definition urls : list (option string) := [Some "https://example.org/c.ics"].

Definition primero_entry : entry :=
  (Sample.local Sample.may20 10 0, Sample.local Sample.may20 11 0,
   Some "Primero", false, None).

Definition segundo_entry : entry :=
  (Sample.local Sample.may20 10 0, Sample.local Sample.may20 10 30,
   Some "Segundo", false, None).

Definition temprano_entry : entry :=
  (Sample.local Sample.may20 7 0, Sample.local Sample.may20 8 0,
   Some "Temprano", false, None).

(** The entries of [urls] as the loops meet them, and their agenda. *)
Definition events : list entry := [primero_entry; segundo_entry; temprano_entry].
Definition agenda : list entry := [temprano_entry; primero_entry; segundo_entry].

(** The agenda of [Sample.urls] followed by [urls]. *)
Definition joined_agenda : list entry :=
  [temprano_entry; Sample.instant_entry; Sample.meeting_entry; primero_entry;
   segundo_entry; Sample.over_midnight_entry].

(** A bot that accepts one text and then fails. *)
Definition flaky_world : @World Sample.whole_floats :=
  {| getenv := Sample.env;
     geocode := fun _ => Raise RequestException;
     fetch_weather := fun _ _ _ => Ok Sample.daily;
     http_calendar := Sample.calendar_events;
     system_clock := Sample.clock;
     bot_send_message := fun chat _ =>
       match chat with
       | [] => Ok tt
       | _ => Raise TelegramError
       end |}.

(** A whole number as a float. *)
Definition coord (z : Z) : @pyfloat Sample.whole_floats := z.

(** A world without BOT_TOKEN and without coordinates. *)
Definition anonymous_env (key : string) : option string :=
  if String.eqb key "CHAT_ID" then Some "42" else None.

Definition anonymous_world : @World Sample.whole_floats :=
  {| getenv := anonymous_env;
     geocode := fun _ => Ok (coord (-31), coord (-64), "Agua de Oro");
     fetch_weather := fun _ _ _ => Ok Sample.daily;
     http_calendar := Sample.calendar_events;
     system_clock := Sample.clock;
     bot_send_message := fun _ _ => Ok tt |}.

Definition exn_text (e : exn) : string :=
  match e with
  | RuntimeError msg => msg
  | TelegramError => "Timed out"
  | _ => ""
  end.

(** The no-break space, U+00A0. *)
Definition nbsp : string := PyStr.utf8 [194; 160]%nat.

(** An environment file and the environment it is loaded into.  The first
    value of CITY stands between no-break spaces, the line that sets LON
    begins with one, and the line that would set LAT is a comment behind
    one. *)
Definition env_file : string :=
  "# claves" ++ nl ++ "BOT_TOKEN = 123:abc " ++ nl ++ nl
  ++ "CITY=" ++ nbsp ++ "Villa" ++ nbsp ++ nl
  ++ nbsp ++ "LON = -64" ++ nl
  ++ nbsp ++ "# LAT=1" ++ nl
  ++ "sin igual" ++ nl ++ "CITY=Otra" ++ nl ++ "TZ_NAME=UTC".

Definition environment : environ :=
  fun name =>
    if String.eqb name "TZ_NAME" then Some "America/Argentina/Cordoba" else None.

Definition loaded_environment : environ :=
  match load_env (Some env_file) environment with
  | Loaded env => env
  | Refused _ => environment
  end.

(** An answer of the geocoding service with two results. *)
Definition first_result : list (string * @json Sample.whole_floats) :=
  [ ("name", JStr "Agua de Oro"); ("latitude", Sample.whole (-31));
    ("longitude", Sample.whole (-64)) ].

Definition geocoding_answer : list (string * @json Sample.whole_floats) :=
  [ ("results",
     JList [ JDict first_result;
             JDict [("name", JStr "Agua de Oro, San Luis")] ]) ].

Definition float_of_int (z : Z) : result (@pyfloat Sample.whole_floats) := Ok z.

(** The fields of today in [Sample.daily_with_array_codes]. *)
Definition today_with_array_code
    : @json Sample.whole_floats * @json Sample.whole_floats
      * @json Sample.whole_floats * @json Sample.whole_floats
      * @json Sample.whole_floats * @json Sample.whole_floats :=
  (Sample.whole 11, Sample.whole 24, JInt 10, JStr "08:01", JStr "18:27",
   JList [JInt 2]).

End Demo.

(** * Properties *)

(** ** Results *)

Lemma bind_ok {A B : Type} (r : result A) (k : A -> result B) (b : B) :
  bind r k = Ok b -> exists a, r = Ok a /\ k a = Ok b.
Proof.
  destruct r as [a | e]; simpl; intros H.
  - exists a; split; [reflexivity | exact H].
  - discriminate H.
Qed.

Lemma is_ok_true {A : Type} (r : result A) :
  is_ok r = true -> exists a, r = Ok a.
Proof.
  destruct r as [a | e]; simpl; intros H.
  - exists a; reflexivity.
  - discriminate H.
Qed.

(** What holds of the value a computation returns, if it returns one, holds
    of any value that it is known to return. *)
Lemma returned_value {A : Type} (P : A -> Prop) (r : result A) (a : A) :
  r = Ok a ->
  match r with
  | Ok a' => P a'
  | Raise _ => True
  end ->
  P a.
Proof. intros ->. intros H. exact H. Qed.

(** Splits an equation [bind r k = Ok b] found among the hypotheses. *)
Ltac bind_inv H :=
  let a := fresh "a" in
  let Ha := fresh "Ha" in
  apply bind_ok in H; destruct H as (a & Ha & H).

(** ** Datetimes *)

Section DatetimeFacts.
Context {tzdata : TzData}.

Lemma tzinfo_is_refl (tz : tzinfo) : tzinfo_is tz tz = true.
Proof.
  destruct tz; simpl.
  - reflexivity.
  - apply Z.eqb_refl.
  - apply String.eqb_refl.
  - apply Z.eqb_refl.
Qed.

Lemma tzinfo_is_eq (a b : tzinfo) : tzinfo_is a b = true -> a = b.
Proof.
  destruct a, b; simpl; intros H; try discriminate H.
  - reflexivity.
  - apply Z.eqb_eq in H. now subst.
  - apply String.eqb_eq in H. now subst.
  - apply Z.eqb_eq in H. now subst.
Qed.

Lemma wall_of_fields (w : Z) :
  (((w / US_PER_DAY * 24 + (w / US_PER_HOUR) mod 24) * 60
    + (w / US_PER_MINUTE) mod 60) * 60 + (w / US_PER_SECOND) mod 60)
  * US_PER_SECOND + w mod US_PER_SECOND = w.
Proof.
  unfold US_PER_DAY, US_PER_HOUR, US_PER_MINUTE.
  set (S := US_PER_SECOND).
  assert (HS : 0 < S) by (unfold S, US_PER_SECOND; lia).
  replace (w / (24 * (60 * (60 * S)))) with (w / S / 60 / 60 / 24).
  2:{ rewrite !Z.div_div by lia. f_equal; lia. }
  replace (w / (60 * (60 * S))) with (w / S / 60 / 60).
  2:{ rewrite !Z.div_div by lia. f_equal; lia. }
  replace (w / (60 * S)) with (w / S / 60).
  2:{ rewrite !Z.div_div by lia. f_equal; lia. }
  pose proof (Z.div_mod w S ltac:(lia)) as H1.
  pose proof (Z.div_mod (w / S) 60 ltac:(lia)) as H2.
  pose proof (Z.div_mod (w / S / 60) 60 ltac:(lia)) as H3.
  pose proof (Z.div_mod (w / S / 60 / 60) 24 ltac:(lia)) as H4.
  lia.
Qed.

Lemma of_wall_ok (w : Z) (tz : option tzinfo) (fo : bool) (d : datetime) :
  of_wall w tz fo = Ok d ->
  wall d = w /\ tzinfo_of d = tz /\ fold d = fo /\
  1 <= ordinal d <= MAXORDINAL /\ ordinal d = w / US_PER_DAY.
Proof.
  unfold of_wall.
  destruct ((1 <=? w / US_PER_DAY) && (w / US_PER_DAY <=? MAXORDINAL)) eqn:R;
    intros H; inversion H; subst; clear H.
  apply andb_true_iff in R. destruct R as [R1 R2].
  apply Z.leb_le in R1. apply Z.leb_le in R2.
  unfold wall; simpl.
  repeat split; try assumption.
  apply wall_of_fields.
Qed.

Lemma of_wall_in_range (w : Z) (tz : option tzinfo) (fo : bool) :
  1 <= w / US_PER_DAY <= MAXORDINAL -> exists d, of_wall w tz fo = Ok d.
Proof.
  intros [H1 H2]. unfold of_wall.
  apply Z.leb_le in H1. apply Z.leb_le in H2.
  rewrite H1, H2. simpl. eexists; reflexivity.
Qed.

(** Changing the tzinfo of a datetime built from a wall clock is building it
    with the other tzinfo. *)
Lemma of_wall_retag {A : Type} (w : Z) (tz tz' : option tzinfo) (fo : bool)
    (k : datetime -> result A) :
  (sh <- of_wall w tz fo ;; k (replace_tzinfo sh tz'))
  = (u <- of_wall w tz' fo ;; k u).
Proof.
  unfold of_wall.
  destruct ((1 <=? w / US_PER_DAY) && (w / US_PER_DAY <=? MAXORDINAL));
    reflexivity.
Qed.

Lemma add_ok (d r : datetime) (delta : timedelta) :
  add d delta = Ok r ->
  wall r = wall d + delta /\ tzinfo_of r = tzinfo_of d /\
  1 <= ordinal r <= MAXORDINAL.
Proof.
  unfold add. intros H. apply of_wall_ok in H. tauto.
Qed.

Lemma fromutc_ok (tz : tzinfo) (utc r : datetime) :
  tzinfo_of utc = Some tz -> 1 <= ordinal utc <= MAXORDINAL ->
  fromutc tz utc = Ok r ->
  tzinfo_of r = Some tz /\ 1 <= ordinal r <= MAXORDINAL.
Proof.
  intros Htz Hrange. destruct tz as [| o | n | o]; simpl; intros H.
  - inversion H; subst. tauto.
  - apply add_ok in H. destruct H as (_ & H & H'). rewrite H. tauto.
  - destruct (zone_fromutc n (wall utc)) as [o fo].
    apply of_wall_ok in H. tauto.
  - apply add_ok in H. destruct H as (_ & H & H'). rewrite H. tauto.
Qed.

Lemma now_ok (tz : option tzinfo) (clock : Z) (n : datetime) :
  now tz clock = Ok n ->
  tzinfo_of n = tz /\ 1 <= ordinal n <= MAXORDINAL.
Proof.
  unfold now. destruct tz as [tz |]; intros H.
  - bind_inv H.
    apply of_wall_ok in Ha. destruct Ha as (_ & Htz & _ & Hr & _).
    eapply fromutc_ok; eauto.
  - destruct (system_fromutc clock) as [o fo].
    apply of_wall_ok in H. tauto.
Qed.

Lemma astimezone_tz (d r : datetime) (tz : tzinfo) :
  astimezone d (Some tz) = Ok r -> tzinfo_of r = Some tz.
Proof.
  unfold astimezone.
  destruct (tzinfo_of d) as [mytz |] eqn:E.
  - destruct (tzinfo_is tz mytz) eqn:I; intros H.
    + inversion H; subst. apply tzinfo_is_eq in I. now subst.
    + bind_inv H. apply add_ok in Ha. destruct Ha as (_ & _ & Hr).
      eapply fromutc_ok in H; [tauto | reflexivity | exact Hr].
  - intros H. bind_inv H. apply add_ok in Ha. destruct Ha as (_ & _ & Hr).
    eapply fromutc_ok in H; [tauto | reflexivity | exact Hr].
Qed.

(** Without a zone the result carries a fixed offset of the system's zone:
    it is aware. *)
Lemma astimezone_system (d r : datetime) :
  astimezone d None = Ok r -> exists o, tzinfo_of r = Some (timezone o).
Proof.
  unfold astimezone. intros H. bind_inv H.
  apply add_ok in Ha. destruct Ha as (_ & _ & Hr).
  eexists. eapply fromutc_ok in H; [apply H | reflexivity | exact Hr].
Qed.

Lemma of_wall_raises (w : Z) (tz : option tzinfo) (fo : bool) (e : exn) :
  of_wall w tz fo = Raise e -> e = OverflowError.
Proof.
  unfold of_wall.
  destruct ((1 <=? w / US_PER_DAY) && (w / US_PER_DAY <=? MAXORDINAL));
    intros H; inversion H; reflexivity.
Qed.

Lemma fromutc_raises (tz : tzinfo) (utc : datetime) (e : exn) :
  fromutc tz utc = Raise e -> e = OverflowError.
Proof.
  destruct tz as [| o | n | o]; simpl; intros H.
  - discriminate H.
  - eapply of_wall_raises. exact H.
  - destruct (zone_fromutc n (wall utc)) as [o fo].
    eapply of_wall_raises. exact H.
  - eapply of_wall_raises. exact H.
Qed.

(** A conversion fails in one way: the result is not a date that a datetime
    can hold. *)
Lemma astimezone_raises (d : datetime) (tz : option tzinfo) (e : exn) :
  astimezone d tz = Raise e -> e = OverflowError.
Proof.
  unfold astimezone.
  match goal with
  | |- (if ?c then _ else _) = _ -> _ =>
      destruct c; [intros H; discriminate H |]
  end.
  match goal with
  | |- bind ?r _ = _ -> _ => destruct r as [shifted | e0] eqn:A
  end; cbn [bind]; intros H.
  - destruct tz as [tz |]; eapply fromutc_raises; exact H.
  - inversion H; subst e0. eapply of_wall_raises. exact A.
Qed.

Lemma same_tz_refl (tz : option tzinfo) : same_tz tz tz = true.
Proof.
  destruct tz as [tz |]; simpl; [apply tzinfo_is_refl | reflexivity].
Qed.

(** Two datetimes that carry the same tzinfo are compared on their fields,
    and the comparison cannot raise. *)
Lemma cmp_same_tz (a b : datetime) :
  tzinfo_of a = tzinfo_of b -> cmp a b = Ok (base_compare a b).
Proof.
  intros H. unfold cmp. rewrite H, same_tz_refl. reflexivity.
Qed.

Lemma sub_same_tz (a b : datetime) :
  tzinfo_of a = tzinfo_of b -> sub a b = Ok (wall a - wall b).
Proof.
  intros H. unfold sub. rewrite H, same_tz_refl. reflexivity.
Qed.

Lemma base_compare_lt (a b : datetime) :
  base_compare a b = Lt <-> fields_lt a b.
Proof.
  unfold base_compare, fields_lt, lex.
  destruct (Z.compare_spec (ordinal a) (ordinal b));
    destruct (Z.compare_spec (hour a) (hour b));
    destruct (Z.compare_spec (minute a) (minute b));
    destruct (Z.compare_spec (second a) (second b));
    destruct (Z.compare_spec (microsecond a) (microsecond b));
    split; intros; try discriminate; try reflexivity; lia.
Qed.

Lemma base_compare_gt (a b : datetime) :
  base_compare a b = Gt <-> fields_lt b a.
Proof.
  unfold base_compare, fields_lt, lex.
  destruct (Z.compare_spec (ordinal a) (ordinal b));
    destruct (Z.compare_spec (hour a) (hour b));
    destruct (Z.compare_spec (minute a) (minute b));
    destruct (Z.compare_spec (second a) (second b));
    destruct (Z.compare_spec (microsecond a) (microsecond b));
    split; intros; try discriminate; try reflexivity; lia.
Qed.

Lemma fields_lt_trans (a b c : datetime) :
  fields_lt a b -> fields_lt b c -> fields_lt a c.
Proof. unfold fields_lt. lia. Qed.

(** An aware datetime cannot be compared with a naive one. *)
Lemma cmp_aware_naive (a b : datetime) (tz : tzinfo) :
  tzinfo_of a = Some tz -> tzinfo_of b = None -> cmp a b = Raise TypeError.
Proof.
  intros Ha Hb. unfold cmp, utcoffset. rewrite Ha, Hb. reflexivity.
Qed.

End DatetimeFacts.

(** ** The agenda *)

Section AgendaFacts.
Context {tzdata : TzData}.
Variable calendar_events : string -> result (list Event).
Variable clock : Z.

Lemma to_local_dt_tz (tz : tzinfo) (x : timestamp) (r : datetime) :
  to_local_dt (Some tz) x = Ok r -> tzinfo_of r = Some tz.
Proof. unfold to_local_dt. apply astimezone_tz. Qed.

Lemma to_local_dt_system (x : timestamp) (r : datetime) :
  to_local_dt None x = Ok r -> exists o, tzinfo_of r = Some (timezone o).
Proof. unfold to_local_dt. apply astimezone_system. Qed.

Lemma to_local_dt_raises (tz : option tzinfo) (x : timestamp) (e : exn) :
  to_local_dt tz x = Raise e -> e = OverflowError.
Proof. unfold to_local_dt. apply astimezone_raises. Qed.

Lemma today_window_ok (tz : option tzinfo) (start end_ : datetime) :
  today_window clock tz = Ok (start, end_) ->
  tzinfo_of start = tz /\ tzinfo_of end_ = tz /\
  hour start = 0 /\ minute start = 0 /\ second start = 0 /\
  microsecond start = 0 /\
  wall end_ = wall start + timedelta_days 1 /\ fields_lt start end_.
Proof.
  unfold today_window. intros H. bind_inv H. bind_inv H.
  inversion H; subst; clear H.
  apply now_ok in Ha. destruct Ha as [Htz _].
  pose proof (of_wall_ok _ _ _ _ Ha0) as (Hw & Ht & _ & _ & Ho).
  apply add_ok in Ha0. destruct Ha0 as (Hwall & Htz' & _).
  simpl in *. repeat split; try assumption; try congruence.
  left. rewrite Ho. unfold wall, timedelta_days, US_PER_DAY, US_PER_HOUR,
    US_PER_MINUTE, US_PER_SECOND. simpl.
  match goal with
  | |- _ < ?n / ?k => replace n with ((ordinal a + 1) * k) by lia
  end.
  rewrite Z.div_mul by lia. lia.
Qed.

(** Between datetimes of one zone the window test is a test on fields. *)
Lemma intersects_local (tz : tzinfo) (start end_ s t : datetime) :
  tzinfo_of start = Some tz -> tzinfo_of end_ = Some tz ->
  tzinfo_of s = Some tz -> tzinfo_of t = Some tz ->
  exists keep,
    intersects start end_ s t = Ok keep /\
    (keep = true <-> fields_lt start t /\ fields_lt s end_).
Proof.
  intros H1 H2 H3 H4. unfold intersects, gt, lt.
  rewrite (cmp_same_tz t start) by congruence.
  rewrite (cmp_same_tz s end_) by congruence.
  simpl.
  pose proof (base_compare_gt t start) as G.
  pose proof (base_compare_lt s end_) as L.
  destruct (base_compare t start); simpl;
    try (exists false; split; [reflexivity |];
         split; [discriminate | intros [X _]; apply G in X; discriminate]).
  destruct (base_compare s end_); simpl;
    try (exists false; split; [reflexivity |];
         split; [discriminate | intros [_ X]; apply L in X; discriminate]).
  exists true. split; [reflexivity |]. split; [| reflexivity].
  intros _. split; [apply G | apply L]; reflexivity.
Qed.

(** Against a naive window the test raises for every converted event. *)
Lemma intersects_naive (tz : tzinfo) (start end_ s t : datetime) :
  tzinfo_of start = None -> tzinfo_of t = Some tz ->
  intersects start end_ s t = Raise TypeError.
Proof.
  intros Hs Ht. unfold intersects, gt.
  rewrite (cmp_aware_naive t start tz Ht Hs). reflexivity.
Qed.

Lemma scan_events_spec (tz : option tzinfo) (start end_ : datetime)
    (cal : list Event) :
  forall acc out,
    scan_events tz start end_ cal acc = Ok out ->
    forall x, In x out <-> In x acc \/ kept_from tz start end_ cal x.
Proof.
  induction cal as [| e rest IH]; simpl; intros acc out H x.
  - inversion H; subst. split; [tauto |].
    intros [Hx | (e & [] & _)]. exact Hx.
  - destruct (ev_begin e) as [b |] eqn:Eb.
    + bind_inv H. bind_inv H. bind_inv H.
      rename a into s, a0 into t, a1 into keep.
      rewrite (IH _ _ H x). clear IH H.
      assert (Hnew : In x (if keep then (acc ++ [(s, t, ev_name e, ev_all_day e,
                                                   ev_location e)])%list else acc)
                     <-> In x acc \/
                         (normalizes tz e x /\
                          intersects start end_ (entry_start x) (entry_end x)
                          = Ok true)).
      { destruct keep.
        - rewrite in_app_iff. simpl. split.
          + intros [Hx | [Hx | []]]; [left; exact Hx | right]. subst x. simpl.
            split; [| exact Ha1]. exists b. simpl. repeat split; assumption.
          + intros [Hx | (N & I)]; [left; exact Hx | right; left].
            destruct N as (b' & Hb & Hs & Ht & Hx).
            rewrite Hb in Eb. inversion Eb; subst b'.
            rewrite Hx. rewrite Ha in Hs. rewrite Ha0 in Ht.
            inversion Hs. inversion Ht. reflexivity.
        - split; [tauto |]. intros [Hx | (N & I)]; [exact Hx | exfalso].
          destruct N as (b' & Hb & Hs & Ht & Hx).
          rewrite Hb in Eb. inversion Eb; subst b'.
          rewrite Ha in Hs. rewrite Ha0 in Ht.
          inversion Hs as [Es]. inversion Ht as [Et].
          rewrite <- Es, <- Et in I. rewrite I in Ha1. discriminate Ha1. }
      rewrite Hnew. unfold kept_from. split.
      * intros [[Hx | (N & I)] | (e' & He' & N & I)].
        -- left; exact Hx.
        -- right. exists e. split; [left; reflexivity | split; assumption].
        -- right. exists e'. split; [right; exact He' | split; assumption].
      * intros [Hx | (e' & [He' | He'] & N & I)].
        -- left; left; exact Hx.
        -- subst e'. left; right. split; assumption.
        -- right. exists e'. split; [exact He' | split; assumption].
    + rewrite (IH _ _ H x). unfold kept_from. split.
      * intros [Hx | (e' & He' & N & I)]; [left; exact Hx | right].
        exists e'. split; [right; exact He' | split; assumption].
      * intros [Hx | (e' & [He' | He'] & N & I)]; [left; exact Hx | | right].
        -- subst e'. destruct N as (b & Hb & _). rewrite Hb in Eb. discriminate Eb.
        -- exists e'. split; [exact He' | split; assumption].
Qed.

Lemma fetched_cons (raw : option string) (urls : list (option string))
    (cal : list Event) :
  fetched calendar_events (raw :: urls) cal <->
  (PyStr.truthy (clean_url (PyStr.or_empty raw)) = true /\
   calendar_events (clean_url (PyStr.or_empty raw)) = Ok cal) \/
  fetched calendar_events urls cal.
Proof.
  unfold fetched. split.
  - intros (r & [Hr | Hr] & T & C).
    + subst r. left. split; assumption.
    + right. exists r. repeat split; assumption.
  - intros [(T & C) | (r & Hr & T & C)].
    + exists raw. repeat split; [left; reflexivity | assumption | assumption].
    + exists r. repeat split; [right; exact Hr | assumption | assumption].
Qed.

Lemma scan_urls_spec (tz : option tzinfo) (start end_ : datetime)
    (urls : list (option string)) :
  forall acc out,
    scan_urls calendar_events tz start end_ urls acc = Ok out ->
    forall x, In x out <->
      In x acc \/
      exists cal, fetched calendar_events urls cal /\ kept_from tz start end_ cal x.
Proof.
  induction urls as [| raw rest IH]; simpl; intros acc out H x.
  - inversion H; subst. split; [tauto |].
    intros [Hx | (cal & (r & [] & _) & _)]. exact Hx.
  - destruct (negb (PyStr.truthy (clean_url (PyStr.or_empty raw)))) eqn:T.
    + rewrite (IH _ _ H x). apply negb_true_iff in T. split.
      * intros [Hx | (cal & Fc & K)]; [left; exact Hx | right].
        exists cal. split; [apply fetched_cons; right; exact Fc | exact K].
      * intros [Hx | (cal & Fc & K)]; [left; exact Hx | right].
        apply fetched_cons in Fc. destruct Fc as [(T' & _) | Fc].
        -- rewrite T in T'. discriminate T'.
        -- exists cal. split; assumption.
    + apply negb_false_iff in T.
      destruct (calendar_events (clean_url (PyStr.or_empty raw))) as [cal0 | err] eqn:C.
      * bind_inv H. rewrite (IH _ _ H x).
        rewrite (scan_events_spec _ _ _ _ _ _ Ha x). split.
        -- intros [[Hx | K] | (cal & Fc & K)].
           ++ left; exact Hx.
           ++ right. exists cal0. split; [| exact K].
              apply fetched_cons. left. split; assumption.
           ++ right. exists cal. split; [| exact K].
              apply fetched_cons. right. exact Fc.
        -- intros [Hx | (cal & Fc & K)]; [left; left; exact Hx |].
           apply fetched_cons in Fc. destruct Fc as [(_ & C') | Fc].
           ++ rewrite C in C'. inversion C'; subst cal. left; right. exact K.
           ++ right. exists cal. split; assumption.
      * rewrite (IH _ _ H x). split.
        -- intros [Hx | (cal & Fc & K)]; [left; exact Hx | right].
           exists cal. split; [apply fetched_cons; right; exact Fc | exact K].
        -- intros [Hx | (cal & Fc & K)]; [left; exact Hx | right].
           apply fetched_cons in Fc. destruct Fc as [(_ & C') | Fc].
           ++ rewrite C in C'. discriminate C'.
           ++ exists cal. split; assumption.
Qed.

Lemma insert_by_start_perm (x : entry) (l : list entry) :
  forall r, insert_by_start x l = Ok r -> Permutation (x :: l) r.
Proof.
  induction l as [| y l' IH]; simpl; intros r H.
  - inversion H; subst. apply Permutation_refl.
  - bind_inv H. destruct a.
    + bind_inv H. inversion H; subst.
      apply perm_trans with (y :: x :: l'); [apply perm_swap |].
      apply perm_skip. apply IH. exact Ha0.
    + inversion H; subst. apply Permutation_refl.
Qed.

Lemma sort_by_start_perm (l : list entry) :
  forall r, sort_by_start l = Ok r -> Permutation l r.
Proof.
  induction l as [| x l' IH]; simpl; intros r H.
  - inversion H; subst. apply perm_nil.
  - bind_inv H.
    apply perm_trans with (x :: a); [apply perm_skip; apply IH; exact Ha |].
    apply insert_by_start_perm. exact H.
Qed.

End AgendaFacts.

(** ** The time window and the normalizer *)

Section WindowFacts.
Context {tzdata : TzData}.
Variable clock : Z.

(** C5.  Whatever the zone and the clock, the window of today spans exactly
    24 hours ([end - start] is [timedelta(days=1)]) and its start has hour,
    minute, second and microsecond zero in the local zone.  The window
    exists as soon as [now] is not on the last day a datetime can hold.
    (For a zone name that the database does not know, [tz] is [None] and
    the window is the naive one of the system's clock.) *)
Theorem today_window_spans_one_day (tz : option tzinfo) (n : datetime) :
  now tz clock = Ok n -> ordinal n < MAXORDINAL ->
  exists start end_,
    today_window clock tz = Ok (start, end_) /\
    sub end_ start = Ok (24 * US_PER_HOUR) /\
    hour start = 0 /\ minute start = 0 /\ second start = 0 /\
    microsecond start = 0 /\
    tzinfo_of start = tz /\ ordinal start = ordinal n.
Proof.
  intros Hnow Hlast.
  pose proof (now_ok _ _ _ Hnow) as [Htz [Hlo _]].
  set (start := replace_time n 0 0 0 0).
  assert (Hw : wall start = ordinal n * US_PER_DAY).
  { unfold start, wall, US_PER_DAY, US_PER_HOUR, US_PER_MINUTE, US_PER_SECOND.
    simpl. lia. }
  destruct (of_wall_in_range (wall start + timedelta_days 1)
              (tzinfo_of start) false) as [end_ Hend].
  { rewrite Hw. unfold timedelta_days.
    replace (ordinal n * US_PER_DAY + 1 * US_PER_DAY)
      with ((ordinal n + 1) * US_PER_DAY) by lia.
    rewrite Z.div_mul by (unfold US_PER_DAY, US_PER_HOUR, US_PER_MINUTE,
                            US_PER_SECOND; lia).
    lia. }
  exists start, end_.
  assert (Hwin : today_window clock tz = Ok (start, end_)).
  { unfold today_window, add. rewrite Hnow. cbn [bind]. fold start.
    rewrite Hend. reflexivity. }
  split; [exact Hwin |].
  apply today_window_ok in Hwin.
  destruct Hwin as (T1 & T2 & Hh & Hm & Hs & Hus & Hwall & _).
  rewrite sub_same_tz by congruence.
  repeat split; try assumption.
  f_equal. rewrite Hwall. unfold timedelta_days, US_PER_DAY, US_PER_HOUR,
    US_PER_MINUTE, US_PER_SECOND. lia.
Qed.

(** C7.  A timestamp without tzinfo is read as UTC and then converted to the
    target zone: the result is the local time of the UTC instant that has
    the same wall clock.  A timestamp that carries a zone is converted
    directly.  Either way the result is in the target zone.  (When the zone
    name is unknown and there is no target zone, the timestamp is read in the
    same way and converted to the system's zone.) *)
Theorem to_local_dt_reads_naive_as_utc (tz : tzinfo) (x : timestamp) :
  (tzinfo_of (datetime_of x) = None ->
   to_local_dt (Some tz) x
   = astimezone (replace_tzinfo (datetime_of x) (Some tzutc)) (Some tz) /\
   (tz <> tzutc ->
    to_local_dt (Some tz) x = now (Some tz) (wall (datetime_of x)))) /\
  (forall mytz, tzinfo_of (datetime_of x) = Some mytz ->
   to_local_dt (Some tz) x = astimezone (datetime_of x) (Some tz)) /\
  (forall r, to_local_dt (Some tz) x = Ok r -> tzinfo_of r = Some tz) /\
  (tzinfo_of (datetime_of x) = None ->
   to_local_dt None x
   = astimezone (replace_tzinfo (datetime_of x) (Some tzutc)) None) /\
  (forall mytz, tzinfo_of (datetime_of x) = Some mytz ->
   to_local_dt None x = astimezone (datetime_of x) None) /\
  (forall r, to_local_dt None x = Ok r ->
   exists o, tzinfo_of r = Some (timezone o)).
Proof.
  assert (E : forall tzlocal,
              to_local_dt tzlocal x
              = astimezone
                  match tzinfo_of (datetime_of x) with
                  | None => replace_tzinfo (datetime_of x) (Some tzutc)
                  | Some _ => datetime_of x
                  end tzlocal).
  { intros tzlocal. destruct x; reflexivity. }
  split; [| split; [| split; [| split; [| split]]]].
  - intros Hnaive. rewrite E, Hnaive. split; [reflexivity |].
    intros Hne. unfold astimezone, now, add.
    cbn [tzinfo_of replace_tzinfo tz_utcoffset].
    replace (tzinfo_is tz tzutc) with false
      by (destruct tz; simpl; congruence).
    change (- 0) with 0. rewrite Z.add_0_r.
    change (wall (replace_tzinfo (datetime_of x) (Some tzutc)))
      with (wall (datetime_of x)).
    apply (of_wall_retag _ _ _ _ (fromutc tz)).
  - intros mytz Haware. rewrite E, Haware. reflexivity.
  - intros r. apply to_local_dt_tz.
  - intros Hnaive. rewrite E, Hnaive. reflexivity.
  - intros mytz Haware. rewrite E, Haware. reflexivity.
  - intros r. apply to_local_dt_system.
Qed.

End WindowFacts.

(** ** Building the agenda *)

Section BuildingFacts.
Context {tzdata : TzData}.
Variable calendar_events : string -> result (list Event).
Variable clock : Z.

Lemma intersects_true_iff (start end_ s t : datetime) :
  intersects start end_ s t = Ok true <->
  gt t start = Ok true /\ lt s end_ = Ok true.
Proof.
  unfold intersects.
  destruct (gt t start) as [[|] | e]; simpl; split; intros H;
    try tauto; try discriminate H; destruct H as [H _]; discriminate H.
Qed.

Lemma scan_events_app (tz : option tzinfo) (start end_ : datetime)
    (c1 c2 : list Event) :
  forall acc,
    scan_events tz start end_ (c1 ++ c2) acc
    = (m <- scan_events tz start end_ c1 acc ;; scan_events tz start end_ c2 m).
Proof.
  induction c1 as [| e rest IH]; simpl; intros acc.
  - reflexivity.
  - destruct (ev_begin e) as [b |]; [| apply IH].
    destruct (to_local_dt tz b) as [s | err]; simpl; [| reflexivity].
    destruct (to_local_dt tz (end_or_begin e b)) as [t | err]; simpl;
      [| reflexivity].
    destruct (intersects start end_ s t) as [keep | err]; simpl;
      [| reflexivity].
    apply IH.
Qed.

Lemma scan_urls_app (tz : option tzinfo) (start end_ : datetime)
    (u1 u2 : list (option string)) :
  forall acc,
    scan_urls calendar_events tz start end_ (u1 ++ u2) acc
    = (m <- scan_urls calendar_events tz start end_ u1 acc ;;
       scan_urls calendar_events tz start end_ u2 m).
Proof.
  induction u1 as [| raw rest IH]; simpl; intros acc.
  - reflexivity.
  - destruct (negb (PyStr.truthy (clean_url (PyStr.or_empty raw)))); [apply IH |].
    destruct (calendar_events (clean_url (PyStr.or_empty raw))) as [cal | err];
      [| apply IH].
    destruct (scan_events tz start end_ cal acc) as [m | err]; simpl;
      [apply IH | reflexivity].
Qed.

Lemma scan_events_converts (tz : option tzinfo) (start end_ : datetime)
    (cal : list Event) :
  forall acc out,
    scan_events tz start end_ cal acc = Ok out ->
    forall e, In e cal -> converts tz e.
Proof.
  induction cal as [| e0 rest IH]; simpl; intros acc out H e He.
  - destruct He.
  - destruct (ev_begin e0) as [b |] eqn:Eb.
    + bind_inv H. bind_inv H. bind_inv H. destruct He as [He | He].
      * subst e0. intros b' Hb'. rewrite Hb' in Eb. inversion Eb; subst b'.
        rewrite Ha, Ha0. split; reflexivity.
      * eapply IH; eassumption.
    + destruct He as [He | He].
      * subst e0. intros b' Hb'. rewrite Hb' in Eb. discriminate Eb.
      * eapply IH; eassumption.
Qed.

Lemma scan_events_total (tz : tzinfo) (start end_ : datetime) (cal : list Event) :
  tzinfo_of start = Some tz -> tzinfo_of end_ = Some tz ->
  (forall e, In e cal -> converts (Some tz) e) ->
  forall acc, exists out, scan_events (Some tz) start end_ cal acc = Ok out.
Proof.
  intros Hs He. induction cal as [| e rest IH]; simpl; intros Hc acc.
  - exists acc; reflexivity.
  - assert (Hrest : forall e', In e' rest -> converts (Some tz) e')
      by (intros e' H'; apply Hc; right; exact H').
    destruct (ev_begin e) as [b |] eqn:Eb; [| apply IH; exact Hrest].
    destruct (Hc e (or_introl eq_refl) b Eb) as [C1 C2].
    apply is_ok_true in C1. destruct C1 as [s C1].
    apply is_ok_true in C2. destruct C2 as [t C2].
    rewrite C1, C2. simpl.
    destruct (intersects_local tz start end_ s t Hs He
                (to_local_dt_tz _ _ _ C1) (to_local_dt_tz _ _ _ C2))
      as (keep & Hk & _).
    rewrite Hk. simpl. apply IH. exact Hrest.
Qed.

Lemma scan_urls_converts (tz : option tzinfo) (start end_ : datetime)
    (urls : list (option string)) :
  forall acc out,
    scan_urls calendar_events tz start end_ urls acc = Ok out ->
    all_convert calendar_events tz urls.
Proof.
  induction urls as [| raw rest IH]; simpl; intros acc out H cal e Fc He.
  - destruct Fc as (r & [] & _).
  - apply fetched_cons in Fc.
    destruct (negb (PyStr.truthy (clean_url (PyStr.or_empty raw)))) eqn:T.
    + apply negb_true_iff in T. destruct Fc as [(T' & _) | Fc].
      * rewrite T in T'. discriminate T'.
      * eapply IH; eassumption.
    + destruct (calendar_events (clean_url (PyStr.or_empty raw)))
        as [cal0 | err] eqn:C.
      * bind_inv H. destruct Fc as [(_ & C') | Fc].
        -- inversion C'; subst cal0. eapply scan_events_converts; eassumption.
        -- eapply IH; eassumption.
      * destruct Fc as [(_ & C') | Fc]; [discriminate C' |].
        eapply IH; eassumption.
Qed.

Lemma scan_urls_total (tz : tzinfo) (start end_ : datetime)
    (urls : list (option string)) :
  tzinfo_of start = Some tz -> tzinfo_of end_ = Some tz ->
  all_convert calendar_events (Some tz) urls ->
  forall acc, exists out,
    scan_urls calendar_events (Some tz) start end_ urls acc = Ok out.
Proof.
  intros Hs He. induction urls as [| raw rest IH]; simpl; intros Hc acc.
  - exists acc; reflexivity.
  - assert (Hrest : all_convert calendar_events (Some tz) rest).
    { intros cal e Fc. apply Hc. apply fetched_cons. right. exact Fc. }
    destruct (negb (PyStr.truthy (clean_url (PyStr.or_empty raw)))) eqn:T;
      [apply IH; exact Hrest |].
    apply negb_false_iff in T.
    destruct (calendar_events (clean_url (PyStr.or_empty raw)))
      as [cal0 | err] eqn:C; [| apply IH; exact Hrest].
    destruct (scan_events_total tz start end_ cal0 Hs He) with (acc := acc)
      as [m Hm].
    { intros e Hin. apply (Hc cal0); [| exact Hin].
      apply fetched_cons. left. split; assumption. }
    rewrite Hm. simpl. apply IH. exact Hrest.
Qed.

Lemma insert_by_start_total (tz : tzinfo) (x : entry) (l : list entry) :
  tzinfo_of (entry_start x) = Some tz ->
  Forall (fun y => tzinfo_of (entry_start y) = Some tz) l ->
  exists r, insert_by_start x l = Ok r.
Proof.
  intros Hx. induction l as [| y l' IH]; simpl; intros Hl.
  - eexists; reflexivity.
  - inversion Hl as [| ? ? Hy Hl']; subst.
    unfold lt. rewrite cmp_same_tz by congruence. simpl.
    destruct (base_compare (entry_start y) (entry_start x));
      try (eexists; reflexivity).
    destruct (IH Hl') as [r Hr]. rewrite Hr. simpl. eexists; reflexivity.
Qed.

Lemma sort_by_start_total (tz : tzinfo) (l : list entry) :
  Forall (fun y => tzinfo_of (entry_start y) = Some tz) l ->
  exists r, sort_by_start l = Ok r.
Proof.
  induction l as [| x l' IH]; simpl; intros Hl.
  - eexists; reflexivity.
  - inversion Hl as [| ? ? Hx Hl']; subst.
    destruct (IH Hl') as [r Hr]. rewrite Hr. simpl.
    apply (insert_by_start_total tz); [exact Hx |].
    eapply Permutation_Forall; [| exact Hl'].
    apply sort_by_start_perm. exact Hr.
Qed.

(** The agenda holds exactly the normalized events of the fetched calendars
    that pass the window test. *)
Lemma fetch_ics_events_today_spec (urls : list (option string))
    (tzname : string) (agenda : list entry) :
  fetch_ics_events_today calendar_events clock urls tzname = Ok agenda ->
  exists start end_,
    today_window clock (gettz tzname) = Ok (start, end_) /\
    forall x, In x agenda <->
      exists cal, fetched calendar_events urls cal /\
                  kept_from (gettz tzname) start end_ cal x.
Proof.
  unfold fetch_ics_events_today. intros H. bind_inv H.
  destruct a as [start end_]. bind_inv H.
  exists start, end_. split; [exact Ha |]. intros x.
  pose proof (sort_by_start_perm _ _ H) as P.
  pose proof (scan_urls_spec calendar_events _ _ _ _ _ _ Ha0 x) as S.
  split.
  - intros Hx. apply (Permutation_in _ (Permutation_sym P)) in Hx.
    apply S in Hx. destruct Hx as [[] | Hx]. exact Hx.
  - intros Hx. apply (Permutation_in _ P). apply S. right. exact Hx.
Qed.

Lemma normalizes_local (tz : tzinfo) (e : Event) (x : entry) :
  normalizes (Some tz) e x ->
  tzinfo_of (entry_start x) = Some tz /\ tzinfo_of (entry_end x) = Some tz.
Proof.
  intros (b & _ & Hs & Ht & _).
  split; eapply to_local_dt_tz; eassumption.
Qed.

Lemma normalizes_system (e : Event) (x : entry) :
  normalizes None e x ->
  (exists o, tzinfo_of (entry_start x) = Some (timezone o)) /\
  (exists o, tzinfo_of (entry_end x) = Some (timezone o)).
Proof.
  intros (b & _ & Hs & Ht & _).
  split; eapply to_local_dt_system; eassumption.
Qed.

(** Where the loop over the events of a calendar can raise: at the
    conversion of a begin, at the conversion of an end, at the window test. *)
Lemma scan_events_raises (tz : option tzinfo) (start end_ : datetime)
    (cal : list Event) :
  forall acc err,
    scan_events tz start end_ cal acc = Raise err ->
    exists e b,
      In e cal /\ ev_begin e = Some b /\
      (to_local_dt tz b = Raise err \/
       to_local_dt tz (end_or_begin e b) = Raise err \/
       exists s t,
         to_local_dt tz b = Ok s /\ to_local_dt tz (end_or_begin e b) = Ok t /\
         intersects start end_ s t = Raise err).
Proof.
  induction cal as [| e rest IH]; simpl; intros acc err H; [discriminate H |].
  assert (Hrest : forall acc',
             scan_events tz start end_ rest acc' = Raise err ->
             exists e' b,
               (e = e' \/ In e' rest) /\ ev_begin e' = Some b /\
               (to_local_dt tz b = Raise err \/
                to_local_dt tz (end_or_begin e' b) = Raise err \/
                exists s t,
                  to_local_dt tz b = Ok s /\
                  to_local_dt tz (end_or_begin e' b) = Ok t /\
                  intersects start end_ s t = Raise err)).
  { intros acc' H'. destruct (IH _ _ H') as (e' & b & Hin & Hb & Hwhy).
    exists e', b. split; [right; exact Hin | split; assumption]. }
  destruct (ev_begin e) as [b |] eqn:Eb; [| apply (Hrest _ H)].
  destruct (to_local_dt tz b) as [s | e1] eqn:C1; cbn [bind] in H.
  - destruct (to_local_dt tz (end_or_begin e b)) as [t | e2] eqn:C2;
      cbn [bind] in H.
    + destruct (intersects start end_ s t) as [keep | e3] eqn:I;
        cbn [bind] in H.
      * apply (Hrest _ H).
      * inversion H; subst e3. exists e, b.
        split; [left; reflexivity |]. split; [exact Eb |].
        right; right. exists s, t. repeat split; assumption.
    + inversion H; subst e2. exists e, b.
      split; [left; reflexivity |]. split; [exact Eb |]. right; left. exact C2.
  - inversion H; subst e1. exists e, b.
    split; [left; reflexivity |]. split; [exact Eb |]. left. exact C1.
Qed.

Lemma scan_urls_raises (tz : option tzinfo) (start end_ : datetime)
    (urls : list (option string)) :
  forall acc err,
    scan_urls calendar_events tz start end_ urls acc = Raise err ->
    exists cal e b,
      fetched calendar_events urls cal /\ In e cal /\ ev_begin e = Some b /\
      (to_local_dt tz b = Raise err \/
       to_local_dt tz (end_or_begin e b) = Raise err \/
       exists s t,
         to_local_dt tz b = Ok s /\ to_local_dt tz (end_or_begin e b) = Ok t /\
         intersects start end_ s t = Raise err).
Proof.
  induction urls as [| raw rest IH]; simpl; intros acc err H; [discriminate H |].
  assert (Hrest : forall acc',
             scan_urls calendar_events tz start end_ rest acc' = Raise err ->
             exists cal e b,
               fetched calendar_events (raw :: rest) cal /\ In e cal /\
               ev_begin e = Some b /\
               (to_local_dt tz b = Raise err \/
                to_local_dt tz (end_or_begin e b) = Raise err \/
                exists s t,
                  to_local_dt tz b = Ok s /\
                  to_local_dt tz (end_or_begin e b) = Ok t /\
                  intersects start end_ s t = Raise err)).
  { intros acc' H'. destruct (IH _ _ H') as (cal & e & b & Fc & Hrestof).
    exists cal, e, b. split; [apply fetched_cons; right; exact Fc | exact Hrestof]. }
  destruct (negb (PyStr.truthy (clean_url (PyStr.or_empty raw)))) eqn:T;
    [apply (Hrest _ H) |].
  apply negb_false_iff in T.
  destruct (calendar_events (clean_url (PyStr.or_empty raw)))
    as [cal0 | e0] eqn:C; [| apply (Hrest _ H)].
  destruct (scan_events tz start end_ cal0 acc) as [m | e1] eqn:S;
    cbn [bind] in H; [apply (Hrest _ H) |].
  inversion H; subst e1.
  destruct (scan_events_raises _ _ _ _ _ _ S) as (e & b & Hrestof).
  exists cal0, e, b. split; [| exact Hrestof].
  apply fetched_cons. left. split; assumption.
Qed.

(** Against a naive window the loops return only when no event has a begin,
    and then with the entries they started from. *)
Lemma scan_events_naive (start end_ : datetime) (cal : list Event) :
  tzinfo_of start = None ->
  forall acc out,
    scan_events None start end_ cal acc = Ok out ->
    out = acc /\ forall e, In e cal -> ev_begin e = None.
Proof.
  intros Hs. induction cal as [| e rest IH]; simpl; intros acc out H.
  - inversion H; subst. split; [reflexivity | intros e []].
  - destruct (ev_begin e) as [b |] eqn:Eb.
    + exfalso. bind_inv H. bind_inv H. bind_inv H.
      destruct (to_local_dt_system _ _ Ha0) as [o Ho].
      rewrite (intersects_naive _ _ _ _ _ Hs Ho) in Ha1. discriminate Ha1.
    + destruct (IH _ _ H) as [Hout Hnone]. split; [exact Hout |].
      intros e' [He' | He']; [subst e'; exact Eb | apply Hnone; exact He'].
Qed.

Lemma scan_urls_naive (start end_ : datetime) (urls : list (option string)) :
  tzinfo_of start = None ->
  forall acc out,
    scan_urls calendar_events None start end_ urls acc = Ok out ->
    out = acc /\ none_begins calendar_events urls.
Proof.
  intros Hs. induction urls as [| raw rest IH]; simpl; intros acc out H.
  - inversion H; subst. split; [reflexivity |].
    intros cal e (r & [] & _).
  - assert (Hrest : forall acc',
               scan_urls calendar_events None start end_ rest acc' = Ok out ->
               (forall cal, calendar_events (clean_url (PyStr.or_empty raw))
                            = Ok cal ->
                            PyStr.truthy (clean_url (PyStr.or_empty raw)) = true ->
                            forall e, In e cal -> ev_begin e = None) ->
               out = acc' /\ none_begins calendar_events (raw :: rest)).
    { intros acc' H' Hhere. destruct (IH _ _ H') as [Hout Hnone].
      split; [exact Hout |]. intros cal e Fc He.
      apply fetched_cons in Fc. destruct Fc as [(T & C) | Fc].
      - eapply Hhere; eassumption.
      - eapply Hnone; eassumption. }
    destruct (negb (PyStr.truthy (clean_url (PyStr.or_empty raw)))) eqn:T.
    + apply Hrest; [exact H |]. intros cal _ T'.
      apply negb_true_iff in T. rewrite T in T'. discriminate T'.
    + destruct (calendar_events (clean_url (PyStr.or_empty raw)))
        as [cal0 | e0] eqn:C.
      * bind_inv H. destruct (scan_events_naive _ _ _ Hs _ _ Ha) as [Ea Hnone].
        subst a. apply Hrest; [exact H |].
        intros cal C' _. inversion C'; subst cal. exact Hnone.
      * apply Hrest; [exact H |]. intros cal C'. discriminate C'.
Qed.

Lemma scan_events_none_begins (tz : option tzinfo) (start end_ : datetime)
    (cal : list Event) :
  (forall e, In e cal -> ev_begin e = None) ->
  forall acc, scan_events tz start end_ cal acc = Ok acc.
Proof.
  induction cal as [| e rest IH]; simpl; intros Hnone acc; [reflexivity |].
  rewrite (Hnone e (or_introl eq_refl)).
  apply IH. intros e' He'. apply Hnone. right. exact He'.
Qed.

Lemma scan_urls_none_begins (tz : option tzinfo) (start end_ : datetime)
    (urls : list (option string)) :
  none_begins calendar_events urls ->
  forall acc, scan_urls calendar_events tz start end_ urls acc = Ok acc.
Proof.
  induction urls as [| raw rest IH]; simpl; intros Hnone acc; [reflexivity |].
  assert (Hrest : none_begins calendar_events rest).
  { intros cal e Fc. apply Hnone. apply fetched_cons. right. exact Fc. }
  destruct (negb (PyStr.truthy (clean_url (PyStr.or_empty raw)))) eqn:T;
    [apply IH; exact Hrest |].
  apply negb_false_iff in T.
  destruct (calendar_events (clean_url (PyStr.or_empty raw)))
    as [cal0 | e0] eqn:C; [| apply IH; exact Hrest].
  rewrite scan_events_none_begins.
  - cbn [bind]. apply IH. exact Hrest.
  - intros e He. apply (Hnone cal0); [| exact He].
    apply fetched_cons. left. split; assumption.
Qed.

(** With a zone name that the database does not know, an agenda that is
    returned is empty. *)
Lemma fetch_ics_events_today_unknown (urls : list (option string))
    (tzname : string) (agenda : list entry) :
  gettz tzname = None ->
  fetch_ics_events_today calendar_events clock urls tzname = Ok agenda ->
  agenda = [] /\ none_begins calendar_events urls.
Proof.
  unfold fetch_ics_events_today. intros G. rewrite G. intros H.
  bind_inv H. destruct a as [start end_]. bind_inv H.
  destruct (today_window_ok _ _ _ _ Ha) as (Ts & _).
  destruct (scan_urls_naive _ _ _ Ts _ _ Ha0) as [Ea Hnone]. subst a.
  simpl in H. inversion H; subst. split; [reflexivity | exact Hnone].
Qed.

(** With a zone that the database knows, the entries the loops collect are
    in that zone. *)
Lemma scan_urls_local (tz : tzinfo) (start end_ : datetime)
    (urls : list (option string)) (events : list entry) :
  scan_urls calendar_events (Some tz) start end_ urls [] = Ok events ->
  Forall (fun y => tzinfo_of (entry_start y) = Some tz /\
                   tzinfo_of (entry_end y) = Some tz) events.
Proof.
  intros H. apply Forall_forall. intros x Hx.
  apply (scan_urls_spec calendar_events _ _ _ _ _ _ H x) in Hx.
  destruct Hx as [[] | (cal & _ & e & _ & N & _)].
  exact (normalizes_local _ _ _ N).
Qed.

Lemma scan_urls_local_start (tz : tzinfo) (start end_ : datetime)
    (urls : list (option string)) (events : list entry) :
  scan_urls calendar_events (Some tz) start end_ urls [] = Ok events ->
  Forall (fun y => tzinfo_of (entry_start y) = Some tz) events.
Proof.
  intros H. eapply Forall_impl; [| eapply scan_urls_local; exact H].
  intros x [Hs _]. exact Hs.
Qed.

(** The entries of an agenda that is returned share one tzinfo. *)
Lemma agenda_in_one_zone (urls : list (option string)) (tzname : string)
    (agenda : list entry) :
  fetch_ics_events_today calendar_events clock urls tzname = Ok agenda ->
  exists tz,
    Forall (fun y => tzinfo_of (entry_start y) = tz /\
                     tzinfo_of (entry_end y) = tz) agenda.
Proof.
  intros H. destruct (gettz tzname) as [tz |] eqn:G.
  - exists (Some tz). unfold fetch_ics_events_today in H. rewrite G in H.
    bind_inv H. destruct a as [start end_]. bind_inv H.
    eapply Permutation_Forall; [apply sort_by_start_perm; exact H |].
    eapply scan_urls_local. exact Ha0.
  - exists None. destruct (fetch_ics_events_today_unknown _ _ _ G H) as [-> _].
    constructor.
Qed.

End BuildingFacts.

(** ** The whole minutes of a duration *)

Section DurationFacts.
Import Binary64.

Lemma scale_pos (k : Z) : 0 < scale k.
Proof. unfold scale. apply Z.pow_pos_nonneg; lia. Qed.

Lemma scale_neg (k : Z) : k <= 0 -> scale k = 1.
Proof. intros H. unfold scale. rewrite Z.max_l by lia. reflexivity. Qed.

Lemma scale_nonneg (k : Z) : 0 <= k -> scale k = 2 ^ k.
Proof. intros H. unfold scale. rewrite Z.max_r by lia. reflexivity. Qed.


Lemma round_half_even_cases (n d : Z) :
  0 < d ->
  (round_half_even n d = n / d /\ 2 * (n mod d) <= d) \/
  (round_half_even n d = n / d + 1 /\ d <= 2 * (n mod d)).
Proof.
  intros Hd. unfold round_half_even.
  destruct (Z.compare_spec (2 * (n mod d)) d) as [E | L | G].
  - destruct (Z.even (n / d)); [left | right]; split; lia.
  - left; split; lia.
  - right; split; lia.
Qed.

Lemma scale_split (j k : Z) : 0 <= j -> 0 <= k -> scale (j + k) = scale j * scale k.
Proof.
  intros Hj Hk. unfold scale. rewrite !Z.max_r by lia.
  apply Z.pow_add_r; lia.
Qed.

(** The quotient [a / d], brought to the binade that was found for it, lies
    between 1 and 2. *)
Lemma binade_bounds (a d : Z) :
  0 < a -> 0 < d ->
  d * scale (binade a d) <= a * scale (- binade a d)
  < 2 * d * scale (binade a d).
Proof.
  intros Ha Hd. unfold binade.
  pose proof (Z.log2_spec a Ha) as [La Ua].
  pose proof (Z.log2_spec d Hd) as [Ld Ud].
  pose proof (Z.log2_nonneg a). pose proof (Z.log2_nonneg d).
  set (la := Z.log2 a) in *. set (ld := Z.log2 d) in *.
  replace (Z.succ la) with (la + 1) in Ua by lia.
  replace (Z.succ ld) with (ld + 1) in Ud by lia.
  rewrite Z.pow_add_r in Ua, Ud by lia. change (2 ^ 1) with 2 in Ua, Ud.
  set (p := la - ld).
  destruct (d * scale p <=? a * scale (- p)) eqn:T.
  - apply Z.leb_le in T. split; [exact T |].
    destruct (Z.le_gt_cases 0 p) as [P | P].
    + rewrite (scale_nonneg p P), (scale_neg (- p)) by lia.
      assert (E : 2 ^ la = 2 ^ p * 2 ^ ld)
        by (rewrite <- Z.pow_add_r by lia; f_equal; lia).
      assert (0 < 2 ^ p) by (apply Z.pow_pos_nonneg; lia).
      nia.
    + rewrite (scale_neg p), (scale_nonneg (- p)) by lia.
      assert (E : 2 ^ ld = 2 ^ (- p) * 2 ^ la)
        by (rewrite <- Z.pow_add_r by lia; f_equal; lia).
      assert (0 < 2 ^ (- p)) by (apply Z.pow_pos_nonneg; lia).
      nia.
  - apply Z.leb_gt in T.
    destruct (Z.le_gt_cases 1 p) as [P | P].
    + rewrite (scale_nonneg p), (scale_neg (- p)) in T by lia.
      rewrite (scale_nonneg (p - 1)), (scale_neg (- (p - 1))) by lia.
      assert (E : 2 ^ p = 2 * 2 ^ (p - 1)).
      { replace p with ((p - 1) + 1) at 1 by lia.
        rewrite Z.pow_add_r by lia. lia. }
      assert (E' : 2 ^ la = 2 ^ p * 2 ^ ld)
        by (rewrite <- Z.pow_add_r by lia; f_equal; lia).
      assert (0 < 2 ^ (p - 1)) by (apply Z.pow_pos_nonneg; lia).
      nia.
    + rewrite (scale_neg p), (scale_nonneg (- p)) in T by lia.
      rewrite (scale_neg (p - 1)), (scale_nonneg (- (p - 1))) by lia.
      assert (E : 2 ^ (- (p - 1)) = 2 * 2 ^ (- p)).
      { replace (- (p - 1)) with (- p + 1) by lia.
        rewrite Z.pow_add_r by lia. lia. }
      assert (E' : 2 ^ ld = 2 ^ (- p) * 2 ^ la)
        by (rewrite <- Z.pow_add_r by lia; f_equal; lia).
      assert (0 < 2 ^ (- p)) by (apply Z.pow_pos_nonneg; lia).
      nia.
Qed.

(** [true_divide] returns a number of 53 bits (or the power of two just
    above them) that lies within half a unit of its last bit of the exact
    quotient: the nearest binary64. *)
Lemma true_divide_nearest (n d : Z) :
  n <> 0 -> 0 < d ->
  let x := true_divide n d in
  let unit := d * scale (exponent x) in
  2 ^ 52 <= Z.abs (mantissa x) <= 2 ^ 53 /\
  2 * Z.abs (Z.abs (mantissa x) * unit - Z.abs n * scale (- exponent x)) <= unit.
Proof.
  intros Hn Hd. unfold true_divide.
  destruct (Z.eqb_spec n 0) as [E | _]; [contradiction |].
  cbn [mantissa exponent].
  set (a := Z.abs n). assert (Ha : 0 < a) by (unfold a; lia).
  pose proof (binade_bounds a d Ha Hd) as B.
  set (b := binade a d) in *.
  set (e := b - 52).
  set (D := d * scale e). set (N := a * scale (- e)).
  pose proof (scale_pos e). pose proof (scale_pos (- e)).
  pose proof (scale_pos b). pose proof (scale_pos (- b)).
  assert (HD : 0 < D) by (unfold D; nia).
  assert (HN : 2 ^ 52 * D <= N < 2 ^ 53 * D).
  { unfold D, N, e.
    destruct (Z.le_gt_cases 52 b) as [P | P].
    - (* e >= 0 *)
      rewrite (scale_neg (- (b - 52))) by lia.
      rewrite (scale_neg (- b)) in B by lia.
      replace b with ((b - 52) + 52) in B by lia.
      rewrite (scale_split (b - 52) 52) in B by lia.
      change (scale 52) with (2 ^ 52) in B. change (2 ^ 53) with (2 * 2 ^ 52).
      nia.
    - destruct (Z.le_gt_cases 0 b) as [Q | Q].
      + (* 0 <= b < 52 *)
        rewrite (scale_neg (b - 52)) by lia.
        rewrite (scale_neg (- b)) in B by lia.
        assert (S : scale (- (b - 52)) * scale b = 2 ^ 52).
        { rewrite <- scale_split by lia.
          replace (- (b - 52) + b) with 52 by lia. reflexivity. }
        change (2 ^ 53) with (2 * 2 ^ 52). nia.
      + (* b < 0 *)
        rewrite (scale_neg (b - 52)) by lia.
        rewrite (scale_neg b) in B by lia.
        replace (- (b - 52)) with (- b + 52) by lia.
        rewrite (scale_split (- b) 52) by lia.
        change (scale 52) with (2 ^ 52). change (2 ^ 53) with (2 * 2 ^ 52).
        nia. }
  assert (Sg : Z.abs (Z.sgn n * round_half_even N D) = Z.abs (round_half_even N D)).
  { rewrite Z.abs_mul. replace (Z.abs (Z.sgn n)) with 1 by lia. lia. }
  rewrite Sg. clear Sg.
  pose proof (Z.div_mod N D ltac:(lia)) as DM.
  pose proof (Z.mod_pos_bound N D HD) as MB.
  assert (Q1 : 2 ^ 52 <= N / D) by (apply Z.div_le_lower_bound; lia).
  assert (Q2 : N / D < 2 ^ 53) by (apply Z.div_lt_upper_bound; lia).
  destruct (round_half_even_cases N D HD) as [[-> Hr] | [-> Hr]];
    set (q := N / D) in *; set (r := N mod D) in *.
  - rewrite (Z.abs_eq q) by lia. split; [lia |].
    replace (q * D - N) with (- r) by lia. lia.
  - rewrite (Z.abs_eq (q + 1)) by lia. split; [lia |].
    replace ((q + 1) * D - N) with (D - r) by lia. lia.
Qed.









End DurationFacts.

(** ** The claims on the agenda *)

Section AgendaClaims.
Context {tzdata : TzData}.
Variable calendar_events : string -> result (list Event).
Variable clock : Z.

(** C1.  The agenda holds normalized events only, and a normalized event is
    in the agenda if and only if its end is after the start of the window and
    its start is before the end of the window.  So an event that ends exactly
    at the window's start is left out, an event that starts exactly at the
    window's end is left out, and an event that starts before the window's
    end and ends after it is kept. *)
Theorem agenda_keeps_events_meeting_the_window (urls : list (option string))
    (tzname : string) (start end_ : datetime) (agenda : list entry) :
  today_window clock (gettz tzname) = Ok (start, end_) ->
  fetch_ics_events_today calendar_events clock urls tzname = Ok agenda ->
  (forall x, In x agenda ->
     normalized_from calendar_events (gettz tzname) urls x) /\
  (forall x, normalized_from calendar_events (gettz tzname) urls x ->
     (In x agenda <->
      gt (entry_end x) start = Ok true /\ lt (entry_start x) end_ = Ok true) /\
     (cmp (entry_end x) start = Ok Eq -> ~ In x agenda) /\
     (cmp (entry_start x) end_ = Ok Eq -> ~ In x agenda) /\
     (lt (entry_start x) end_ = Ok true -> lt end_ (entry_end x) = Ok true ->
      In x agenda)).
Proof.
  intros Hwin Hfetch.
  destruct (fetch_ics_events_today_spec _ _ _ _ _ Hfetch)
    as (start' & end' & Hwin' & Hspec).
  rewrite Hwin in Hwin'. inversion Hwin'; subst start' end'. clear Hwin'.
  assert (Hiff : forall x,
             normalized_from calendar_events (gettz tzname) urls x ->
             (In x agenda <->
              gt (entry_end x) start = Ok true /\
              lt (entry_start x) end_ = Ok true)).
  { intros x (cal & e & Fc & He & N). rewrite Hspec. split.
    - intros (cal' & _ & e' & _ & _ & I). apply intersects_true_iff. exact I.
    - intros I. exists cal. split; [exact Fc |]. exists e.
      repeat split; try assumption. apply intersects_true_iff. exact I. }
  split.
  - intros x Hx. apply Hspec in Hx. destruct Hx as (cal & Fc & e & He & N & _).
    exists cal, e. repeat split; assumption.
  - intros x Hn. split; [apply Hiff; exact Hn |]. split; [| split].
    + intros Heq Hx. apply (Hiff x Hn) in Hx. destruct Hx as [G _].
      unfold gt in G. rewrite Heq in G. discriminate G.
    + intros Heq Hx. apply (Hiff x Hn) in Hx. destruct Hx as [_ L].
      unfold lt in L. rewrite Heq in L. discriminate L.
    + intros L1 L2. apply (Hiff x Hn). split; [| exact L1].
      destruct Hn as (cal & e & _ & _ & N).
      destruct (today_window_ok _ _ _ _ Hwin) as (Ts & Te & _ & _ & _ & _ & _ & Lw).
      destruct (gettz tzname) as [tz |].
      * destruct (normalizes_local _ _ _ N) as [_ Tt].
        unfold lt in L2. rewrite cmp_same_tz in L2 by congruence. simpl in L2.
        assert (B : base_compare end_ (entry_end x) = Lt)
          by (destruct (base_compare end_ (entry_end x)); congruence).
        apply base_compare_lt in B.
        pose proof (fields_lt_trans _ _ _ Lw B) as Lt'.
        apply base_compare_gt in Lt'.
        unfold gt. rewrite cmp_same_tz by congruence. simpl. rewrite Lt'.
        reflexivity.
      * exfalso. destruct (normalizes_system _ _ N) as [[o Ho] _].
        unfold lt in L1. rewrite (cmp_aware_naive _ _ _ Ho Te) in L1.
        discriminate L1.
Qed.

(** C2, as the code has it.  An event without a begin is dropped on its own,
    and with no source the agenda is empty.  Beyond that nothing is caught
    where the events are read.  With a zone name that the tz database knows,
    agenda building returns an agenda exactly when every begin and end
    timestamp of the fetched events converts to the local zone; otherwise it
    raises the [OverflowError] of a conversion.  With a zone name that the
    database does not know the window is naive and cannot be compared with
    a converted timestamp: agenda building returns, with an empty agenda,
    exactly when no fetched event has a begin; otherwise it raises the
    [OverflowError] of a conversion, or the [TypeError] of the window test
    on an event whose timestamps both convert. *)
Theorem agenda_building_raises_what_an_event_raises
    (urls : list (option string)) (tzname : string) (start end_ : datetime) :
  today_window clock (gettz tzname) = Ok (start, end_) ->
  (forall tz, gettz tzname = Some tz ->
     (is_ok (fetch_ics_events_today calendar_events clock urls tzname) = true
      <-> all_convert calendar_events (Some tz) urls) /\
     (forall err,
        fetch_ics_events_today calendar_events clock urls tzname = Raise err ->
        err = OverflowError /\
        conversion_raises calendar_events (Some tz) urls err)) /\
  (gettz tzname = None ->
     (is_ok (fetch_ics_events_today calendar_events clock urls tzname) = true
      <-> none_begins calendar_events urls) /\
     (forall agenda,
        fetch_ics_events_today calendar_events clock urls tzname = Ok agenda ->
        agenda = []) /\
     (forall err,
        fetch_ics_events_today calendar_events clock urls tzname = Raise err ->
        (err = OverflowError /\
         conversion_raises calendar_events None urls err) \/
        (err = TypeError /\ some_event_converts calendar_events None urls))) /\
  (forall cal1 e cal2 acc, ev_begin e = None ->
     scan_events (gettz tzname) start end_ (cal1 ++ e :: cal2) acc
     = scan_events (gettz tzname) start end_ (cal1 ++ cal2) acc) /\
  fetch_ics_events_today calendar_events clock [] tzname = Ok [].
Proof.
  intros Hwin.
  destruct (today_window_ok _ _ _ _ Hwin) as (Ts & Te & _).
  split; [| split; [| split]].
  - intros tz G. rewrite G in Hwin, Ts, Te.
    unfold fetch_ics_events_today. rewrite G, Hwin. cbn [bind].
    split; [split |].
    + intros H. apply is_ok_true in H. destruct H as [agenda H].
      bind_inv H. eapply scan_urls_converts. exact Ha.
    + intros Hc.
      destruct (scan_urls_total calendar_events _ _ _ urls Ts Te Hc [])
        as [events Hev].
      rewrite Hev. cbn [bind].
      destruct (sort_by_start_total tz events) as [agenda Hs].
      { eapply scan_urls_local_start. exact Hev. }
      rewrite Hs. reflexivity.
    + intros err H.
      destruct (scan_urls calendar_events (Some tz) start end_ urls [])
        as [events | e0] eqn:Hev; cbn [bind] in H.
      * exfalso. destruct (sort_by_start_total tz events) as [agenda Hs].
        { eapply scan_urls_local_start. exact Hev. }
        rewrite Hs in H. discriminate H.
      * inversion H; subst e0.
        destruct (scan_urls_raises calendar_events _ _ _ _ _ _ Hev)
          as (cal & e & b & Fc & He & Hb & [C | [C | (s & t & C1 & C2 & I)]]).
        -- split; [eapply to_local_dt_raises; exact C |].
           exists cal, e, b. repeat split; try assumption. left. exact C.
        -- split; [eapply to_local_dt_raises; exact C |].
           exists cal, e, b. repeat split; try assumption. right. exact C.
        -- exfalso.
           destruct (intersects_local tz start end_ s t Ts Te
                       (to_local_dt_tz _ _ _ C1) (to_local_dt_tz _ _ _ C2))
             as (keep & Hk & _).
           rewrite Hk in I. discriminate I.
  - intros G. rewrite G in Hwin, Ts, Te. split; [split | split].
    + intros H. apply is_ok_true in H. destruct H as [agenda H].
      apply (fetch_ics_events_today_unknown _ _ _ _ _ G H).
    + intros Hnone. unfold fetch_ics_events_today. rewrite G, Hwin. cbn [bind].
      rewrite (scan_urls_none_begins calendar_events _ _ _ _ Hnone).
      reflexivity.
    + intros agenda H.
      apply (fetch_ics_events_today_unknown _ _ _ _ _ G H).
    + unfold fetch_ics_events_today. rewrite G, Hwin. cbn [bind].
      intros err H.
      destruct (scan_urls calendar_events None start end_ urls [])
        as [events | e0] eqn:Hev; cbn [bind] in H.
      * exfalso. destruct (scan_urls_naive calendar_events _ _ _ Ts _ _ Hev)
          as [-> _].
        discriminate H.
      * inversion H; subst e0.
        destruct (scan_urls_raises calendar_events _ _ _ _ _ _ Hev)
          as (cal & e & b & Fc & He & Hb & [C | [C | (s & t & C1 & C2 & I)]]).
        -- left. split; [eapply to_local_dt_raises; exact C |].
           exists cal, e, b. repeat split; try assumption. left. exact C.
        -- left. split; [eapply to_local_dt_raises; exact C |].
           exists cal, e, b. repeat split; try assumption. right. exact C.
        -- right. destruct (to_local_dt_system _ _ C2) as [o Ho].
           rewrite (intersects_naive _ _ _ _ _ Ts Ho) in I.
           inversion I; subst err. split; [reflexivity |].
           exists cal, e, b. rewrite C1, C2. repeat split; assumption.
  - intros cal1 e cal2 acc Hb.
    rewrite !scan_events_app. simpl. rewrite Hb. reflexivity.
  - unfold fetch_ics_events_today. rewrite Hwin. reflexivity.
Qed.

(** C4.  A source whose fetch or parse fails is skipped: the agenda built
    from the sources with the failing one among them is the agenda built
    from the others alone, whatever that outcome is. *)
Theorem failing_source_is_skipped (urls1 urls2 : list (option string))
    (bad : option string) (tzname : string) (e : exn) :
  calendar_events (clean_url (PyStr.or_empty bad)) = Raise e ->
  fetch_ics_events_today calendar_events clock (urls1 ++ bad :: urls2) tzname
  = fetch_ics_events_today calendar_events clock (urls1 ++ urls2) tzname.
Proof.
  intros Hbad. unfold fetch_ics_events_today.
  destruct (today_window clock (gettz tzname)) as [[start end_] | err];
    [| reflexivity].
  cbn [bind]. rewrite !scan_urls_app. simpl. rewrite Hbad.
  destruct (negb (PyStr.truthy (clean_url (PyStr.or_empty bad)))); reflexivity.
Qed.

(** C8.  When the end of an event is absent the begin stands in for it: the
    normalized event ends when it starts, the loop tests and stores the pair
    [(s, s)], and a timed entry made this way shows a duration of 0 minutes. *)
Theorem missing_end_takes_begin (tz : option tzinfo) (start end_ : datetime)
    (e : Event) (b : timestamp) :
  ev_begin e = Some b -> ev_end e = None ->
  (forall x, normalizes tz e x -> entry_end x = entry_start x) /\
  (forall rest acc,
     scan_events tz start end_ (e :: rest) acc
     = (s <- to_local_dt tz b ;;
        keep <- intersects start end_ s s ;;
        scan_events tz start end_ rest
          (if keep
           then (acc ++ [(s, s, ev_name e, ev_all_day e, ev_location e)])%list
           else acc))) /\
  (forall s, to_local_dt tz b = Ok s ->
     format_entry (s, s, ev_name e, false, ev_location e)
     = Ok (timed_line s "0m" (ev_name e) (ev_location e))).
Proof.
  intros Hb He.
  assert (Eb : end_or_begin e b = b) by (unfold end_or_begin; now rewrite He).
  split; [| split].
  - intros x (b' & Hb' & Hs & Ht & _).
    rewrite Hb in Hb'. inversion Hb'; subst b'.
    rewrite Eb in Ht. rewrite Hs in Ht. now inversion Ht.
  - intros rest acc. simpl. rewrite Hb, Eb.
    destruct (to_local_dt tz b) as [s | err]; reflexivity.
  - intros s _. unfold format_entry.
    rewrite sub_same_tz by reflexivity. cbn [bind].
    rewrite Z.sub_diag. reflexivity.
Qed.


End AgendaClaims.

(** ** The weather text and the run *)

Lemma length_append (a b : string) :
  String.length (a ++ b) = (String.length a + String.length b)%nat.
Proof.
  induction a as [| c a IH]; simpl; [reflexivity | now rewrite IH].
Qed.

Lemma append_empty_r (a : string) : a ++ "" = a.
Proof.
  induction a as [| c a IH]; simpl; [reflexivity | now rewrite IH].
Qed.

Section WeatherFacts.
Context {F : PyFloat}.
Variable container_repr : json -> string.

Lemma bind_raises_caught {A B : Type} (r : result A) (k : A -> result B) :
  raises_caught r -> (forall a, raises_caught (k a)) -> raises_caught (bind r k).
Proof.
  intros Hr Hk e. destruct r as [a | e']; simpl.
  - apply Hk.
  - intros H. inversion H; subst. apply Hr. reflexivity.
Qed.

Lemma getitem_key_caught (v : json) (k : string) :
  raises_caught (PyJson.getitem_key v k).
Proof.
  intros e. destruct v; simpl; try (intros H; inversion H; reflexivity).
  destruct (PyJson.assoc k fields); intros H; inversion H; reflexivity.
Qed.

Lemma getitem_index_caught (v : json) (i : nat) :
  raises_caught (PyJson.getitem_index v i).
Proof.
  intros e. destruct v; simpl; try (intros H; inversion H; reflexivity).
  - destruct (nth_error (PyStr.chars s) i); intros H; inversion H; reflexivity.
  - destruct (nth_error items i); intros H; inversion H; reflexivity.
Qed.

Lemma slice_last5_caught (v : json) : raises_caught (PyJson.slice_last5 v).
Proof.
  intros e. destruct v; simpl; intros H; inversion H; reflexivity.
Qed.

Lemma day_fields_caught (data : json) (idx : nat) :
  raises_caught (day_fields data idx).
Proof.
  unfold day_fields.
  repeat (apply bind_raises_caught;
          [first [apply getitem_key_caught | apply getitem_index_caught
                 | apply slice_last5_caught] | intros ?]).
  intros e H. discriminate H.
Qed.

(** A turn of the loop either skips the day or appends a paragraph, which
    starts with a line break. *)
Lemma day_paragraph_cases (data : json) (idx : nat) (label : string) :
  (forall f, day_fields data idx = Ok f -> hashable (weather_code f)) ->
  (day_paragraph container_repr data idx label = Ok None /\
   is_ok (day_fields data idx) = false) \/
  (exists tail,
     day_paragraph container_repr data idx label = Ok (Some (nl ++ tail)) /\
     is_ok (day_fields data idx) = true).
Proof.
  intros Hh. unfold day_paragraph.
  pose proof (day_fields_caught data idx) as Hc.
  destruct (day_fields data idx) as [[[[[[tmin tmax] pp] sr] ss] wcode] | e].
  - right. specialize (Hh _ eq_refl). simpl in Hh.
    unfold wmo_get.
    destruct wcode; simpl in Hh; try contradiction; cbn [bind];
      match goal with
      | |- context [wmo_find ?v WMO_DESC] =>
          destruct (wmo_find v WMO_DESC) as [desc emo]
      end;
      eexists; split; reflexivity.
  - left. rewrite (Hc e eq_refl). split; reflexivity.
Qed.

(** The banner is not empty, so a text with the banner is not the text. *)
Lemma rain_banner_shows (msg : string) : rain_banner ++ msg <> msg.
Proof.
  intros H. apply (f_equal String.length) in H.
  rewrite length_append in H.
  assert (0 < String.length rain_banner)%nat by (vm_compute; lia).
  lia.
Qed.

Lemma at_least_50_true (pp : json) : at_least_50 pp = Ok true <-> is_high pp.
Proof.
  destruct pp; simpl; split; intros H;
    try discriminate H; try contradiction.
  - inversion H as [H']. apply Z.leb_le. exact H'.
  - f_equal. apply Z.leb_le. exact H.
  - destruct (float_compare_int x 50) as [[| |] |];
      try discriminate H; auto.
  - destruct H as [H | H]; rewrite H; reflexivity.
Qed.

Lemma at_least_50_false (pp : json) : at_least_50 pp = Ok false -> ~ is_high pp.
Proof.
  intros H Hh. apply at_least_50_true in Hh. rewrite Hh in H. discriminate H.
Qed.

Lemma at_least_50_comparable (pp : json) :
  comparable pp <-> exists b, at_least_50 pp = Ok b.
Proof.
  destruct pp; simpl; split; intros H; try exact I; try contradiction;
    try (eexists; reflexivity); destruct H as [b H]; discriminate H.
Qed.

(** A value read at an index of a string is a string. *)
Lemma getitem_index_list (a pp : json) (i : nat) :
  PyJson.getitem_index a i = Ok pp -> comparable pp ->
  exists items, a = JList items /\ nth_error items i = Some pp.
Proof.
  destruct a; simpl; intros H Hc; try discriminate H.
  - destruct (nth_error (PyStr.chars s) i); inversion H; subst.
    contradiction.
  - destruct (nth_error items i) as [x |] eqn:N; inversion H; subst.
    exists items. split; [reflexivity | exact N].
Qed.

(** The check of lines 175-177 says yes exactly when rain is expected. *)
Lemma rain_check_true (daily : json) :
  rain_check daily = Ok true <-> rain_expected daily.
Proof.
  unfold rain_check, rain_expected, probabilities. split.
  - intros H. bind_inv H. bind_inv H. bind_inv H. bind_inv H. bind_inv H.
    rename a into arr, a0 into pp_hoy, a1 into arr', a2 into pp_man,
      a3 into today.
    rewrite Ha in Ha1. inversion Ha1; subst arr'. clear Ha1.
    assert (Ch : comparable pp_hoy)
      by (apply at_least_50_comparable; eexists; exact Ha3).
    destruct (getitem_index_list _ _ _ Ha0 Ch) as (items & -> & N0).
    cbn [PyJson.getitem_index] in Ha2.
    destruct (nth_error items 1) as [x |] eqn:N1; [| discriminate Ha2].
    injection Ha2 as ->.
    destruct daily; simpl in Ha; try discriminate Ha.
    destruct (PyJson.assoc "precipitation_probability_max" fields) as [v |] eqn:A;
      [| discriminate Ha].
    injection Ha as ->.
    exists pp_hoy, pp_man. split.
    + exists fields, items. repeat split; assumption.
    + destruct today.
      * left. apply at_least_50_true. exact Ha3.
      * right. split; [exact Ch |]. apply at_least_50_true. exact H.
  - intros (pp_hoy & pp_man & (fields & items & -> & A & N0 & N1) & Hhigh).
    cbn [PyJson.getitem_key]. rewrite A. cbn [bind PyJson.getitem_index].
    rewrite N0, N1. cbn [bind].
    destruct Hhigh as [Hh | [Ch Hm]].
    + apply at_least_50_true in Hh. rewrite Hh. reflexivity.
    + apply at_least_50_comparable in Ch. destruct Ch as [b Hb].
      rewrite Hb. cbn [bind]. destruct b; [reflexivity |].
      apply at_least_50_true. exact Hm.
Qed.

End WeatherFacts.

Section WeatherClaims.
Context {F : PyFloat}.
Variable container_repr : json -> string.

(** C10, as the code has it.  When no day whose six fields can be read has a
    list or a dict as its weather code, the weather text is returned without
    error and begins with the header that shows the city; what follows the
    header is empty or starts a new line, and it is empty when both days are
    skipped.  (A list or a dict as weather code makes the lookup in
    [WMO_DESC] raise outside the [try].) *)
Theorem weather_text_begins_with_header (city_shown : string) (data : json) :
  (forall idx f, (idx < 2)%nat -> day_fields data idx = Ok f ->
     hashable (weather_code f)) ->
  exists rest,
    nice_weather_text_2days container_repr city_shown data
    = Ok (weather_header city_shown ++ rest) /\
    (rest = "" \/ exists tail, rest = nl ++ tail) /\
    (is_ok (day_fields data 0) = false -> is_ok (day_fields data 1) = false ->
     rest = "").
Proof.
  intros Hh. unfold nice_weather_text_2days.
  destruct (day_paragraph_cases container_repr data 0 "Hoy")
    as [[P0 K0] | (t0 & P0 & K0)];
    [intros f; apply Hh; lia | |];
    (destruct (day_paragraph_cases container_repr data 1 "Mañana")
      as [[P1 K1] | (t1 & P1 & K1)];
     [intros f; apply Hh; lia | |]);
    cbn [day_loop bind]; rewrite P0; cbn [bind]; rewrite P1;
    cbn [bind app PyStr.join String.concat].
  - exists "". rewrite append_empty_r. repeat split; auto.
  - eexists. split; [reflexivity |]. split; [right; eexists; reflexivity |].
    intros _ K. rewrite K in K1. discriminate K1.
  - eexists. split; [reflexivity |]. split; [right; eexists; reflexivity |].
    intros K. rewrite K in K0. discriminate K0.
  - eexists. split; [reflexivity |]. split; [right; eexists; reflexivity |].
    intros K. rewrite K in K0. discriminate K0.
Qed.

End WeatherClaims.

Section RunClaims.
Context {tzdata : TzData} {F : PyFloat}.
Variable container_repr : json -> string.
Variable w : World.

Lemma run_steps (chat : list string) :
  run container_repr w chat
  = match assemble container_repr w with
    | Raise e => (Raise e, chat)
    | Ok (daily, msg) =>
        match send_telegram w msg chat with
        | (Ok _, chat1) => send_telegram w (with_rain_banner daily msg) chat1
        | (Raise e, chat1) => (Raise e, chat1)
        end
    end.
Proof.
  unfold run, chat_bind, chat_lift.
  destruct (assemble container_repr w) as [[daily msg] | e]; reflexivity.
Qed.

Lemma send_telegram_posts (text : string) (chat chat' : list string) (u : unit) :
  send_telegram w text chat = (Ok u, chat') -> chat' = (chat ++ [text])%list.
Proof.
  unfold send_telegram.
  destruct (negb (PyStr.truthy_opt (BOT_TOKEN w) && PyStr.truthy_opt (CHAT_ID w)));
    [intros H; discriminate H |].
  destruct (bot_send_message w chat text); intros H; inversion H; reflexivity.
Qed.

(** C3, as the code has it: a run that succeeds has posted two texts, the
    assembled message and then the same message with the rain banner in front
    when the check asks for it.  The claim of a single send does not hold. *)
Theorem run_posts_the_message_twice (chat chat' : list string) :
  run container_repr w chat = (Ok tt, chat') ->
  exists daily msg,
    assemble container_repr w = Ok (daily, msg) /\
    chat' = (chat ++ [msg; with_rain_banner daily msg])%list.
Proof.
  rewrite run_steps.
  destruct (assemble container_repr w) as [[daily msg] | e];
    [| intros H; discriminate H].
  destruct (send_telegram w msg chat) as [[u | e] chat1] eqn:S1;
    [| intros H; discriminate H].
  intros S2. exists daily, msg. split; [reflexivity |].
  apply send_telegram_posts in S1. apply send_telegram_posts in S2.
  subst chat1 chat'. rewrite <- app_assoc. reflexivity.
Qed.

(** C9, as the code has it.  The text of the final send carries the rain
    banner in front exactly when both probabilities can be read from the
    forecast and the one of today is a number at least 50, or the one of
    today is [None] or a number and the one of tomorrow is a number at least
    50.  In every other case the text is the message as it was: a
    probability of 80 for today gives no banner when the value of tomorrow
    is missing, or when 80 is written as a string.  An exception raised
    while the check is evaluated means no banner, and the final send is
    attempted whatever the check did. *)
Theorem rain_banner_rule (daily : json) (msg : string) :
  (with_rain_banner daily msg = rain_banner ++ msg <-> rain_expected daily) /\
  (with_rain_banner daily msg = msg <-> ~ rain_expected daily) /\
  (forall e, rain_check daily = Raise e -> with_rain_banner daily msg = msg) /\
  (forall chat, assemble container_repr w = Ok (daily, msg) ->
     run container_repr w chat
     = (_ <~ send_telegram w msg ;;
        send_telegram w (with_rain_banner daily msg)) chat).
Proof.
  pose proof (rain_check_true daily) as T.
  split; [| split; [| split]].
  - unfold with_rain_banner. rewrite <- T.
    destruct (rain_check daily) as [[|] | e]; split; intros H;
      try reflexivity; try discriminate H;
      exfalso; symmetry in H; exact (rain_banner_shows msg H).
  - unfold with_rain_banner. rewrite <- T.
    destruct (rain_check daily) as [[|] | e]; split; intros H;
      try reflexivity; try (intros X; discriminate X).
    + exfalso. exact (rain_banner_shows msg H).
    + exfalso. apply H. reflexivity.
  - intros e H. unfold with_rain_banner. rewrite H. reflexivity.
  - intros chat Ha. rewrite run_steps, Ha. unfold chat_bind.
    destruct (send_telegram w msg chat) as [[u | e] chat1]; reflexivity.
Qed.

End RunClaims.

(** ** The properties on concrete inputs *)

#[local] Existing Instance Sample.tzdata.

(** The window of 2024-05-20 12:30 in Cordoba. *)
Lemma today_window_on_sample :
  exists start end_,
    today_window (tzdata := Sample.tzdata) Sample.clock (gettz Sample.cordoba)
    = Ok (start, end_) /\
    sub (tzdata := Sample.tzdata) end_ start = Ok (24 * US_PER_HOUR) /\
    hour start = 0 /\ minute start = 0 /\ second start = 0 /\
    microsecond start = 0 /\
    tzinfo_of start = gettz Sample.cordoba /\
    ordinal start = ordinal (Sample.local Sample.may20 12 30).
Proof.
  apply (today_window_spans_one_day (tzdata := Sample.tzdata)).
  - vm_compute. reflexivity.
  - vm_compute. reflexivity.
Defined.

(** A naive 11:00 is converted as 11:00 UTC is. *)
Lemma naive_begin_on_sample :
  to_local_dt (tzdata := Sample.tzdata) (gettz Sample.cordoba)
    (Plain (Sample.naive Sample.may20 11 0))
  = now (tzdata := Sample.tzdata) (gettz Sample.cordoba)
      (wall (datetime_of (Plain (Sample.naive Sample.may20 11 0)))).
Proof.
  apply (proj2 (proj1 (to_local_dt_reads_naive_as_utc (tzdata := Sample.tzdata)
                         (tzfile Sample.cordoba)
                         (Plain (Sample.naive Sample.may20 11 0)))
                  eq_refl)).
  discriminate.
Defined.

(** The agenda of the sample sources, against the window test. *)
Lemma agenda_on_sample :
  (forall x, In x Sample.agenda ->
     normalized_from (tzdata := Sample.tzdata) Sample.calendar_events
       (gettz Sample.cordoba) Sample.urls x) /\
  (forall x,
     normalized_from (tzdata := Sample.tzdata) Sample.calendar_events
       (gettz Sample.cordoba) Sample.urls x ->
     (In x Sample.agenda <->
      gt (tzdata := Sample.tzdata) (entry_end x) Sample.window_start = Ok true /\
      lt (tzdata := Sample.tzdata) (entry_start x) Sample.window_end = Ok true) /\
     (cmp (tzdata := Sample.tzdata) (entry_end x) Sample.window_start = Ok Eq ->
      ~ In x Sample.agenda) /\
     (cmp (tzdata := Sample.tzdata) (entry_start x) Sample.window_end = Ok Eq ->
      ~ In x Sample.agenda) /\
     (lt (tzdata := Sample.tzdata) (entry_start x) Sample.window_end = Ok true ->
      lt (tzdata := Sample.tzdata) Sample.window_end (entry_end x) = Ok true ->
      In x Sample.agenda)).
Proof.
  apply (agenda_keeps_events_meeting_the_window (tzdata := Sample.tzdata)
           Sample.calendar_events Sample.clock Sample.urls Sample.cordoba).
  - vm_compute. reflexivity.
  - vm_compute. reflexivity.
Defined.

(** The sample sources convert, so their agenda is built; under the zone
    name that the database does not know an agenda can only be empty. *)
Lemma agenda_building_on_sample :
  ((is_ok (fetch_ics_events_today (tzdata := Sample.tzdata)
             Sample.calendar_events Sample.clock Sample.urls Sample.cordoba)
    = true <->
    all_convert (tzdata := Sample.tzdata) Sample.calendar_events
      (Some (tzfile Sample.cordoba)) Sample.urls) /\
   (forall err,
      fetch_ics_events_today (tzdata := Sample.tzdata) Sample.calendar_events
        Sample.clock Sample.urls Sample.cordoba = Raise err ->
      err = OverflowError /\
      conversion_raises (tzdata := Sample.tzdata) Sample.calendar_events
        (Some (tzfile Sample.cordoba)) Sample.urls err)) /\
  (forall agenda,
     fetch_ics_events_today (tzdata := Sample.tzdata) Sample.calendar_events
       Sample.clock Sample.urls Sample.unknown = Ok agenda ->
     agenda = []).
Proof.
  split.
  - refine (proj1 (agenda_building_raises_what_an_event_raises
                     (tzdata := Sample.tzdata) Sample.calendar_events
                     Sample.clock Sample.urls Sample.cordoba
                     Sample.window_start Sample.window_end _)
              (tzfile Sample.cordoba) _);
      vm_compute; reflexivity.
  - refine (proj1 (proj2 (proj1 (proj2
              (agenda_building_raises_what_an_event_raises
                 (tzdata := Sample.tzdata) Sample.calendar_events
                 Sample.clock Sample.urls Sample.unknown
                 (Sample.naive Sample.may20 0 0)
                 (Sample.naive (Sample.may20 + 1) 0 0) _)) _)));
      vm_compute; reflexivity.
Defined.

(** C2 fails on the code: a calendar that is fetched and parsed, with an
    event that begins at 0001-01-01 00:00 UTC.  Three hours west of UTC that
    instant is before the first datetime, its conversion raises
    [OverflowError], and the error leaves [fetch_ics_events_today] instead of
    dropping the event. *)
Lemma conversion_error_aborts_agenda :
  Sample.calendar_events "https://example.org/old.ics"
  = Ok [Sample.meeting; Sample.ancient] /\
  to_local_dt (tzdata := Sample.tzdata) (gettz Sample.cordoba)
    (Arrow (Sample.utc 1 0 0)) = Raise OverflowError /\
  fetch_ics_events_today (tzdata := Sample.tzdata) Sample.calendar_events
    Sample.clock [Some "https://example.org/old.ics"] Sample.cordoba
  = Raise OverflowError.
Proof. repeat split; vm_compute; reflexivity. Qed.

(** Under the zone name that the database does not know the window is naive,
    and the first event that has a begin (here both its timestamps convert,
    to the system's zone) makes the window test raise [TypeError]. *)
Example unknown_zone_raises_type_error :
  gettz (TzData := Sample.tzdata) Sample.unknown = None /\
  today_window (tzdata := Sample.tzdata) Sample.clock None
  = Ok (Sample.naive Sample.may20 0 0, Sample.naive (Sample.may20 + 1) 0 0) /\
  is_ok (to_local_dt (tzdata := Sample.tzdata) None
           (Arrow (Sample.utc Sample.may20 15 0))) = true /\
  fetch_ics_events_today (tzdata := Sample.tzdata) Sample.calendar_events
    Sample.clock [Some "https://example.org/b.ics"] Sample.unknown
  = Raise TypeError.
Proof. repeat split; vm_compute; reflexivity. Qed.

(** The source that cannot be fetched leaves the sample agenda unchanged. *)
Lemma failing_source_on_sample :
  fetch_ics_events_today (tzdata := Sample.tzdata) Sample.calendar_events
    Sample.clock
    ([Some " 'https://example.org/a.ics' "]
     ++ Some "https://example.org/down.ics" :: [None]) Sample.cordoba
  = fetch_ics_events_today (tzdata := Sample.tzdata) Sample.calendar_events
      Sample.clock ([Some " 'https://example.org/a.ics' "] ++ [None])
      Sample.cordoba.
Proof.
  apply (failing_source_is_skipped (tzdata := Sample.tzdata)
           Sample.calendar_events Sample.clock _ _ _ _ RequestException).
  vm_compute. reflexivity.
Defined.

(** The sample event without an end. *)
Lemma missing_end_on_sample :
  (forall x,
     normalizes (tzdata := Sample.tzdata) (gettz Sample.cordoba)
       Sample.instant x ->
     entry_end x = entry_start x) /\
  (forall rest acc,
     scan_events (tzdata := Sample.tzdata) (gettz Sample.cordoba)
       Sample.window_start Sample.window_end (Sample.instant :: rest) acc
     = (s <- to_local_dt (tzdata := Sample.tzdata) (gettz Sample.cordoba)
               (Plain (Sample.naive Sample.may20 11 0)) ;;
        keep <- intersects (tzdata := Sample.tzdata)
                  Sample.window_start Sample.window_end s s ;;
        scan_events (tzdata := Sample.tzdata) (gettz Sample.cordoba)
          Sample.window_start Sample.window_end rest
          (if keep
           then (acc ++ [(s, s, Some "Aviso", false, None)])%list
           else acc))) /\
  (forall s,
     to_local_dt (tzdata := Sample.tzdata) (gettz Sample.cordoba)
       (Plain (Sample.naive Sample.may20 11 0)) = Ok s ->
     format_entry (tzdata := Sample.tzdata) (s, s, Some "Aviso", false, None)
     = Ok (timed_line s "0m" (Some "Aviso") None)).
Proof.
  apply (missing_end_takes_begin (tzdata := Sample.tzdata)
           (gettz Sample.cordoba) Sample.window_start Sample.window_end
           Sample.instant (Plain (Sample.naive Sample.may20 11 0)));
    reflexivity.
Defined.



(** The duration is counted on a float: from the local midnight to the last
    microsecond a datetime can hold there are 69912815 hours, 59 minutes and
    59.999999 seconds; [total_seconds()] rounds them to 69912816 whole hours,
    and that is what the line shows. *)
Example long_event_is_rounded_up :
  fetch_ics_events_today (tzdata := Sample.tzdata) Sample.calendar_events
    Sample.clock [Some "https://example.org/era.ics"] Sample.cordoba
  = Ok [Sample.endless_entry] /\
  format_entry (tzdata := Sample.tzdata) Sample.endless_entry
  = Ok "00:00 (69912816h 0m) — *Era*" /\
  (wall Sample.last_instant - wall (Sample.local Sample.may20 0 0))
  / US_PER_MINUTE = 69912815 * 60 + 59 /\
  wall Sample.last_instant - wall (Sample.local Sample.may20 0 0)
  = 69912816 * 60 * US_PER_MINUTE - 1 /\
  2 ^ 35 <= 60 * (69912816 * 60) < 2 ^ 47.
Proof. repeat split; vm_compute; (reflexivity || discriminate). Qed.

(** The sample forecast has integer weather codes. *)
Lemma weather_text_on_sample :
  exists rest,
    nice_weather_text_2days Sample.no_containers "Agua de Oro" Sample.daily
    = Ok (weather_header "Agua de Oro" ++ rest) /\
    (rest = "" \/ exists tail, rest = nl ++ tail) /\
    (is_ok (day_fields Sample.daily 0) = false ->
     is_ok (day_fields Sample.daily 1) = false -> rest = "").
Proof.
  apply (weather_text_begins_with_header Sample.no_containers).
  intros idx f Hidx Hf.
  destruct idx as [| [| idx]]; [| | lia];
    apply (returned_value (fun f => hashable (weather_code f)) _ _ Hf);
    vm_compute; exact I.
Defined.

(** C10 fails on the code: a forecast whose weather codes are arrays.  All six
    fields of a day are read inside the [try]; the lookup of the code, outside
    of it, raises [TypeError] and no text is returned. *)
Lemma array_weather_code_raises :
  is_ok (day_fields Sample.daily_with_array_codes 0) = true /\
  nice_weather_text_2days Sample.no_containers "Agua de Oro"
    Sample.daily_with_array_codes
  = Raise TypeError.
Proof. split; vm_compute; reflexivity. Qed.

(** A run in the sample world posts its message two times. *)
Lemma run_posts_twice_on_sample :
  exists daily msg,
    assemble (tzdata := Sample.tzdata) Sample.no_containers Sample.world
    = Ok (daily, msg) /\
    [Sample.message; Sample.message]
    = ([] ++ [msg; with_rain_banner daily msg])%list.
Proof.
  apply (run_posts_the_message_twice (tzdata := Sample.tzdata)
           Sample.no_containers Sample.world [] [Sample.message; Sample.message]).
  vm_compute. reflexivity.
Defined.

(** The rain banner on sample forecasts: it is there with no value for
    today and 70 percent for tomorrow, and it is not there when the list of
    probabilities is too short to be read. *)
Lemma rain_banner_on_sample :
  with_rain_banner Sample.daily_rainy Sample.message
  = rain_banner ++ Sample.message /\
  with_rain_banner Sample.daily_short Sample.message = Sample.message.
Proof.
  split.
  - apply (proj1 (rain_banner_rule Sample.no_containers Sample.world
                    Sample.daily_rainy Sample.message)).
    exists JNull, (JInt 70). split.
    + eexists. eexists. repeat split; reflexivity.
    + right. split; [exact I | simpl; lia].
  - apply (proj1 (proj2 (proj2 (rain_banner_rule Sample.no_containers
                                  Sample.world Sample.daily_short
                                  Sample.message))) IndexError).
    vm_compute. reflexivity.
Defined.

(** C9 fails on the code: the probability of today is 80, present and at
    least 50, and the forecast has no value for tomorrow.  Reading the value
    of tomorrow raises [IndexError] before anything is compared, and the
    message goes out without banner.  The same holds when the 80 of today is
    a string and tomorrow has 90: the comparison of the string raises
    [TypeError]. *)
Lemma high_probability_without_banner :
  PyJson.getitem_key Sample.daily_short "precipitation_probability_max"
  = Ok (JList [JInt 80]) /\
  is_high (F := Sample.whole_floats) (JInt 80) /\
  rain_check Sample.daily_short = Raise IndexError /\
  with_rain_banner Sample.daily_short Sample.message = Sample.message /\
  with_rain_banner Sample.daily_short Sample.message
  <> rain_banner ++ Sample.message /\
  is_high (F := Sample.whole_floats) (JInt 90) /\
  rain_check Sample.daily_text = Raise TypeError /\
  with_rain_banner Sample.daily_text Sample.message = Sample.message.
Proof.
  repeat split; try (vm_compute; reflexivity); try (simpl; lia).
  vm_compute. discriminate.
Qed.

(** * Further properties *)

(** ** The order of the agenda *)

Section OrderFacts.
Context {tzdata : TzData}.
Variable calendar_events : string -> result (list Event).
Variable clock : Z.

Lemma lt_same_tz (a b : datetime) :
  tzinfo_of a = tzinfo_of b ->
  lt a b = Ok match base_compare a b with Lt => true | _ => false end.
Proof.
  intros H. unfold lt. rewrite cmp_same_tz by exact H. reflexivity.
Qed.

Lemma base_compare_same (a b : datetime) :
  base_compare a b = Eq <->
  ordinal a = ordinal b /\ hour a = hour b /\ minute a = minute b /\
  second a = second b /\ microsecond a = microsecond b.
Proof.
  unfold base_compare, lex.
  destruct (Z.compare_spec (ordinal a) (ordinal b));
    destruct (Z.compare_spec (hour a) (hour b));
    destruct (Z.compare_spec (minute a) (minute b));
    destruct (Z.compare_spec (second a) (second b));
    destruct (Z.compare_spec (microsecond a) (microsecond b));
    split; intros; try discriminate; try reflexivity; lia.
Qed.

(** Two entries in the class of one start are not strictly ordered. *)
Lemma same_start_not_before (k : datetime) (x y : entry) :
  same_start k x = true -> same_start k y = true ->
  ~ fields_lt (entry_start y) (entry_start x).
Proof.
  unfold same_start. intros Hx Hy.
  destruct (base_compare (entry_start x) k) eqn:Ex; try discriminate Hx.
  destruct (base_compare (entry_start y) k) eqn:Ey; try discriminate Hy.
  apply base_compare_same in Ex. apply base_compare_same in Ey.
  unfold fields_lt. lia.
Qed.

Lemma starts_no_later_trans (a b c : entry) :
  starts_no_later a b -> starts_no_later b c -> starts_no_later a c.
Proof. unfold starts_no_later, fields_lt. lia. Qed.

Lemma insert_by_start_sorted (tz : tzinfo) (x : entry) (l : list entry) :
  tzinfo_of (entry_start x) = Some tz ->
  Forall (fun y => tzinfo_of (entry_start y) = Some tz) l ->
  StronglySorted starts_no_later l ->
  forall r, insert_by_start x l = Ok r -> StronglySorted starts_no_later r.
Proof.
  intros Hx. induction l as [| y l' IH]; simpl; intros Hl Hs r H.
  - inversion H; subst. constructor; constructor.
  - inversion Hl as [| ? ? Hy Hl']; subst.
    inversion Hs as [| ? ? Hs' Hall]; subst.
    rewrite lt_same_tz in H by congruence. cbn [bind] in H.
    destruct (base_compare (entry_start y) (entry_start x)) eqn:B.
    + inversion H; subst. constructor; [exact Hs |].
      assert (Hxy : starts_no_later x y).
      { unfold starts_no_later. intros L. apply base_compare_lt in L.
        rewrite L in B. discriminate B. }
      constructor; [exact Hxy |].
      eapply Forall_impl; [| exact Hall].
      intros z Hz. eapply starts_no_later_trans; eassumption.
    + bind_inv H. inversion H; subst.
      constructor; [apply IH; assumption |].
      eapply Permutation_Forall; [apply insert_by_start_perm; exact Ha |].
      constructor; [| exact Hall].
      apply base_compare_lt in B. unfold starts_no_later.
      revert B. unfold fields_lt. lia.
    + inversion H; subst. constructor; [exact Hs |].
      assert (Hxy : starts_no_later x y).
      { unfold starts_no_later. intros L. apply base_compare_lt in L.
        rewrite L in B. discriminate B. }
      constructor; [exact Hxy |].
      eapply Forall_impl; [| exact Hall].
      intros z Hz. eapply starts_no_later_trans; eassumption.
Qed.

Lemma sort_by_start_sorted (tz : tzinfo) (l : list entry) :
  Forall (fun y => tzinfo_of (entry_start y) = Some tz) l ->
  forall r, sort_by_start l = Ok r -> StronglySorted starts_no_later r.
Proof.
  induction l as [| x l' IH]; simpl; intros Hl r H.
  - inversion H; subst. constructor.
  - inversion Hl as [| ? ? Hx Hl']; subst. bind_inv H.
    eapply (insert_by_start_sorted tz); [exact Hx | | | exact H].
    + eapply Permutation_Forall; [apply sort_by_start_perm; exact Ha |].
      exact Hl'.
    + apply IH; assumption.
Qed.

Lemma insert_by_start_stable (tz : tzinfo) (k : datetime) (x : entry)
    (l : list entry) :
  tzinfo_of (entry_start x) = Some tz ->
  Forall (fun y => tzinfo_of (entry_start y) = Some tz) l ->
  forall r, insert_by_start x l = Ok r ->
  filter (same_start k) r = filter (same_start k) (x :: l).
Proof.
  intros Hx. induction l as [| y l' IH]; intros Hl r H.
  - simpl in H. inversion H; subst. reflexivity.
  - inversion Hl as [| ? ? Hy Hl']; subst.
    simpl in H. rewrite lt_same_tz in H by congruence. cbn [bind] in H.
    destruct (base_compare (entry_start y) (entry_start x)) eqn:B;
      try (inversion H; subst; reflexivity).
    bind_inv H. inversion H; subst. clear H.
    apply base_compare_lt in B.
    cbn [filter]. rewrite (IH Hl' _ Ha). cbn [filter].
    destruct (same_start k y) eqn:Sy; [| reflexivity].
    destruct (same_start k x) eqn:Sx; [| reflexivity].
    exfalso. exact (same_start_not_before k x y Sx Sy B).
Qed.

Lemma sort_by_start_stable (tz : tzinfo) (k : datetime) (l : list entry) :
  Forall (fun y => tzinfo_of (entry_start y) = Some tz) l ->
  forall r, sort_by_start l = Ok r ->
  filter (same_start k) r = filter (same_start k) l.
Proof.
  induction l as [| x l' IH]; simpl; intros Hl r H.
  - inversion H; subst. reflexivity.
  - inversion Hl as [| ? ? Hx Hl']; subst. bind_inv H.
    rewrite (insert_by_start_stable tz k x a Hx) with (r := r);
      [| | exact H].
    + cbn [filter]. rewrite (IH Hl' _ Ha). reflexivity.
    + eapply Permutation_Forall; [apply sort_by_start_perm; exact Ha |].
      exact Hl'.
Qed.

(** X1.  The agenda is in ascending order of start: no entry starts later than an
    entry that follows it (line 135). *)
Theorem agenda_is_sorted_by_start (urls : list (option string))
    (tzname : string) (agenda : list entry) :
  fetch_ics_events_today calendar_events clock urls tzname = Ok agenda ->
  StronglySorted starts_no_later agenda.
Proof.
  intros H. destruct (gettz tzname) as [tz |] eqn:G.
  - unfold fetch_ics_events_today in H. rewrite G in H. bind_inv H.
    destruct a as [start end_]. bind_inv H.
    eapply sort_by_start_sorted; [| exact H].
    eapply scan_urls_local_start. exact Ha0.
  - destruct (fetch_ics_events_today_unknown _ _ _ _ _ G H) as [-> _].
    constructor.
Qed.

(** X2.  The sort of line 135 is stable: the entries that share a start stand in
    the agenda in the order in which the loops over the URLs and their
    events met them. *)
Theorem agenda_keeps_discovery_order_of_equal_starts
    (urls : list (option string)) (tzname : string) (start end_ : datetime)
    (agenda : list entry) :
  today_window clock (gettz tzname) = Ok (start, end_) ->
  fetch_ics_events_today calendar_events clock urls tzname = Ok agenda ->
  exists events,
    scan_urls calendar_events (gettz tzname) start end_ urls [] = Ok events /\
    Permutation events agenda /\
    forall k, filter (same_start k) agenda = filter (same_start k) events.
Proof.
  intros Hwin Hfetch. destruct (gettz tzname) as [tz |] eqn:G.
  - unfold fetch_ics_events_today in Hfetch.
    rewrite G, Hwin in Hfetch. cbn [bind] in Hfetch.
    bind_inv Hfetch. exists a. split; [exact Ha |].
    split; [apply sort_by_start_perm; exact Hfetch |].
    intros k. eapply sort_by_start_stable; [| exact Hfetch].
    eapply scan_urls_local_start. exact Ha.
  - destruct (fetch_ics_events_today_unknown _ _ _ _ _ G Hfetch)
      as [-> Hnone].
    exists []. split; [| split; [constructor | reflexivity]].
    apply scan_urls_none_begins. exact Hnone.
Qed.

Lemma scan_events_acc (tz : option tzinfo) (start end_ : datetime)
    (cal : list Event) :
  forall acc,
    scan_events tz start end_ cal acc
    = (evs <- scan_events tz start end_ cal [] ;; Ok (acc ++ evs)%list).
Proof.
  induction cal as [| e rest IH]; simpl; intros acc.
  - rewrite app_nil_r. reflexivity.
  - destruct (ev_begin e) as [b |]; [| apply IH].
    destruct (to_local_dt tz b) as [s | err]; simpl; [| reflexivity].
    destruct (to_local_dt tz (end_or_begin e b)) as [t | err]; simpl;
      [| reflexivity].
    destruct (intersects start end_ s t) as [keep | err]; simpl;
      [| reflexivity].
    rewrite IH. rewrite (IH (if keep then _ else _)).
    destruct (scan_events tz start end_ rest []) as [evs | err]; simpl;
      [| reflexivity].
    destruct keep; simpl; [rewrite <- app_assoc |]; reflexivity.
Qed.

Lemma scan_urls_acc (tz : option tzinfo) (start end_ : datetime)
    (urls : list (option string)) :
  forall acc,
    scan_urls calendar_events tz start end_ urls acc
    = (evs <- scan_urls calendar_events tz start end_ urls [] ;;
       Ok (acc ++ evs)%list).
Proof.
  induction urls as [| raw rest IH]; simpl; intros acc.
  - rewrite app_nil_r. reflexivity.
  - destruct (negb (PyStr.truthy (clean_url (PyStr.or_empty raw)))); [apply IH |].
    destruct (calendar_events (clean_url (PyStr.or_empty raw))) as [cal | err];
      [| apply IH].
    rewrite (scan_events_acc tz start end_ cal acc).
    destruct (scan_events tz start end_ cal []) as [evs | err]; simpl;
      [| reflexivity].
    rewrite IH. rewrite (IH evs).
    destruct (scan_urls calendar_events tz start end_ rest []) as [more | err];
      simpl; [rewrite <- app_assoc |]; reflexivity.
Qed.

(** X3.  Sources compose: the agenda of two lists of URLs put together holds the
    entries of the agenda of the first and of the agenda of the second, each
    as often as there, and both of these are built without error. *)
Theorem agenda_of_joined_sources (urls1 urls2 : list (option string))
    (tzname : string) (agenda : list entry) :
  fetch_ics_events_today calendar_events clock (urls1 ++ urls2) tzname
  = Ok agenda ->
  exists agenda1 agenda2,
    fetch_ics_events_today calendar_events clock urls1 tzname = Ok agenda1 /\
    fetch_ics_events_today calendar_events clock urls2 tzname = Ok agenda2 /\
    Permutation agenda (agenda1 ++ agenda2).
Proof.
  intros Hfetch. destruct (gettz tzname) as [tz |] eqn:G.
  - revert Hfetch. unfold fetch_ics_events_today. rewrite G.
    destruct (today_window clock (Some tz)) as [[start end_] | err];
      cbn [bind]; [| intros H; discriminate H].
    intros H. bind_inv H. rename a into events.
    rewrite scan_urls_app in Ha. bind_inv Ha. rename a into events1.
    rewrite scan_urls_acc in Ha. bind_inv Ha. rename a into events2.
    inversion Ha; subst events. clear Ha.
    destruct (sort_by_start_total tz events1) as [agenda1 S1];
      [eapply scan_urls_local_start; exact Ha0 |].
    destruct (sort_by_start_total tz events2) as [agenda2 S2];
      [eapply scan_urls_local_start; exact Ha1 |].
    exists agenda1, agenda2. rewrite Ha0, Ha1. cbn [bind].
    split; [exact S1 |]. split; [exact S2 |].
    apply perm_trans with (events1 ++ events2)%list.
    + apply Permutation_sym. apply sort_by_start_perm. exact H.
    + apply Permutation_app; apply sort_by_start_perm; assumption.
  - destruct (fetch_ics_events_today_unknown _ _ _ _ _ G Hfetch)
      as [-> Hnone].
    assert (N1 : none_begins calendar_events urls1).
    { intros cal e (raw & Hin & T & C). apply Hnone.
      exists raw. repeat split; try assumption.
      apply in_or_app. left. exact Hin. }
    assert (N2 : none_begins calendar_events urls2).
    { intros cal e (raw & Hin & T & C). apply Hnone.
      exists raw. repeat split; try assumption.
      apply in_or_app. right. exact Hin. }
    exists [], []. revert Hfetch. unfold fetch_ics_events_today.
    destruct (today_window clock (gettz tzname)) as [[start end_] | err];
      cbn [bind]; [| intros H; discriminate H].
    intros _.
    rewrite (scan_urls_none_begins calendar_events _ _ _ _ N1).
    rewrite (scan_urls_none_begins calendar_events _ _ _ _ N2).
    repeat split; constructor.
Qed.

End OrderFacts.

(** ** The window, the normalizer and the agenda text *)

Section WindowAndTextFacts.
Context {tzdata : TzData}.
Variable calendar_events : string -> result (list Event).
Variable clock : Z.

Lemma of_wall_valid_time (w : Z) (tz : option tzinfo) (fo : bool) (d : datetime) :
  of_wall w tz fo = Ok d -> valid_time d.
Proof.
  unfold of_wall.
  destruct ((1 <=? w / US_PER_DAY) && (w / US_PER_DAY <=? MAXORDINAL));
    intros H; inversion H; subst; clear H.
  unfold valid_time; simpl.
  repeat split; try (apply Z.mod_pos_bound; unfold US_PER_SECOND; lia).
Qed.

Lemma now_valid_time (tz : option tzinfo) (n : datetime) :
  now tz clock = Ok n -> valid_time n.
Proof.
  unfold now. destruct tz as [tz |]; intros H.
  - bind_inv H. destruct tz as [| o | name | o]; simpl in H.
    + inversion H; subst. eapply of_wall_valid_time. exact Ha.
    + eapply of_wall_valid_time. exact H.
    + destruct (zone_fromutc name (wall a)) as [o fo].
      eapply of_wall_valid_time. exact H.
    + eapply of_wall_valid_time. exact H.
  - destruct (system_fromutc clock) as [o fo].
    eapply of_wall_valid_time. exact H.
Qed.

(** X4.  The window of lines 101-102 holds the present: [now] is not before the
    start and is before the end, as Python compares them; and the end is the
    local midnight of the next day. *)
Theorem today_window_holds_now (tz : option tzinfo) (n start end_ : datetime) :
  now tz clock = Ok n ->
  today_window clock tz = Ok (start, end_) ->
  lt n start = Ok false /\ lt n end_ = Ok true /\
  ordinal start = ordinal n /\ ordinal end_ = ordinal n + 1 /\
  hour end_ = 0 /\ minute end_ = 0 /\ second end_ = 0 /\ microsecond end_ = 0.
Proof.
  intros Hnow Hwin.
  pose proof (now_valid_time _ _ Hnow) as (Vh & Vm & Vs & Vu).
  pose proof (now_ok _ _ _ Hnow) as [Tn _].
  unfold today_window in Hwin. rewrite Hnow in Hwin. cbn [bind] in Hwin.
  bind_inv Hwin. inversion Hwin; subst start end_. clear Hwin.
  unfold add, of_wall in Ha.
  set (start := replace_time n 0 0 0 0) in *.
  assert (Hw : wall start + timedelta_days 1 = (ordinal n + 1) * US_PER_DAY).
  { unfold start, wall, timedelta_days, US_PER_DAY, US_PER_HOUR, US_PER_MINUTE,
      US_PER_SECOND. simpl. lia. }
  rewrite Hw in Ha.
  assert (Hd : (ordinal n + 1) * US_PER_DAY / US_PER_DAY = ordinal n + 1)
    by (apply Z.div_mul; unfold US_PER_DAY, US_PER_HOUR, US_PER_MINUTE,
          US_PER_SECOND; lia).
  assert (Hh : ((ordinal n + 1) * US_PER_DAY / US_PER_HOUR) mod 24 = 0).
  { replace ((ordinal n + 1) * US_PER_DAY)
      with ((ordinal n + 1) * 24 * US_PER_HOUR) by (unfold US_PER_DAY; lia).
    rewrite Z.div_mul by (unfold US_PER_HOUR, US_PER_MINUTE, US_PER_SECOND; lia).
    apply Z.mod_mul. lia. }
  assert (Hm : ((ordinal n + 1) * US_PER_DAY / US_PER_MINUTE) mod 60 = 0).
  { replace ((ordinal n + 1) * US_PER_DAY)
      with ((ordinal n + 1) * 24 * 60 * US_PER_MINUTE)
      by (unfold US_PER_DAY, US_PER_HOUR; lia).
    rewrite Z.div_mul by (unfold US_PER_MINUTE, US_PER_SECOND; lia).
    apply Z.mod_mul. lia. }
  assert (Hs : ((ordinal n + 1) * US_PER_DAY / US_PER_SECOND) mod 60 = 0).
  { replace ((ordinal n + 1) * US_PER_DAY)
      with ((ordinal n + 1) * 24 * 60 * 60 * US_PER_SECOND)
      by (unfold US_PER_DAY, US_PER_HOUR, US_PER_MINUTE; lia).
    rewrite Z.div_mul by (unfold US_PER_SECOND; lia).
    apply Z.mod_mul. lia. }
  assert (Hu : ((ordinal n + 1) * US_PER_DAY) mod US_PER_SECOND = 0).
  { replace ((ordinal n + 1) * US_PER_DAY)
      with ((ordinal n + 1) * 24 * 60 * 60 * US_PER_SECOND)
      by (unfold US_PER_DAY, US_PER_HOUR, US_PER_MINUTE; lia).
    apply Z.mod_mul. unfold US_PER_SECOND. lia. }
  rewrite Hd, Hh, Hm, Hs, Hu in Ha.
  destruct ((1 <=? ordinal n + 1) && (ordinal n + 1 <=? MAXORDINAL));
    inversion Ha; subst a; clear Ha.
  rewrite !lt_same_tz by reflexivity.
  assert (B1 : base_compare n start <> Lt).
  { intros B. apply base_compare_lt in B. revert B.
    unfold fields_lt, start. simpl. lia. }
  assert (B2 : fields_lt n
                 {| ordinal := ordinal n + 1; hour := 0; minute := 0;
                    second := 0; microsecond := 0;
                    tzinfo_of := tzinfo_of n; fold := false |}).
  { unfold fields_lt. simpl. lia. }
  apply base_compare_lt in B2. rewrite B2.
  repeat split; try reflexivity.
  destruct (base_compare n start); congruence.
Qed.

(** X5.  Normalizing is idempotent: a timestamp that [to_local_dt] returned,
    given to it again as a datetime or inside an Arrow object, comes back
    unchanged (its tzinfo is the local zone, so [astimezone] returns it). *)
Theorem to_local_dt_is_idempotent (tz : tzinfo) (x : timestamp) (r : datetime) :
  to_local_dt (Some tz) x = Ok r ->
  to_local_dt (Some tz) (Plain r) = Ok r /\
  to_local_dt (Some tz) (Arrow r) = Ok r.
Proof.
  intros H. apply to_local_dt_tz in H.
  split; unfold to_local_dt; rewrite H; unfold astimezone;
    rewrite H, tzinfo_is_refl; reflexivity.
Qed.

Lemma format_entries_local (tz : option tzinfo) (l : list entry) :
  Forall (fun y => tzinfo_of (entry_start y) = tz /\
                   tzinfo_of (entry_end y) = tz) l ->
  exists lines,
    format_entries l = Ok lines /\ List.length lines = List.length l.
Proof.
  induction l as [| x l' IH]; intros Hl.
  - exists []. split; reflexivity.
  - inversion Hl as [| ? ? Hx Hl']; subst.
    destruct (IH Hl') as (lines & Hf & Hlen).
    destruct x as [[[[s t] name] all_day] loc]. simpl in Hx.
    destruct Hx as [Hs Ht].
    assert (Hline : exists line, format_entry (s, t, name, all_day, loc) = Ok line).
    { unfold format_entry. destruct all_day; [eexists; reflexivity |].
      rewrite sub_same_tz by congruence. eexists; reflexivity. }
    destruct Hline as [line Hline].
    exists (line :: lines). cbn [format_entries]. rewrite Hline. cbn [bind].
    rewrite Hf. cbn [bind]. split; [reflexivity | simpl; now rewrite Hlen].
Qed.

(** X6.  The two functions fit: [format_agenda] never raises on an agenda that
    [fetch_ics_events_today] returned.  For an empty agenda the text is the
    header and the line for no events; otherwise it is the header and one
    line for each entry, and it ends with a line break. *)
Theorem agenda_always_renders (urls : list (option string)) (tzname : string)
    (agenda : list entry) :
  fetch_ics_events_today calendar_events clock urls tzname = Ok agenda ->
  exists lines,
    format_entries agenda = Ok lines /\
    List.length lines = List.length agenda /\
    format_agenda agenda
    = Ok (match agenda with
          | [] => agenda_header ++ nl ++ "(No hay eventos)" ++ nl
          | _ => PyStr.join nl (agenda_header :: lines) ++ nl
          end).
Proof.
  intros H. destruct (agenda_in_one_zone _ _ _ _ _ H) as [tz Hl].
  destruct (format_entries_local _ _ Hl) as (lines & Hf & Hlen).
  exists lines. split; [exact Hf |]. split; [exact Hlen |].
  unfold format_agenda. destruct agenda as [| x rest]; [reflexivity |].
  rewrite Hf. reflexivity.
Qed.

End WindowAndTextFacts.

(** ** Posting to the chat *)

Section PostingFacts.
Context {tzdata : TzData} {F : PyFloat}.
Variable container_repr : json -> string.
Variable w : World.
Variable exn_str : exn -> string.

Lemma send_telegram_without_credentials (text : string) (chat : list string) :
  has_credentials w = false ->
  send_telegram w text chat
  = (Raise (RuntimeError "Faltan BOT_TOKEN o CHAT_ID"), chat).
Proof.
  unfold has_credentials, send_telegram. intros H. rewrite H. reflexivity.
Qed.

Lemma send_telegram_outcome (text : string) (chat chat' : list string)
    (r : result unit) :
  send_telegram w text chat = (r, chat') ->
  (r = Ok tt /\ chat' = (chat ++ [text])%list) \/
  (exists e, r = Raise e /\ chat' = chat).
Proof.
  unfold send_telegram.
  destruct (negb (PyStr.truthy_opt (BOT_TOKEN w) && PyStr.truthy_opt (CHAT_ID w))).
  - intros H. inversion H; subst. right. eexists. split; reflexivity.
  - destruct (bot_send_message w chat text) as [u | e]; intros H;
      inversion H; subst.
    + left. split; reflexivity.
    + right. eexists. split; reflexivity.
Qed.

(** X7.  A run that fails has posted nothing, unless it is the final send that
    failed: then the chat holds the message of the first send, without rain
    banner.  When the message cannot be assembled (the weather cannot be
    fetched, a calendar event cannot be converted, ...) the run raises that
    exception and nothing is posted. *)
Theorem failing_run_posts_at_most_the_first_message (chat : list string) :
  (forall e, assemble container_repr w = Raise e ->
     run container_repr w chat = (Raise e, chat)) /\
  (forall e chat', run container_repr w chat = (Raise e, chat') ->
     chat' = chat \/
     exists daily msg,
       assemble container_repr w = Ok (daily, msg) /\
       send_telegram w msg chat = (Ok tt, (chat ++ [msg])%list) /\
       chat' = (chat ++ [msg])%list).
Proof.
  split.
  - intros e H. rewrite run_steps, H. reflexivity.
  - intros e chat'. rewrite run_steps.
    destruct (assemble container_repr w) as [[daily msg] | e0].
    + destruct (send_telegram w msg chat) as [[u | e1] chat1] eqn:S1.
      * destruct (send_telegram_outcome _ _ _ _ S1) as [[_ C1] | (e2 & R & _)];
          [| discriminate R].
        subst chat1. intros S2.
        destruct (send_telegram_outcome _ _ _ _ S2) as [[R _] | (e2 & _ & C2)];
          [discriminate R |].
        right. exists daily, msg. destruct u. repeat split; assumption.
      * destruct (send_telegram_outcome _ _ _ _ S1) as [[R _] | (e2 & _ & C1)];
          [discriminate R |].
        intros H. inversion H; subst. left. reflexivity.
    + intros H. inversion H; subst. left. reflexivity.
Qed.

Lemma coordinates_with_geocode
    (g : string -> result (pyfloat * pyfloat * string)) :
  PyStr.truthy_opt (LAT w) && PyStr.truthy_opt (LON w) = true ->
  coordinates (with_geocode w g) = coordinates w.
Proof.
  intros H. unfold coordinates.
  change (LAT (with_geocode w g)) with (LAT w).
  change (LON (with_geocode w g)) with (LON w).
  rewrite H. reflexivity.
Qed.

(** X8.  Lines 162-167: when LAT and LON are both set and not empty the geocoder
    plays no part, whatever it would answer the run is the same; when one of
    them is missing the configured city is geocoded, and a failure of the
    geocoder ends the run before anything is posted. *)
Theorem explicit_coordinates_bypass_the_geocoder (chat : list string) :
  (PyStr.truthy_opt (LAT w) && PyStr.truthy_opt (LON w) = true ->
   forall g, run container_repr (with_geocode w g) chat
             = run container_repr w chat) /\
  (PyStr.truthy_opt (LAT w) && PyStr.truthy_opt (LON w) = false ->
   coordinates w = geocode w (CITY w) /\
   forall e, geocode w (CITY w) = Raise e ->
             run container_repr w chat = (Raise e, chat)).
Proof.
  split.
  - intros H g.
    assert (A : assemble container_repr (with_geocode w g)
                = assemble container_repr w).
    { unfold assemble. rewrite (coordinates_with_geocode g H). reflexivity. }
    rewrite !run_steps, A. reflexivity.
  - intros H.
    assert (C : coordinates w = geocode w (CITY w))
      by (unfold coordinates; rewrite H; reflexivity).
    split; [exact C |]. intros e G.
    rewrite run_steps. unfold assemble. rewrite C, G. reflexivity.
Qed.

(** X9.  Lines 185-192: the program ends as its run ends.  A run without
    exception is left as it is; an exception of the run is raised again,
    unchanged, after at most one more text was posted: the report of that
    exception.  A failure to post the report changes neither. *)
Theorem main_raises_what_run_raised (chat : list string) :
  (forall chat', run container_repr w chat = (Ok tt, chat') ->
     main container_repr w exn_str chat = (Ok tt, chat')) /\
  (forall e chat', run container_repr w chat = (Raise e, chat') ->
     exists chat'',
       main container_repr w exn_str chat = (Raise e, chat'') /\
       (chat'' = chat' \/
        chat'' = (chat' ++ [error_report (exn_str e)])%list)).
Proof.
  unfold main. split.
  - intros chat' H. rewrite H. reflexivity.
  - intros e chat' H. rewrite H.
    fold (error_report (exn_str e)).
    destruct (send_telegram w (error_report (exn_str e)) chat')
      as [r chat''] eqn:S.
    exists chat''. split; [reflexivity |].
    destruct (send_telegram_outcome _ _ _ _ S) as [[_ C] | (e' & _ & C)];
      [right | left]; exact C.
Qed.

(** X10.  Without BOT_TOKEN or CHAT_ID (missing or empty) nothing is ever posted:
    the run and the program both raise and leave the chat as it was.  The
    exception is the one of the assembly if the message cannot be assembled,
    and the [RuntimeError] of [send_telegram] otherwise; the report of the
    exception cannot be posted either. *)
Theorem nothing_is_posted_without_credentials (chat : list string) :
  has_credentials w = false ->
  exists e,
    run container_repr w chat = (Raise e, chat) /\
    main container_repr w exn_str chat = (Raise e, chat) /\
    (assemble container_repr w = Raise e \/
     (is_ok (assemble container_repr w) = true /\
      e = RuntimeError "Faltan BOT_TOKEN o CHAT_ID")).
Proof.
  intros H.
  assert (R : exists e,
             run container_repr w chat = (Raise e, chat) /\
             (assemble container_repr w = Raise e \/
              (is_ok (assemble container_repr w) = true /\
               e = RuntimeError "Faltan BOT_TOKEN o CHAT_ID"))).
  { rewrite run_steps.
    destruct (assemble container_repr w) as [[daily msg] | e0].
    - rewrite (send_telegram_without_credentials msg chat H).
      eexists. split; [reflexivity |]. right. split; reflexivity.
    - exists e0. split; [reflexivity |]. left. reflexivity. }
  destruct R as (e & Hrun & Hwhy). exists e.
  split; [exact Hrun |]. split; [| exact Hwhy].
  unfold main. rewrite Hrun.
  rewrite (send_telegram_without_credentials _ chat H). reflexivity.
Qed.

End PostingFacts.

(** ** When the weather text fails *)

Section WeatherFailureFacts.
Context {F : PyFloat}.
Variable container_repr : json -> string.

Lemma wmo_get_raises (wcode : json) (e : exn) :
  wmo_get wcode = Raise e -> e = TypeError /\ ~ hashable wcode.
Proof.
  destruct wcode; simpl; intros H; inversion H; subst; split; auto.
Qed.

Lemma wmo_get_unhashable (wcode : json) :
  ~ hashable wcode -> wmo_get wcode = Raise TypeError.
Proof.
  destruct wcode; simpl; intros H; try reflexivity; exfalso; apply H; exact I.
Qed.

Lemma day_paragraph_raises (data : json) (idx : nat) (label : string) (e : exn) :
  day_paragraph container_repr data idx label = Raise e <->
  e = TypeError /\
  exists f, day_fields data idx = Ok f /\ ~ hashable (weather_code f).
Proof.
  unfold day_paragraph.
  pose proof (day_fields_caught data idx) as Hc.
  destruct (day_fields data idx) as [[[[[[tmin tmax] pp] sr] ss] wcode] | e0].
  - split.
    + intros H. destruct (wmo_get wcode) as [[desc emo] | e1] eqn:G;
        simpl in H; [discriminate H |].
      inversion H; subst e1. apply wmo_get_raises in G. destruct G as [G1 G2].
      split; [exact G1 |]. eexists. split; [reflexivity | exact G2].
    + intros (He & f & Hf & Hh). inversion Hf; subst f. simpl in Hh.
      rewrite (wmo_get_unhashable _ Hh). subst e. reflexivity.
  - rewrite (Hc e0 eq_refl). split; [intros H; discriminate H |].
    intros (_ & f & Hf & _). discriminate Hf.
Qed.

(** X11.  The weather text fails in one way only: it raises exactly when one of
    the two days has all six fields readable and a list or a dict as weather
    code, and the exception is then a [TypeError] (lines 80-96). *)
Theorem weather_text_fails_only_on_an_unhashable_code (city_shown : string)
    (data : json) :
  (is_ok (nice_weather_text_2days container_repr city_shown data) = false <->
   exists idx f, (idx < 2)%nat /\ day_fields data idx = Ok f /\
                 ~ hashable (weather_code f)) /\
  (forall e, nice_weather_text_2days container_repr city_shown data = Raise e ->
             e = TypeError).
Proof.
  unfold nice_weather_text_2days. cbn [day_loop].
  pose proof (day_paragraph_raises data 0 "Hoy") as R0.
  pose proof (day_paragraph_raises data 1 "Mañana") as R1.
  destruct (day_paragraph container_repr data 0 "Hoy") as [p0 | e0] eqn:P0;
    cbn [bind].
  - destruct (day_paragraph container_repr data 1 "Mañana") as [p1 | e1] eqn:P1;
      cbn [bind].
    + split; [| intros e H; discriminate H].
      split; [intros H; discriminate H |].
      intros (idx & f & Hidx & Hf & Hh). exfalso.
      destruct idx as [| [| idx]]; [| | lia].
      * assert (X : Ok p0 = Raise TypeError :> result (option string))
          by (apply (R0 TypeError); split; [reflexivity | eauto]).
        discriminate X.
      * assert (X : Ok p1 = Raise TypeError :> result (option string))
          by (apply (R1 TypeError); split; [reflexivity | eauto]).
        discriminate X.
    + destruct (proj1 (R1 e1) eq_refl) as (He & f & Hf & Hh).
      split; [| intros e H; inversion H; subst; reflexivity].
      split; [| reflexivity]. intros _. exists 1%nat, f. repeat split; auto.
  - destruct (proj1 (R0 e0) eq_refl) as (He & f & Hf & Hh).
    split; [| intros e H; inversion H; subst; reflexivity].
    split; [| reflexivity]. intros _. exists 0%nat, f. repeat split; auto; lia.
Qed.

End WeatherFailureFacts.

(** ** The environment file *)

Lemma load_line_assignment (env : environ) (line : string) :
  load_line env line
  = match assignment line with
    | None => Loaded env
    | Some (k, v) => setdefault env k v
    end.
Proof.
  unfold load_line, assignment.
  destruct (negb (PyStr.truthy (PyStr.strip line))
            || PyText.startswith hash_sign (PyStr.strip line)
            || negb (PyText.contains equals_sign (PyStr.strip line)));
    [reflexivity |].
  destruct (PyText.split_once equals_sign (PyStr.strip line)) as [k v].
  reflexivity.
Qed.

Lemma setdefault_loaded (env env' : environ) (k v : string) :
  setdefault env k v = Loaded env' ->
  forall name,
    env' name = match env name with
                | Some old => Some old
                | None => if String.eqb name k then Some v else None
                end.
Proof.
  unfold setdefault. destruct (env k) as [old |] eqn:Ek.
  - intros H name. inversion H; subst env'.
    destruct (env name) as [o |] eqn:En; [reflexivity |].
    destruct (String.eqb_spec name k) as [-> | _]; [congruence | reflexivity].
  - destruct (PyText.contains nul k || PyText.contains nul v);
      [intros H; discriminate H |].
    destruct (negb (PyStr.truthy k)); [intros H; discriminate H |].
    intros H name. inversion H; subst env'.
    destruct (String.eqb_spec name k) as [-> | _].
    + rewrite Ek. reflexivity.
    + destruct (env name); reflexivity.
Qed.

Lemma load_lines_loaded (lines : list string) :
  forall env env',
    load_lines lines env = Loaded env' ->
    forall name,
      env' name = match env name with
                  | Some old => Some old
                  | None => first_assignment name lines
                  end.
Proof.
  induction lines as [| line rest IH]; simpl; intros env env' H name.
  - inversion H; subst. destruct (env' name); reflexivity.
  - rewrite load_line_assignment in H.
    destruct (assignment line) as [[k v] |].
    + destruct (setdefault env k v) as [env1 | err] eqn:S; [| discriminate H].
      rewrite (IH _ _ H name). rewrite (setdefault_loaded _ _ _ _ S name).
      destruct (env name) as [old |]; [reflexivity |].
      destruct (String.eqb name k); reflexivity.
    + apply (IH _ _ H name).
Qed.

(** X12.  [load_env] never replaces a value: after it, a name that was set in the
    environment has the value it had, and a name that was not set has the
    value of the first line of the file that assigns it, if there is such a
    line.  Blank lines, lines that start with [#] and lines without [=]
    assign nothing, and without a file nothing changes (lines 9-17). *)
Theorem load_env_keeps_values_and_takes_first_assignments
    (file : option string) (env env' : environ) :
  load_env file env = Loaded env' ->
  forall name,
    env' name = match env name with
                | Some old => Some old
                | None =>
                    match file with
                    | Some text => first_assignment name (PyText.splitlines text)
                    | None => None
                    end
                end.
Proof.
  destruct file as [text |]; simpl; intros H name.
  - apply load_lines_loaded. exact H.
  - inversion H; subst. destruct (env' name); reflexivity.
Qed.

(** ** Cleaning URLs *)

Lemma append_assoc (a b c : string) : (a ++ b) ++ c = a ++ b ++ c.
Proof.
  induction a as [| x a IH]; simpl; [reflexivity | now rewrite IH].
Qed.

Lemma lstrip_with_app (p : ascii -> bool) (a s : string) :
  all_chars p a = true ->
  PyStr.lstrip_with p (a ++ s) = PyStr.lstrip_with p s.
Proof.
  induction a as [| x a IH]; simpl; intros H; [reflexivity |].
  apply andb_true_iff in H. destruct H as [Hx Ha].
  rewrite Hx. apply IH. exact Ha.
Qed.

Lemma lstrip_with_bare (p : ascii -> bool) (s : string) (c : ascii) :
  first_char s = Some c -> p c = false -> PyStr.lstrip_with p s = s.
Proof.
  destruct s as [| x s]; simpl; intros H Hp; [discriminate H |].
  inversion H; subst. rewrite Hp. reflexivity.
Qed.

Lemma rstrip_with_all (p : ascii -> bool) (b : string) :
  all_chars p b = true -> PyStr.rstrip_with p b = "".
Proof.
  induction b as [| x b IH]; simpl; intros H; [reflexivity |].
  apply andb_true_iff in H. destruct H as [Hx Hb].
  rewrite (IH Hb), Hx. reflexivity.
Qed.

Lemma rstrip_with_app (p : ascii -> bool) (s b : string) :
  all_chars p b = true ->
  PyStr.rstrip_with p (s ++ b) = PyStr.rstrip_with p s.
Proof.
  intros Hb. induction s as [| x s IH]; simpl.
  - apply rstrip_with_all. exact Hb.
  - rewrite IH. reflexivity.
Qed.

Lemma rstrip_with_bare (p : ascii -> bool) (s : string) (c : ascii) :
  last_char s = Some c -> p c = false -> PyStr.rstrip_with p s = s.
Proof.
  revert c. induction s as [| x s IH]; simpl; intros c H Hp; [discriminate H |].
  destruct (last_char s) as [c' |] eqn:L.
  - inversion H; subst c'. rewrite (IH c eq_refl Hp).
    destruct s; [discriminate L | reflexivity].
  - inversion H; subst x.
    destruct s as [| y s]; [simpl; now rewrite Hp |].
    simpl in L. destruct (last_char s); discriminate L.
Qed.

(** Stripping removes what was put around a string whose ends resist. *)
Lemma strip_with_padded (p : ascii -> bool) (a s b : string) :
  all_chars p a = true -> all_chars p b = true -> bare_for p s ->
  PyStr.strip_with p (a ++ s ++ b) = s.
Proof.
  intros Ha Hb [(c1 & F & P1) (c2 & L & P2)].
  unfold PyStr.strip_with.
  rewrite (lstrip_with_app p a _ Ha).
  assert (Fs : first_char (s ++ b) = Some c1)
    by (destruct s; [discriminate F | exact F]).
  rewrite (lstrip_with_bare p _ c1 Fs P1).
  rewrite (rstrip_with_app p s b Hb).
  exact (rstrip_with_bare p s c2 L P2).
Qed.

Lemma last_char_app (s b : string) :
  last_char (s ++ b) = match last_char b with
                       | Some c => Some c
                       | None => last_char s
                       end.
Proof.
  induction s as [| x s IH]; simpl.
  - destruct (last_char b); reflexivity.
  - rewrite IH. destruct (last_char b); [reflexivity |].
    destruct (last_char s); reflexivity.
Qed.

Lemma all_chars_first (q : ascii -> bool) (a : string) (c : ascii) :
  all_chars q a = true -> first_char a = Some c -> q c = true.
Proof.
  destruct a as [| x a]; simpl; intros H Hc; [discriminate Hc |].
  inversion Hc; subst. apply andb_true_iff in H. tauto.
Qed.

Lemma all_chars_last (q : ascii -> bool) (a : string) (c : ascii) :
  all_chars q a = true -> last_char a = Some c -> q c = true.
Proof.
  revert c. induction a as [| x a IH]; simpl; intros c H Hc; [discriminate Hc |].
  apply andb_true_iff in H. destruct H as [Hx Ha].
  destruct (last_char a) as [c' |].
  - inversion Hc; subst. apply IH; [exact Ha | reflexivity].
  - inversion Hc; subst. exact Hx.
Qed.

(** Ends that resist [p] still do when characters of another kind, none of
    which [p] accepts, are put around. *)
Lemma bare_for_wrapped (p q : ascii -> bool) (a s b : string) :
  (forall c, q c = true -> p c = false) ->
  all_chars q a = true -> all_chars q b = true ->
  bare_for p s -> bare_for p (a ++ s ++ b).
Proof.
  intros Hqp Ha Hb [(c1 & F & P1) (c2 & L & P2)]. split.
  - destruct a as [| x a].
    + exists c1. split; [| exact P1].
      destruct s; [discriminate F | exact F].
    + exists x. split; [reflexivity |]. apply Hqp.
      exact (all_chars_first q _ x Ha eq_refl).
  - rewrite !last_char_app. destruct (last_char b) as [c |] eqn:Lb.
    + exists c. split; [reflexivity |]. apply Hqp.
      exact (all_chars_last q _ c Hb Lb).
    + rewrite L. exists c2. split; [reflexivity | exact P2].
Qed.

Lemma squote_is_not_dquote (c : ascii) :
  Ascii.eqb squote c = true -> Ascii.eqb dquote c = false.
Proof.
  intros H. apply Ascii.eqb_eq in H. subst c. reflexivity.
Qed.

Lemma is_space_in (w : string) : PyStr.is_space w = true <-> In w PyStr.whitespace.
Proof.
  unfold PyStr.is_space. rewrite existsb_exists. split.
  - intros (x & Hx & E). apply String.eqb_eq in E. now subst.
  - intros H. exists w. split; [exact H | apply String.eqb_refl].
Qed.

Lemma drop_prefix_length (w s r : string) :
  PyStr.drop_prefix w s = Some r ->
  String.length s = (String.length w + String.length r)%nat.
Proof.
  revert s. induction w as [| a w IH]; simpl; intros s H.
  - inversion H; subst. reflexivity.
  - destruct s as [| b s]; [discriminate H |].
    destruct (Ascii.eqb a b); [| discriminate H].
    simpl. rewrite (IH _ H). reflexivity.
Qed.

Lemma drop_first_length (ws : list string) (s r : string) :
  Forall (fun w => w <> "") ws ->
  PyStr.drop_first ws s = Some r -> (String.length r < String.length s)%nat.
Proof.
  induction ws as [| w rest IH]; simpl; intros Hne H; [discriminate H |].
  inversion Hne as [| ? ? Hw Hrest]; subst.
  destruct (PyStr.drop_prefix w s) as [r' |] eqn:D.
  - inversion H; subst r'. apply drop_prefix_length in D.
    destruct w; [congruence | simpl in D; lia].
  - apply IH; assumption.
Qed.

Lemma whitespace_not_empty : Forall (fun w => w <> "") PyStr.whitespace.
Proof. repeat constructor; discriminate. Qed.

Lemma drop_space_length (s r : string) :
  PyStr.drop_space s = Some r -> (String.length r < String.length s)%nat.
Proof. apply drop_first_length. exact whitespace_not_empty. Qed.

Lemma lstrip_upto_enough (n : nat) :
  forall s m, (String.length s <= n)%nat -> (String.length s <= m)%nat ->
    PyStr.lstrip_upto n s = PyStr.lstrip_upto m s.
Proof.
  induction n as [| n IH]; intros s m Hn Hm.
  - destruct s; [| simpl in Hn; lia]. destruct m; reflexivity.
  - destruct m as [| m].
    + destruct s; [reflexivity | simpl in Hm; lia].
    + simpl. destruct (PyStr.drop_space s) as [r |] eqn:D; [| reflexivity].
      apply drop_space_length in D. apply IH; lia.
Qed.

Lemma lstrip_step (s : string) :
  PyStr.lstrip s = match PyStr.drop_space s with
                   | Some r => PyStr.lstrip r
                   | None => s
                   end.
Proof.
  unfold PyStr.lstrip. destruct s as [| c s]; [reflexivity |].
  cbn [String.length PyStr.lstrip_upto].
  destruct (PyStr.drop_space (String c s)) as [r |] eqn:D; [| reflexivity].
  apply drop_space_length in D. simpl in D.
  apply lstrip_upto_enough; lia.
Qed.

(** A whitespace character in front is the one that is dropped. *)
Lemma drop_space_unit (w x : string) :
  In w PyStr.whitespace -> PyStr.drop_space (w ++ x) = Some x.
Proof.
  intros H. unfold PyStr.whitespace in H. simpl in H.
  repeat (destruct H as [H | H]; [subst w; reflexivity |]).
  destruct H.
Qed.

Lemma concat_cons (w : string) (ws : list string) :
  String.concat "" (w :: ws) = w ++ String.concat "" ws.
Proof.
  destruct ws as [| w' ws]; simpl; [now rewrite append_empty_r | reflexivity].
Qed.

Lemma lstrip_blank (a s : string) :
  blank a -> PyStr.lstrip (a ++ s) = PyStr.lstrip s.
Proof.
  intros (ws & Hws & ->). revert Hws.
  induction ws as [| w ws IH]; intros Hws; [reflexivity |].
  cbn [forallb] in Hws. apply andb_true_iff in Hws. destruct Hws as [Hw Hws].
  rewrite concat_cons, append_assoc, lstrip_step.
  rewrite drop_space_unit by (apply is_space_in; exact Hw).
  apply IH. exact Hws.
Qed.

Lemma apart_drop_prefix (w s x : string) :
  apart w s = true -> PyStr.drop_prefix w (s ++ x) = None.
Proof.
  revert s. induction w as [| a w IH]; intros s H; [discriminate H |].
  destruct s as [| b s]; [discriminate H |]. simpl in *.
  destruct (Ascii.eqb a b); [apply IH; exact H | reflexivity].
Qed.

Lemma lstrip_apart (s x : string) :
  forallb (fun w => apart w s) PyStr.whitespace = true ->
  PyStr.lstrip (s ++ x) = s ++ x.
Proof.
  intros H. rewrite lstrip_step. unfold PyStr.drop_space.
  rewrite forallb_forall in H.
  assert (D : forall ws, (forall w, In w ws -> apart w s = true) ->
                         PyStr.drop_first ws (s ++ x) = None).
  { induction ws as [| w ws IH]; intros Hw; [reflexivity |]. simpl.
    rewrite (apart_drop_prefix w s x) by (apply Hw; left; reflexivity).
    apply IH. intros w' Hw'. apply Hw. right. exact Hw'. }
  rewrite (D _ H). reflexivity.
Qed.

Lemma rstrip_blank (a : string) : blank a -> PyStr.rstrip a = "".
Proof.
  intros (ws & Hws & ->). revert Hws.
  induction ws as [| w ws IH]; intros Hws; [reflexivity |].
  cbn [forallb] in Hws. apply andb_true_iff in Hws. destruct Hws as [Hw Hws].
  rewrite concat_cons. specialize (IH Hws).
  apply is_space_in in Hw. unfold PyStr.whitespace in Hw. simpl in Hw.
  repeat (destruct Hw as [Hw | Hw];
          [subst w; simpl; rewrite IH; reflexivity |]).
  destruct Hw.
Qed.

Lemma rstrip_app_blank (s b : string) :
  blank b -> PyStr.rstrip (s ++ b) = PyStr.rstrip s.
Proof.
  intros Hb. induction s as [| c s IH]; simpl.
  - apply rstrip_blank. exact Hb.
  - rewrite IH. reflexivity.
Qed.

Lemma reverse_app (a b : string) : reverse (a ++ b) = reverse b ++ reverse a.
Proof.
  induction a as [| c a IH]; simpl.
  - now rewrite append_empty_r.
  - rewrite IH, append_assoc. reflexivity.
Qed.

Lemma apart_app (w s x : string) :
  apart w s = true -> apart w (s ++ x) = true.
Proof.
  revert s. induction w as [| a w IH]; intros s H; [discriminate H |].
  destruct s as [| b s]; [discriminate H |]. simpl in *.
  destruct (Ascii.eqb a b); [apply IH; exact H | reflexivity].
Qed.

Lemma apart_self (w x : string) : apart w (w ++ x) = false.
Proof.
  induction w as [| a w IH]; simpl; [reflexivity |].
  rewrite Ascii.eqb_refl. exact IH.
Qed.

(** No end of [s] is a whitespace character when [s], read from the back,
    differs from each of them. *)
Lemma rstrip_apart (s : string) :
  forallb (fun w => apart (reverse w) (reverse s)) PyStr.whitespace = true ->
  PyStr.rstrip s = s.
Proof.
  intros H. rewrite forallb_forall in H.
  assert (G : forall t p, s = p ++ t -> PyStr.rstrip t = t).
  { induction t as [| c t IH]; intros p E; [reflexivity |].
    simpl. rewrite (IH (p ++ String c "")) by (rewrite append_assoc; exact E).
    destruct (PyStr.is_space (String c t)) eqn:S; [| reflexivity].
    apply is_space_in in S. specialize (H _ S).
    rewrite E, reverse_app, apart_self in H. discriminate H. }
  apply (G s ""). reflexivity.
Qed.

Lemma all_chars_reverse (q : ascii -> bool) (s : string) :
  all_chars q (reverse s) = all_chars q s.
Proof.
  assert (A : forall a b, all_chars q (a ++ b) = all_chars q a && all_chars q b).
  { induction a as [| c a IH]; intros b; simpl; [reflexivity |].
    rewrite IH, andb_assoc. reflexivity. }
  induction s as [| c s IH]; simpl; [reflexivity |].
  rewrite A, IH. simpl. rewrite andb_true_r. apply andb_comm.
Qed.

(** Characters that begin no [w], put in front of [s], keep [w] apart. *)
Lemma apart_behind (q : ascii -> bool) (w pre s : string) :
  (forall c, first_char w = Some c -> q c = false) ->
  all_chars q pre = true -> apart w s = true -> apart w (pre ++ s) = true.
Proof.
  intros Hw Hpre Hs. destruct pre as [| b pre]; [exact Hs |].
  destruct w as [| a w]; [discriminate Hs |]. simpl in *.
  apply andb_true_iff in Hpre. destruct Hpre as [Hb _].
  destruct (Ascii.eqb_spec a b) as [-> | _]; [| reflexivity].
  rewrite (Hw b eq_refl) in Hb. discriminate Hb.
Qed.

Lemma first_char_reverse (s : string) : first_char (reverse s) = last_char s.
Proof.
  induction s as [| c s IH]; simpl; [reflexivity |].
  rewrite <- IH. destruct (reverse s); reflexivity.
Qed.

Lemma whitespace_is_not_quote :
  forallb (fun w =>
             match first_char w, last_char w with
             | Some a, Some b =>
                 negb (Ascii.eqb dquote a) && negb (Ascii.eqb squote a)
                 && negb (Ascii.eqb dquote b) && negb (Ascii.eqb squote b)
             | _, _ => false
             end) PyStr.whitespace = true.
Proof. reflexivity. Qed.

Lemma whitespace_ends (w : string) (q : ascii -> bool) :
  In w PyStr.whitespace ->
  (forall c, q c = true -> Ascii.eqb dquote c = true \/ Ascii.eqb squote c = true) ->
  (forall c, first_char w = Some c -> q c = false) /\
  (forall c, first_char (reverse w) = Some c -> q c = false).
Proof.
  intros Hw Hq.
  pose proof whitespace_is_not_quote as H. rewrite forallb_forall in H.
  specialize (H w Hw). rewrite first_char_reverse.
  destruct (first_char w) as [a |]; [| discriminate H].
  destruct (last_char w) as [b |]; [| discriminate H].
  apply andb_true_iff in H. destruct H as [H H4].
  apply andb_true_iff in H. destruct H as [H H3].
  apply andb_true_iff in H. destruct H as [H1 H2].
  apply negb_true_iff in H1, H2, H3, H4.
  split; intros c E; inversion E; subst c;
    destruct (q _) eqn:Q; try reflexivity;
    destruct (Hq _ Q); congruence.
Qed.

Lemma bare_parts (u : string) :
  bare u ->
  forallb (fun w => apart w u) PyStr.whitespace = true /\
  forallb (fun w => apart (reverse w) (reverse u)) PyStr.whitespace = true /\
  bare_for (Ascii.eqb dquote) u /\ bare_for (Ascii.eqb squote) u.
Proof.
  unfold bare, padding. intros H. rewrite forallb_app in H.
  apply andb_true_iff in H. destruct H as [Hw Hq].
  assert (W : forall w, In w PyStr.whitespace ->
                        apart w u = true /\ apart (reverse w) (reverse u) = true).
  { intros w Hin. rewrite forallb_forall in Hw. specialize (Hw w Hin).
    apply andb_true_iff in Hw. exact Hw. }
  split; [apply forallb_forall; intros w Hin; apply W; exact Hin |].
  split; [apply forallb_forall; intros w Hin; apply W; exact Hin |].
  cbn [forallb] in Hq. rewrite andb_true_r in Hq.
  apply andb_true_iff in Hq. destruct Hq as [Hd Hs].
  apply andb_true_iff in Hd. destruct Hd as [Hd1 Hd2].
  apply andb_true_iff in Hs. destruct Hs as [Hs1 Hs2].
  assert (Q : forall c, apart (String c "") u = true ->
                        apart (reverse (String c "")) (reverse u) = true ->
                        bare_for (Ascii.eqb c) u).
  { intros c F L. split.
    - destruct u as [| x u]; [discriminate F |]. exists x. split; [reflexivity |].
      simpl in F. destruct (Ascii.eqb c x); [discriminate F | reflexivity].
    - rewrite <- first_char_reverse. simpl in L.
      destruct (reverse u) as [| x r]; [discriminate L |].
      exists x. split; [reflexivity |].
      destruct (Ascii.eqb c x); [discriminate L | reflexivity]. }
  split; apply Q; assumption.
Qed.

(** [strip()] gives back a text that neither begins nor ends with a
    whitespace character, whatever whitespace is put around it. *)
Lemma strip_blank_padded (a s b : string) :
  blank a -> blank b ->
  forallb (fun w => apart w s) PyStr.whitespace = true ->
  forallb (fun w => apart (reverse w) (reverse s)) PyStr.whitespace = true ->
  PyStr.strip (a ++ s ++ b) = s.
Proof.
  intros Ha Hb Hf Hl. unfold PyStr.strip.
  rewrite (lstrip_blank a _ Ha), (lstrip_apart s b Hf).
  rewrite (rstrip_app_blank s b Hb). exact (rstrip_apart s Hl).
Qed.

(** Quotes put around a text leave it apart from every whitespace
    character, at both ends. *)
Lemma quoted_apart (q : ascii -> bool) (a s b : string) :
  (forall c, q c = true -> Ascii.eqb dquote c = true \/ Ascii.eqb squote c = true) ->
  all_chars q a = true -> all_chars q b = true ->
  forallb (fun w => apart w s) PyStr.whitespace = true ->
  forallb (fun w => apart (reverse w) (reverse s)) PyStr.whitespace = true ->
  forallb (fun w => apart w (a ++ s ++ b)) PyStr.whitespace = true /\
  forallb (fun w => apart (reverse w) (reverse (a ++ s ++ b))) PyStr.whitespace
  = true.
Proof.
  intros Hq Ha Hb Hf Hl. rewrite forallb_forall in Hf, Hl.
  split; apply forallb_forall; intros w Hw;
    destruct (whitespace_ends w q Hw Hq) as [E1 E2].
  - apply (apart_behind q); [exact E1 | exact Ha |].
    apply apart_app. apply Hf. exact Hw.
  - rewrite !reverse_app, append_assoc.
    apply (apart_behind q);
      [exact E2 | rewrite all_chars_reverse; exact Hb |].
    apply apart_app. apply Hl. exact Hw.
Qed.

Lemma blank_empty : blank "".
Proof. exists []. split; reflexivity. Qed.

Lemma clean_url_written (u raw : string) :
  bare u -> written_as u raw ->
  clean_url raw = u /\ clean_url u = u.
Proof.
  intros Hu. destruct (bare_parts u Hu) as (Hf & Hl & Hd & Hq).
  assert (Clean : forall ws1 dq1 sq1 sq2 dq2 ws2,
             blank ws1 -> blank ws2 ->
             all_chars (Ascii.eqb dquote) dq1 = true ->
             all_chars (Ascii.eqb dquote) dq2 = true ->
             all_chars (Ascii.eqb squote) sq1 = true ->
             all_chars (Ascii.eqb squote) sq2 = true ->
             clean_url (ws1 ++ dq1 ++ sq1 ++ u ++ sq2 ++ dq2 ++ ws2) = u).
  { intros ws1 dq1 sq1 sq2 dq2 ws2 W1 W2 D1 D2 Q1 Q2.
    unfold clean_url, PyStr.strip_char.
    set (inner := sq1 ++ u ++ sq2).
    set (middle := dq1 ++ inner ++ dq2).
    assert (E : ws1 ++ dq1 ++ sq1 ++ u ++ sq2 ++ dq2 ++ ws2
                = ws1 ++ middle ++ ws2).
    { unfold middle, inner. rewrite !append_assoc. reflexivity. }
    rewrite E.
    assert (Bi_d : bare_for (Ascii.eqb dquote) inner).
    { unfold inner. eapply bare_for_wrapped; [| exact Q1 | exact Q2 | exact Hd].
      apply squote_is_not_dquote. }
    destruct (quoted_apart (Ascii.eqb squote) sq1 u sq2) as [If Il];
      [intros c H; right; exact H | exact Q1 | exact Q2 | exact Hf | exact Hl |].
    fold inner in If, Il.
    destruct (quoted_apart (Ascii.eqb dquote) dq1 inner dq2) as [Mf Ml];
      [intros c H; left; exact H | exact D1 | exact D2 | exact If | exact Il |].
    fold middle in Mf, Ml.
    rewrite (strip_blank_padded ws1 middle ws2 W1 W2 Mf Ml).
    unfold middle. rewrite (strip_with_padded _ dq1 inner dq2 D1 D2 Bi_d).
    unfold inner. apply (strip_with_padded _ sq1 u sq2 Q1 Q2 Hq). }
  intros (ws1 & dq1 & sq1 & sq2 & dq2 & ws2 & W1 & W2 & D1 & D2 & Q1 & Q2 & E).
  split.
  - subst raw. apply Clean; assumption.
  - specialize (Clean "" "" "" "" "" "" blank_empty blank_empty eq_refl eq_refl
                  eq_refl eq_refl).
    simpl in Clean. rewrite !append_empty_r in Clean. exact Clean.
Qed.

(** X13.  The cleaning of lines 29 and 116 gives back a URL that was written
    between quotes and whitespace: single quotes inside double quotes inside
    whitespace (of ASCII or not), each layer optional, around a URL that
    neither begins nor ends with a whitespace character or a quote.  A URL
    without such layers is left as it is, so cleaning it a second time
    (line 116) is harmless. *)
Theorem clean_url_removes_quotes_and_whitespace (u raw : string) :
  bare u -> written_as u raw ->
  clean_url raw = u /\ clean_url u = u /\ clean_url (clean_url raw) = u.
Proof.
  intros Hu Hw. destruct (clean_url_written u raw Hu Hw) as [H1 H2].
  split; [exact H1 |]. split; [exact H2 |]. rewrite H1. exact H2.
Qed.

(** ** The list of calendar URLs *)

Lemma split_no_sep (c : ascii) (s : string) :
  PyText.contains c s = false -> PyStr.split c s = [s].
Proof.
  induction s as [| x s IH]; simpl; intros H; [reflexivity |].
  apply orb_false_iff in H. destruct H as [Hx Hs].
  rewrite Hx, (IH Hs). reflexivity.
Qed.

Lemma split_app (c : ascii) (a rest : string) :
  PyText.contains c a = false ->
  PyStr.split c (a ++ String c rest) = a :: PyStr.split c rest.
Proof.
  induction a as [| x a IH]; simpl; intros H.
  - rewrite Ascii.eqb_refl. reflexivity.
  - apply orb_false_iff in H. destruct H as [Hx Ha].
    rewrite Hx, (IH Ha). reflexivity.
Qed.

Lemma split_concat (raws : list string) :
  Forall (fun raw => PyText.contains comma raw = false) raws ->
  PyStr.split comma (String.concat "," raws)
  = match raws with
    | [] => [""]
    | _ => raws
    end.
Proof.
  induction raws as [| r rest IH]; intros H; [reflexivity |].
  inversion H as [| ? ? Hr Hrest]; subst.
  destruct rest as [| r2 rest].
  - simpl. apply split_no_sep. exact Hr.
  - change (String.concat "," (r :: r2 :: rest))
      with (r ++ String comma (String.concat "," (r2 :: rest))).
    rewrite (split_app comma r _ Hr). rewrite (IH Hrest). reflexivity.
Qed.

Lemma clean_written_list (us raws : list string) :
  Forall2 written_as us raws -> Forall bare us ->
  filter PyStr.truthy (map clean_url raws) = us.
Proof.
  intros Hw. induction Hw as [| u raw us' raws' Hur Hrest IH]; intros Hu;
    [reflexivity |].
  inversion Hu as [| ? ? Hbare Hu']; subst.
  cbn [map filter].
  rewrite (proj1 (clean_url_written u raw Hbare Hur)).
  assert (T : PyStr.truthy u = true).
  { destruct (bare_parts u Hbare) as (_ & _ & [(c & Fc & _) _] & _).
    destruct u; [discriminate Fc | reflexivity]. }
  rewrite T. f_equal. apply IH. exact Hu'.
Qed.

Section UrlListFacts.
Context {F : PyFloat}.
Variable w : World.

(** X14.  Lines 28-32: a list of URLs written in ICAL_URLS with commas between
    them is read back as that list, whether or not its entries are put
    between quotes and whitespace; the URLs must not contain a comma and must
    neither begin nor end with a whitespace character (of ASCII or not) or a
    quote.  Without the variable the list is empty. *)
Theorem ical_urls_reads_the_written_list :
  (getenv w "ICAL_URLS" = None -> ICAL_URLS w = []) /\
  (forall us raws,
     getenv w "ICAL_URLS" = Some (String.concat "," raws) ->
     Forall2 written_as us raws ->
     Forall bare us ->
     Forall (fun raw => PyText.contains comma raw = false) raws ->
     ICAL_URLS w = us).
Proof.
  unfold ICAL_URLS, getenv_default. split.
  - intros H. rewrite H. reflexivity.
  - intros us raws H Hw Hu Hc. rewrite H, (split_concat raws Hc).
    destruct raws as [| r0 rest]; [inversion Hw; subst; reflexivity |].
    apply clean_written_list; assumption.
Qed.

End UrlListFacts.

(** ** Geocoding *)

Section GeocodeFacts.
Context {F : PyFloat}.
Variable float_of_int : Z -> result pyfloat.

(** X15.  Lines 53-56.  An answer without results (the key missing, or a value
    that is falsy: null, an empty list, ...) raises the [RuntimeError] that
    says that no coordinates were found.  From an answer with results only
    the first result is read; the name returned with the coordinates is the
    one of that result, and the city asked for when the result has none. *)
Theorem geocode_answer_reads_the_first_result (city : string)
    (data : list (string * json)) :
  (json_truthy (dict_get data "results" JNull) = false ->
   geocode_answer float_of_int city data
   = Raise (RuntimeError "No se encontraron coordenadas")) /\
  (forall fields rest lat lon,
     PyJson.assoc "results" data = Some (JList (JDict fields :: rest)) ->
     PyJson.assoc "latitude" fields = Some (JFloat lat) ->
     PyJson.assoc "longitude" fields = Some (JFloat lon) ->
     geocode_answer float_of_int city data
     = Ok (lat, lon, dict_get fields "name" (JStr city))) /\
  (forall lat lon name,
     geocode_answer float_of_int city data = Ok (lat, lon, name) ->
     exists results fields latitude longitude,
       PyJson.assoc "results" data = Some results /\
       PyJson.getitem_index results 0 = Ok (JDict fields) /\
       PyJson.assoc "latitude" fields = Some latitude /\
       json_float float_of_int latitude = Ok lat /\
       PyJson.assoc "longitude" fields = Some longitude /\
       json_float float_of_int longitude = Ok lon /\
       name = dict_get fields "name" (JStr city)).
Proof.
  unfold geocode_answer. split; [| split].
  - intros H. rewrite H. reflexivity.
  - intros fields rest lat lon Hr Hlat Hlon.
    unfold dict_get at 1. rewrite Hr. cbn [json_truthy negb].
    cbn [PyJson.getitem_key]. rewrite Hr. cbn [bind PyJson.getitem_index nth_error].
    cbn [PyJson.getitem_key]. rewrite Hlat, Hlon. reflexivity.
  - intros lat lon name.
    destruct (negb (json_truthy (dict_get data "results" JNull)));
      [intros H; discriminate H |].
    intros H. bind_inv H. bind_inv H. bind_inv H. bind_inv H. bind_inv H.
    bind_inv H. inversion H; subst; clear H.
    rename a into results, a0 into res, a1 into latitude, a3 into longitude.
    simpl in Ha. destruct (PyJson.assoc "results" data) as [r |] eqn:Er;
      [| discriminate Ha]. inversion Ha; subst r. clear Ha.
    destruct res; simpl in Ha1; try discriminate Ha1.
    simpl in Ha3.
    destruct (PyJson.assoc "latitude" fields) as [v1 |] eqn:E1;
      [| discriminate Ha1]. inversion Ha1; subst v1.
    destruct (PyJson.assoc "longitude" fields) as [v2 |] eqn:E2;
      [| discriminate Ha3]. inversion Ha3; subst v2.
    exists results, fields, latitude, longitude. repeat split; assumption.
Qed.

End GeocodeFacts.

(** ** The further properties on concrete inputs *)

(** The agenda of the calendar with two entries at 10:00 is in order. *)
Lemma sorted_agenda_on_demo : StronglySorted starts_no_later Demo.agenda.
Proof.
  apply (agenda_is_sorted_by_start Demo.calendar_events Sample.clock
           Demo.urls Sample.cordoba).
  vm_compute. reflexivity.
Defined.

(** Primero was met before Segundo and stays before it. *)
Lemma stable_agenda_on_demo :
  exists events,
    scan_urls Demo.calendar_events (gettz Sample.cordoba)
      Sample.window_start Sample.window_end Demo.urls [] = Ok events /\
    Permutation events Demo.agenda /\
    forall k, filter (same_start k) Demo.agenda = filter (same_start k) events.
Proof.
  apply (agenda_keeps_discovery_order_of_equal_starts Demo.calendar_events
           Sample.clock Demo.urls Sample.cordoba).
  - vm_compute. reflexivity.
  - vm_compute. reflexivity.
Defined.

(** The agenda of the sample URLs and the demo URLs together. *)
Lemma joined_agenda_on_demo :
  exists agenda1 agenda2,
    fetch_ics_events_today Demo.calendar_events Sample.clock Sample.urls
      Sample.cordoba = Ok agenda1 /\
    fetch_ics_events_today Demo.calendar_events Sample.clock Demo.urls
      Sample.cordoba = Ok agenda2 /\
    Permutation Demo.joined_agenda (agenda1 ++ agenda2).
Proof.
  apply (agenda_of_joined_sources Demo.calendar_events Sample.clock
           Sample.urls Demo.urls Sample.cordoba).
  vm_compute. reflexivity.
Defined.

(** 12:30 lies in the window of its day. *)
Lemma window_holds_now_on_sample :
  lt (Sample.local Sample.may20 12 30) Sample.window_start = Ok false /\
  lt (Sample.local Sample.may20 12 30) Sample.window_end = Ok true /\
  ordinal Sample.window_start = ordinal (Sample.local Sample.may20 12 30) /\
  ordinal Sample.window_end = ordinal (Sample.local Sample.may20 12 30) + 1 /\
  hour Sample.window_end = 0 /\ minute Sample.window_end = 0 /\
  second Sample.window_end = 0 /\ microsecond Sample.window_end = 0.
Proof.
  apply (today_window_holds_now Sample.clock (gettz Sample.cordoba)).
  - vm_compute. reflexivity.
  - vm_compute. reflexivity.
Defined.

(** 08:00 local, once normalized, is normalized to itself. *)
Lemma idempotent_on_sample :
  to_local_dt (gettz Sample.cordoba) (Plain (Sample.local Sample.may20 8 0))
  = Ok (Sample.local Sample.may20 8 0) /\
  to_local_dt (gettz Sample.cordoba) (Arrow (Sample.local Sample.may20 8 0))
  = Ok (Sample.local Sample.may20 8 0).
Proof.
  apply (to_local_dt_is_idempotent (tzfile Sample.cordoba)
           (Plain (Sample.naive Sample.may20 11 0))).
  vm_compute. reflexivity.
Defined.

(** The sample agenda has three lines under its header. *)
Lemma agenda_renders_on_sample :
  exists lines,
    format_entries Sample.agenda = Ok lines /\
    List.length lines = List.length Sample.agenda /\
    format_agenda Sample.agenda
    = Ok (match Sample.agenda with
          | [] => agenda_header ++ nl ++ "(No hay eventos)" ++ nl
          | _ => PyStr.join nl (agenda_header :: lines) ++ nl
          end).
Proof.
  apply (agenda_always_renders Sample.calendar_events Sample.clock Sample.urls
           Sample.cordoba).
  vm_compute. reflexivity.
Defined.

(** With the bot that fails at its second text, the chat holds the message. *)
Lemma failing_run_on_demo :
  [Sample.message] = [] \/
  exists daily msg,
    assemble Sample.no_containers Demo.flaky_world = Ok (daily, msg) /\
    send_telegram Demo.flaky_world msg [] = (Ok tt, ([] ++ [msg])%list) /\
    [Sample.message] = ([] ++ [msg])%list.
Proof.
  apply (proj2 (failing_run_posts_at_most_the_first_message
                  Sample.no_containers Demo.flaky_world [])
           TelegramError [Sample.message]).
  vm_compute. reflexivity.
Defined.

(** In the sample world LAT and LON are set: another geocoder changes
    nothing. *)
Lemma geocoder_unused_on_sample :
  run Sample.no_containers
    (with_geocode Sample.world
       (fun _ => Ok (Demo.coord 0, Demo.coord 0, "Otra ciudad"))) []
  = run Sample.no_containers Sample.world [].
Proof.
  apply (proj1 (explicit_coordinates_bypass_the_geocoder
                  Sample.no_containers Sample.world [])).
  vm_compute. reflexivity.
Defined.

(** The program with the bot that fails at its second text: the exception is
    raised again, and the report cannot be posted. *)
Lemma main_on_demo :
  exists chat'',
    main Sample.no_containers Demo.flaky_world Demo.exn_text []
    = (Raise TelegramError, chat'') /\
    (chat'' = [Sample.message] \/
     chat'' = ([Sample.message]
               ++ [error_report (Demo.exn_text TelegramError)])%list).
Proof.
  apply (proj2 (main_raises_what_run_raised Sample.no_containers
                  Demo.flaky_world Demo.exn_text [])).
  vm_compute. reflexivity.
Defined.

(** Without BOT_TOKEN nothing is posted. *)
Lemma no_credentials_on_demo :
  exists e,
    run Sample.no_containers Demo.anonymous_world [] = (Raise e, []) /\
    main Sample.no_containers Demo.anonymous_world Demo.exn_text []
    = (Raise e, []) /\
    (assemble Sample.no_containers Demo.anonymous_world = Raise e \/
     (is_ok (assemble Sample.no_containers Demo.anonymous_world) = true /\
      e = RuntimeError "Faltan BOT_TOKEN o CHAT_ID")).
Proof.
  apply (nothing_is_posted_without_credentials Sample.no_containers
           Demo.anonymous_world Demo.exn_text []).
  vm_compute. reflexivity.
Defined.

(** The forecast with arrays as weather codes makes the text fail. *)
Lemma weather_failure_on_sample :
  is_ok (nice_weather_text_2days Sample.no_containers "Agua de Oro"
           Sample.daily_with_array_codes) = false.
Proof.
  apply (proj1 (weather_text_fails_only_on_an_unhashable_code
                  Sample.no_containers "Agua de Oro"
                  Sample.daily_with_array_codes)).
  exists 0%nat, Demo.today_with_array_code.
  split; [lia |]. split; [vm_compute; reflexivity |].
  simpl. tauto.
Defined.

(** TZ_NAME was set and keeps its value; CITY takes its first line, without
    the no-break spaces around the value; the key and the value of BOT_TOKEN
    are stripped; LON is assigned by the line that begins with a no-break
    space; LAT, in a comment, is not assigned. *)
Lemma load_env_on_demo :
  Demo.loaded_environment "TZ_NAME" = Some "America/Argentina/Cordoba" /\
  Demo.loaded_environment "CITY" = Some "Villa" /\
  Demo.loaded_environment "BOT_TOKEN" = Some "123:abc" /\
  Demo.loaded_environment "LON" = Some "-64" /\
  Demo.loaded_environment "LAT" = None.
Proof.
  split; [| split; [| split; [| split]]];
    refine (load_env_keeps_values_and_takes_first_assignments
              (Some Demo.env_file) Demo.environment Demo.loaded_environment
              _ _);
    vm_compute; reflexivity.
Defined.

(** A URL between single quotes, between a no-break space and spaces. *)
Lemma clean_url_on_sample :
  clean_url (Demo.nbsp ++ " 'https://example.org/a.ics' ")
  = "https://example.org/a.ics" /\
  clean_url "https://example.org/a.ics" = "https://example.org/a.ics" /\
  clean_url (clean_url (Demo.nbsp ++ " 'https://example.org/a.ics' "))
  = "https://example.org/a.ics".
Proof.
  apply clean_url_removes_quotes_and_whitespace.
  - reflexivity.
  - exists (Demo.nbsp ++ " "), "", "'", "'", "", " ".
    split; [exists [Demo.nbsp; " "]; split; reflexivity |].
    split; [exists [" "]; split; reflexivity |].
    repeat split; reflexivity.
Defined.

(** The two URLs of the sample world, the second written after a space. *)
Lemma ical_urls_on_sample :
  ICAL_URLS Sample.world
  = ["https://example.org/a.ics"; "https://example.org/down.ics"].
Proof.
  apply (proj2 (ical_urls_reads_the_written_list Sample.world)
           ["https://example.org/a.ics"; "https://example.org/down.ics"]
           ["https://example.org/a.ics"; " https://example.org/down.ics"]).
  - reflexivity.
  - constructor; [| constructor; [| constructor]].
    + exists "", "", "", "", "", "".
      split; [exists []; split; reflexivity |].
      split; [exists []; split; reflexivity |].
      repeat split; reflexivity.
    + exists " ", "", "", "", "", "".
      split; [exists [" "]; split; reflexivity |].
      split; [exists []; split; reflexivity |].
      repeat split; reflexivity.
  - constructor; [| constructor; [| constructor]]; reflexivity.
  - constructor; [| constructor; [| constructor]]; reflexivity.
Defined.

(** Of the two results of the answer the first is read. *)
Lemma geocode_on_demo :
  geocode_answer Demo.float_of_int "Agua de Oro, Cordoba, Argentina"
    Demo.geocoding_answer
  = Ok (Demo.coord (-31), Demo.coord (-64),
        dict_get Demo.first_result "name"
          (JStr "Agua de Oro, Cordoba, Argentina")).
Proof.
  apply (proj1 (proj2 (geocode_answer_reads_the_first_result
                         Demo.float_of_int "Agua de Oro, Cordoba, Argentina"
                         Demo.geocoding_answer))
           Demo.first_result
           [JDict [("name", JStr "Agua de Oro, San Luis")]]);
    reflexivity.
Defined.

(** ** No source, and the message of a run *)

Section MessageFacts.
Context {tzdata : TzData} {F : PyFloat}.
Variable container_repr : json -> string.
Variable w : World.

Lemma scan_urls_no_answer (calendar_events : string -> result (list Event))
    (tz : option tzinfo) (start end_ : datetime) (urls : list (option string)) :
  Forall (fun raw =>
            PyStr.truthy (clean_url (PyStr.or_empty raw)) = false \/
            is_ok (calendar_events (clean_url (PyStr.or_empty raw))) = false)
    urls ->
  forall acc, scan_urls calendar_events tz start end_ urls acc = Ok acc.
Proof.
  induction urls as [| raw rest IH]; intros H acc; [reflexivity |].
  inversion H as [| ? ? Hraw Hrest]; subst. simpl.
  destruct (PyStr.truthy (clean_url (PyStr.or_empty raw))) eqn:T; simpl.
  - destruct Hraw as [Hraw | Hraw]; [discriminate Hraw |].
    destruct (calendar_events (clean_url (PyStr.or_empty raw))) as [cal | e];
      [discriminate Hraw |].
    apply IH. exact Hrest.
  - apply IH. exact Hrest.
Qed.

(** X16.  When no source answers (every URL is empty once cleaned, or its fetch or
    parse raises) the agenda is empty and its text is the header with the
    line for no events (lines 115-124 and 139-140). *)
Theorem agenda_is_empty_when_no_source_answers
    (calendar_events : string -> result (list Event)) (clock : Z)
    (urls : list (option string)) (tzname : string) :
  is_ok (today_window clock (gettz tzname)) = true ->
  Forall (fun raw =>
            PyStr.truthy (clean_url (PyStr.or_empty raw)) = false \/
            is_ok (calendar_events (clean_url (PyStr.or_empty raw))) = false)
    urls ->
  fetch_ics_events_today calendar_events clock urls tzname = Ok [] /\
  (agenda <- fetch_ics_events_today calendar_events clock urls tzname ;;
   format_agenda agenda)
  = Ok (agenda_header ++ nl ++ "(No hay eventos)" ++ nl).
Proof.
  intros Hwin Hurls. apply is_ok_true in Hwin. destruct Hwin as [[start end_] Hwin].
  assert (E : fetch_ics_events_today calendar_events clock urls tzname = Ok []).
  { unfold fetch_ics_events_today. rewrite Hwin. cbn [bind].
    rewrite (scan_urls_no_answer calendar_events _ start end_ urls Hurls []).
    reflexivity. }
  split; [exact E |]. rewrite E. reflexivity.
Qed.

Lemma nice_weather_text_header (city_shown : string) (data : json) (text : string) :
  nice_weather_text_2days container_repr city_shown data = Ok text ->
  exists rest, text = weather_header city_shown ++ rest.
Proof.
  unfold nice_weather_text_2days. cbn [day_loop]. intros H.
  bind_inv H. inversion H; subst text. clear H.
  bind_inv Ha. bind_inv Ha. inversion Ha; subst a. clear Ha.
  destruct a0 as [t0 |], a1 as [t1 |];
    cbn [app PyStr.join String.concat].
  - eexists. reflexivity.
  - eexists. reflexivity.
  - eexists. reflexivity.
  - exists "". rewrite append_empty_r. reflexivity.
Qed.

(** X17.  What a successful run posts: the first text is the weather text, which
    begins with the header of the city, then an empty line, then the text of
    today's agenda; the second text is the first one, behind the rain banner
    if the check asks for it (lines 169-182). *)
Theorem successful_run_posts_weather_then_agenda (chat chat' : list string) :
  run container_repr w chat = (Ok tt, chat') ->
  exists daily city_shown rest agenda agenda_text msg,
    fetch_ics_events_today (http_calendar w) (system_clock w)
      (map Some (ICAL_URLS w)) (TZ_NAME w) = Ok agenda /\
    format_agenda agenda = Ok agenda_text /\
    nice_weather_text_2days container_repr city_shown daily
    = Ok (weather_header city_shown ++ rest) /\
    msg = (weather_header city_shown ++ rest) ++ nl ++ nl ++ agenda_text /\
    chat' = (chat ++ [msg; with_rain_banner daily msg])%list.
Proof.
  rewrite run_steps.
  destruct (assemble container_repr w) as [[daily msg] | e] eqn:A;
    [| intros H; discriminate H].
  destruct (send_telegram w msg chat) as [[u | e] chat1] eqn:S1;
    [| intros H; discriminate H].
  intros S2.
  apply send_telegram_posts in S1. apply send_telegram_posts in S2.
  subst chat1 chat'.
  unfold assemble in A. bind_inv A. destruct a as [[lat lon] city_shown].
  bind_inv A. bind_inv A. bind_inv A. bind_inv A.
  inversion A; subst; clear A.
  rename a0 into agenda, a1 into weather, a2 into agenda_text.
  destruct (nice_weather_text_header _ _ _ Ha2) as [rest Hrest]. subst weather.
  exists daily, city_shown, rest, agenda, agenda_text.
  eexists. split; [exact Ha1 |]. split; [exact Ha3 |]. split; [exact Ha2 |].
  split; [reflexivity |]. rewrite <- app_assoc. reflexivity.
Qed.

End MessageFacts.

(** Only the URL that cannot be fetched, and an empty one. *)
Lemma empty_agenda_on_sample :
  fetch_ics_events_today Sample.calendar_events Sample.clock
    [Some "https://example.org/down.ics"; Some " '' "; None] Sample.cordoba
  = Ok [] /\
  (agenda <- fetch_ics_events_today Sample.calendar_events Sample.clock
               [Some "https://example.org/down.ics"; Some " '' "; None]
               Sample.cordoba ;;
   format_agenda agenda)
  = Ok (agenda_header ++ nl ++ "(No hay eventos)" ++ nl).
Proof.
  apply agenda_is_empty_when_no_source_answers.
  - vm_compute. reflexivity.
  - constructor; [right; reflexivity |].
    constructor; [left; reflexivity |].
    constructor; [left; reflexivity | constructor].
Defined.

(** The two texts of the run in the sample world. *)
Lemma successful_run_on_sample :
  exists daily city_shown rest agenda agenda_text msg,
    fetch_ics_events_today (http_calendar Sample.world)
      (system_clock Sample.world) (map Some (ICAL_URLS Sample.world))
      (TZ_NAME Sample.world) = Ok agenda /\
    format_agenda agenda = Ok agenda_text /\
    nice_weather_text_2days Sample.no_containers city_shown daily
    = Ok (weather_header city_shown ++ rest) /\
    msg = (weather_header city_shown ++ rest) ++ nl ++ nl ++ agenda_text /\
    [Sample.message; Sample.message]
    = ([] ++ [msg; with_rain_banner daily msg])%list.
Proof.
  apply (successful_run_posts_weather_then_agenda Sample.no_containers
           Sample.world [] [Sample.message; Sample.message]).
  vm_compute. reflexivity.
Defined.
